(** * Agentless-Hub: polling engine, time-series store and query API

    A shallow embedding of [app/main.py]: the SSH / WinRM connectors with
    their retry decorator, the TCP latency helper, the SQLite tables, the
    poller ([AgentlessPoller.__init__], [poll_once], one [run_forever]
    iteration) and the read-only endpoints ([api_series], [api_latest]).

    Conventions.
    - Python exceptions are values of [exn]; a call that may raise returns
      [result A].
    - Everything the process reads from the outside (the clock, the TCP
      probe, what each SSH attempt meets) is an explicit input.
    - Library functions the program calls but does not define ([float],
      [int] on text, [repr], [json.loads], [json.dumps]) are the fields of
      the classes [PyFloat] and [PyLib]; theorems hold for every
      implementation, and a small reference implementation is provided to
      evaluate the program on concrete inputs.
    - A SQL table is the list of its rows in insertion (rowid) order; a
      transaction is all or nothing. Python integers are [Z]; the driver
      raises [OverflowError] when a statement of the poll binds an
      integer outside the signed 64-bit range of an [INTEGER] column.
      The endpoints are modelled for a [host_id] and a cutoff inside that
      range, and a float is a number: NaN, which SQLite stores as [NULL],
      is outside the model. A string is text the driver can encode (no
      lone surrogate).
    - [poll_once] is a coroutine that never awaits: the tasks of one
      [asyncio.gather] run one after the other, so a cycle is a fold over
      the hosts. *)

From Stdlib Require Import ZArith String Ascii List Lia Permutation Sorted.
From stdpp Require Import base option list gmap strings pretty.
Import ListNotations.

Set Warnings "-register-all".
Open Scope Z_scope.

(** ** Python exceptions and fallible calls *)

Inductive exn : Type :=
  | TypeError
  | ValueError
  | OverflowError
  | AttributeError
  | JSONDecodeError
  | RuntimeError (msg : string)
  | TransportError (msg : string)
  | RetryError (last : exn)
  | NoResultFound
  | MultipleResultsFound.

Inductive result (A : Type) : Type :=
  | Ok (a : A)
  | Raise (e : exn).
Arguments Ok {A} a.
Arguments Raise {A} e.

#[global] Instance result_ret : MRet result := fun A a => Ok a.
#[global] Instance result_bind : MBind result := fun A B f r =>
  match r with
  | Ok a => f a
  | Raise e => Raise e
  end.

Definition is_Ok {A : Type} (r : result A) : Prop :=
  match r with
  | Ok _ => True
  | Raise _ => False
  end.

Definition of_option {A : Type} (e : exn) (o : option A) : result A :=
  match o with
  | Some a => Ok a
  | None => Raise e
  end.

(** ** Python values *)

(** Floating-point numbers and the numeric conversions of the interpreter
    are kept abstract. [float_of_int] is [float(n)] ([None]:
    [OverflowError]); [float_of_str] is [float(s)] ([None]: [ValueError]);
    [int_of_float] is [int(x)] (raising on NaN and infinities);
    [int_of_str] is [int(s)] ([None]: [ValueError]); [float_truthy] is
    [bool(x)]. *)
Class PyFloat : Type := {
  pyfloat : Type;
  float_of_int : Z -> option pyfloat;
  float_of_str : string -> option pyfloat;
  int_of_float : pyfloat -> result Z;
  int_of_str : string -> option Z;
  float_truthy : pyfloat -> bool;
}.

(** The objects [json.loads] builds: [None], [bool], [int], [float], [str],
    [list] and [dict] with string keys. *)
Inductive json {F : PyFloat} : Type :=
  | JNull
  | JBool (b : bool)
  | JInt (z : Z)
  | JFloat (f : pyfloat)
  | JStr (s : string)
  | JArr (l : list json)
  | JObj (m : gmap string json).

(** [repr], [json.loads] ([None]: [JSONDecodeError]) and [json.dumps]. *)
Class PyLib {F : PyFloat} : Type := {
  py_repr : json -> string;
  json_loads : string -> option json;
  json_dumps : json -> string;
}.

Section Python.
Context {F : PyFloat} {L : PyLib}.

(** [bool(x)] for a string. *)
Definition str_truthy (s : string) : bool :=
  match s with
  | EmptyString => false
  | String _ _ => true
  end.

(** [bool(x)]: what [if x:] tests. *)
Definition truthy (j : json) : bool :=
  match j with
  | JNull => false
  | JBool b => b
  | JInt z => negb (Z.eqb z 0)
  | JFloat f => float_truthy f
  | JStr s => str_truthy s
  | JArr l => match l with [] => false | _ :: _ => true end
  | JObj m => negb (Nat.eqb (size m) 0)
  end.

Definition Z_of_bool (b : bool) : Z := if b then 1 else 0.

(** [float(x)]. *)
Definition py_float (j : json) : result pyfloat :=
  match j with
  | JNull => Raise TypeError
  | JBool b => of_option OverflowError (float_of_int (Z_of_bool b))
  | JInt z => of_option OverflowError (float_of_int z)
  | JFloat f => Ok f
  | JStr s => of_option ValueError (float_of_str s)
  | JArr _ => Raise TypeError
  | JObj _ => Raise TypeError
  end.

(** [int(x)]. *)
Definition py_int (j : json) : result Z :=
  match j with
  | JNull => Raise TypeError
  | JBool b => Ok (Z_of_bool b)
  | JInt z => Ok z
  | JFloat f => int_of_float f
  | JStr s => of_option ValueError (int_of_str s)
  | JArr _ => Raise TypeError
  | JObj _ => Raise TypeError
  end.

(** [str(x)]: a string is returned as it is, anything else is printed. *)
Definition py_str (j : json) : string :=
  match j with
  | JStr s => s
  | _ => py_repr j
  end.

(** [x.get(key, default)]: only a [dict] has the method. *)
Definition py_get (j : json) (key : string) (dflt : json) : result json :=
  match j with
  | JObj m => Ok (default dflt (m !! key))
  | _ => Raise AttributeError
  end.

(** [for d in x]: the items a [for] loop visits. A [dict] yields its
    keys and a string its characters; numbers, booleans and [None] are
    not iterable. *)
Definition py_iter (j : json) : result (list json) :=
  match j with
  | JArr l => Ok l
  | JObj m => Ok (JStr <$> (map_to_list m).*1)
  | JStr s => Ok ((fun c => JStr (String c EmptyString)) <$> list_ascii_of_string s)
  | _ => Raise TypeError
  end.

(** [json.loads(raw)]. *)
Definition py_json_loads (raw : string) : result json :=
  of_option JSONDecodeError (json_loads raw).

End Python.

(** ** Configuration models *)

Record SSHConfig : Type := {
  ssh_username : string;
  ssh_password : option string;
  ssh_private_key : option string;
  ssh_port : Z;
}.

Record WinRMConfig : Type := {
  winrm_username : string;
  winrm_password : string;
  winrm_scheme : string;
  winrm_port : Z;
  winrm_verify_ssl : bool;
}.

Record Host : Type := {
  name : string;
  ip : string;
  os : string;
  ssh : option SSHConfig;
  winrm : option WinRMConfig;
}.

(** One entry of the [hosts] list of the configuration file. *)
Record host_entry : Type := {
  entry_name : string;
  entry_ip : string;
  entry_os : string;
  entry_ssh : option SSHConfig;
  entry_winrm : option WinRMConfig;
}.

(** ** Connectors *)

(** What a connector does to the outside world, in order. *)
Inductive event : Type :=
  | EvKeyLoad (path : string)
  | EvConnect (ip : string) (port : Z) (user : string) (timeout : Z)
  | EvExec (cmd : string) (timeout : Z)
  | EvClose
  | EvRunPs (script : string)
  | EvSleep (seconds : Z).

(** What one SSH attempt meets: an error loading the key file, an error
    connecting, an error executing, and otherwise the decoded standard
    output and standard error of the command. *)
Record ssh_attempt : Type := {
  key_load_error : option exn;
  connect_error : option exn;
  exec_error : option exn;
  stdout : string;
  stderr : string;
}.

(** What one WinRM attempt meets: an error of the session, or a response. *)
Inductive winrm_attempt : Type :=
  | WinRMFails (e : exn)
  | WinRMResponse (status_code : Z) (std_out std_err : string).

(** [if self.cfg.private_key:]. *)
Definition uses_private_key (cfg : SSHConfig) : option string :=
  match ssh_private_key cfg with
  | Some path => if str_truthy path then Some path else None
  | None => None
  end.

(** The body of [SSHClient.run], one attempt: connect (with the key or the
    password), execute, read both streams, fail when there is error output
    and no standard output; the client is closed on every path. *)
Definition SSHClient_run_body (ip : string) (cfg : SSHConfig) (cmd : string)
    (w : ssh_attempt) : result string * list event :=
  let connect := EvConnect ip (ssh_port cfg) (ssh_username cfg) 8 in
  let '(r, tr) :=
    match uses_private_key cfg, key_load_error w with
    | Some path, Some e => (Raise e, [EvKeyLoad path])
    | k, _ =>
      let pre := match k with Some path => [EvKeyLoad path] | None => [] end in
      match connect_error w with
      | Some e => (Raise e, pre ++ [connect])
      | None =>
        match exec_error w with
        | Some e => (Raise e, pre ++ [connect; EvExec cmd 20])
        | None =>
          (if str_truthy (stderr w) && negb (str_truthy (stdout w))
           then Raise (RuntimeError (stderr w))
           else Ok (stdout w),
           pre ++ [connect; EvExec cmd 20])
        end
      end
    end in
  (r, tr ++ [EvClose]).

(** The body of [WinRMClient.run_ps], one attempt. *)
Definition WinRMClient_run_ps_body (script : string) (w : winrm_attempt)
    : result string * list event :=
  match w with
  | WinRMFails e => (Raise e, [EvRunPs script])
  | WinRMResponse status_code std_out std_err =>
    (if negb (Z.eqb status_code 0) then Raise (RuntimeError std_err) else Ok std_out,
     [EvRunPs script])
  end.

(** The retry decorator: call the body; when it raises and the attempt
    number has reached the bound, raise [RetryError] around the last
    failure; otherwise sleep and call it again. [remaining] is the number
    of attempts still allowed after this one. *)
Fixpoint retry_from {A : Type} (remaining : nat) (wait : Z)
    (body : nat -> result A * list event) (attempt_number : nat)
    : result A * list event :=
  let '(r, tr) := body attempt_number in
  match r with
  | Ok a => (Ok a, tr)
  | Raise e =>
    match remaining with
    | O => (Raise (RetryError e), tr)
    | S k =>
      let '(r', tr') := retry_from k wait body (S attempt_number) in
      (r', tr ++ EvSleep wait :: tr')
    end
  end.

(** [@retry(stop=stop_after_attempt(n), wait=wait_fixed(w))]. *)
Definition retry {A : Type} (stop_after_attempt : nat) (wait_fixed : Z)
    (body : nat -> result A * list event) : result A * list event :=
  retry_from (Nat.pred stop_after_attempt) wait_fixed body 1%nat.

(** What the caller gets when the first attempt has failed. *)
Definition after_retry {A : Type} (second : result A) : result A :=
  match second with
  | Ok a => Ok a
  | Raise e => Raise (RetryError e)
  end.

(** An SSH attempt that returns [out]: the key file (when one is used)
    loads, connecting and executing raise nothing, the command printed
    [out], and [out] is not empty or nothing was printed on the error
    stream. *)
Definition attempt_succeeds (cfg : SSHConfig) (w : ssh_attempt) (out : string) : Prop :=
  (uses_private_key cfg = None \/ key_load_error w = None)
  /\ connect_error w = None /\ exec_error w = None
  /\ stdout w = out
  /\ (out <> EmptyString \/ stderr w = EmptyString).

(** [SSHClient.run]; [world n] is what the [n]-th attempt meets. *)
Definition SSHClient_run (ip : string) (cfg : SSHConfig) (cmd : string)
    (world : nat -> ssh_attempt) : result string * list event :=
  retry 2 1 (fun n => SSHClient_run_body ip cfg cmd (world n)).

(** [WinRMClient.run_ps]. *)
Definition WinRMClient_run_ps (script : string) (world : nat -> winrm_attempt)
    : result string * list event :=
  retry 2 1 (fun n => WinRMClient_run_ps_body script (world n)).

(** The number of connection attempts and the delays in a trace. *)
Definition is_connect (e : event) : bool :=
  match e with
  | EvConnect _ _ _ _ => true
  | _ => false
  end.

Definition is_run_ps (e : event) : bool :=
  match e with
  | EvRunPs _ => true
  | _ => false
  end.

Definition is_close (e : event) : bool :=
  match e with
  | EvClose => true
  | _ => false
  end.

Definition connects (tr : list event) : nat := length (List.filter is_connect tr).

(** Every SSH attempt ends by closing its client: the closes count the
    attempts. *)
Definition closes (tr : list event) : nat := length (List.filter is_close tr).

Definition ps_calls (tr : list event) : nat := length (List.filter is_run_ps tr).

Definition sleeps (tr : list event) : list Z :=
  omap (fun e => match e with EvSleep s => Some s | _ => None end) tr.

(** ** SQLite tables *)

Section Store.
Context {F : PyFloat}.

Record host_row : Type := {
  h_id : Z;
  h_name : string;
  h_ip : string;
  h_os : string;
}.

Record sample_row : Type := {
  s_host_id : Z;
  s_ts : Z;
  s_cpu : option pyfloat;
  s_mem_total : option Z;
  s_mem_avail : option Z;
  s_uptime : option Z;
  s_latency_ms : option pyfloat;
  s_net_rx_kbps : option pyfloat;
  s_net_tx_kbps : option pyfloat;
}.

Record disk_row : Type := {
  d_host_id : Z;
  d_ts : Z;
  d_device : string;
  d_used_percent : pyfloat;
  d_size_bytes : Z;
  d_free_bytes : Z;
  d_mount : string;
}.

Record extras_row : Type := {
  e_host_id : Z;
  e_ts : Z;
  e_payload : string;
}.

(** The database: four tables, each in rowid order. *)
Record store : Type := {
  hosts : list host_row;
  samples : list sample_row;
  disks : list disk_row;
  extras : list extras_row;
}.

(** [init_db] on a fresh file: [CREATE TABLE IF NOT EXISTS] leaves four
    empty tables; on an existing database it changes nothing. *)
Definition empty_store : store :=
  {| hosts := []; samples := []; disks := []; extras := [] |}.

Definition init_db (db : option store) : store :=
  match db with
  | Some s => s
  | None => empty_store
  end.

(** The id of the next host. [AUTOINCREMENT] gives an id above every id
    the table holds or has handed out, and SQLite also spends an id on an
    insert that [OR IGNORE] drops; the counter is not part of the four
    tables. The model gives the least id above those in use, which is
    the real id as long as no insert has been dropped and otherwise a
    smaller one. What is proved of a new id is that it lies above the
    ids in use. *)
Definition next_host_id (hs : list host_row) : Z :=
  1 + foldr (fun r acc => Z.max (h_id r) acc) 0 hs.

(** [INSERT OR IGNORE INTO hosts(name, ip, os)]: the [UNIQUE] constraint
    on [name] makes the insert a no-op when the name is taken. *)
Definition insert_or_ignore_host (n i o : string) (db : store) : store :=
  if bool_decide (n ∈ h_name <$> hosts db) then db
  else {| hosts := hosts db ++ [{| h_id := next_host_id (hosts db);
                                   h_name := n; h_ip := i; h_os := o |}];
          samples := samples db; disks := disks db; extras := extras db |}.

(** [SELECT id FROM hosts WHERE name=:n] followed by [scalar_one()]. *)
Definition select_host_id (n : string) (db : store) : result Z :=
  match filter (fun r => h_name r = n) (hosts db) with
  | [r] => Ok (h_id r)
  | [] => Raise NoResultFound
  | _ :: _ :: _ => Raise MultipleResultsFound
  end.

Definition insert_sample (r : sample_row) (db : store) : store :=
  {| hosts := hosts db; samples := samples db ++ [r];
     disks := disks db; extras := extras db |}.

Definition insert_disk (r : disk_row) (db : store) : store :=
  {| hosts := hosts db; samples := samples db;
     disks := disks db ++ [r]; extras := extras db |}.

Definition insert_extras (r : extras_row) (db : store) : store :=
  {| hosts := hosts db; samples := samples db;
     disks := disks db; extras := extras db ++ [r] |}.

(** The range of an SQLite [INTEGER]. *)
Definition int64 (z : Z) : Prop := - 2 ^ 63 <= z < 2 ^ 63.

Definition opt_int64 (o : option Z) : Prop :=
  match o with
  | Some z => int64 z
  | None => True
  end.

(** Binding a Python [int] to a parameter of a statement: the driver
    raises [OverflowError] outside the signed 64-bit range. [None] is
    bound as [NULL]; floats and text are bound as they are. *)
Definition bind_int (z : Z) : result unit :=
  if (- 2 ^ 63 <=? z) && (z <? 2 ^ 63) then Ok () else Raise OverflowError.

Definition bind_opt_int (o : option Z) : result unit :=
  match o with
  | Some z => bind_int z
  | None => Ok ()
  end.

(** [cx.execute] of the three [INSERT] statements of a poll: bind the
    parameters, then add the row. The host id was read from [hosts] in
    the same transaction. *)
Definition execute_insert_sample (r : sample_row) (db : store) : result store :=
  bind_int (s_ts r) ;;
  bind_opt_int (s_mem_total r) ;;
  bind_opt_int (s_mem_avail r) ;;
  bind_opt_int (s_uptime r) ;;
  Ok (insert_sample r db).

Definition execute_insert_disk (r : disk_row) (db : store) : result store :=
  bind_int (d_ts r) ;;
  bind_int (d_size_bytes r) ;;
  bind_int (d_free_bytes r) ;;
  Ok (insert_disk r db).

Definition execute_insert_extras (r : extras_row) (db : store) : result store :=
  bind_int (e_ts r) ;;
  Ok (insert_extras r db).




(** The scan behind [ORDER BY key DESC LIMIT 1]: keep the best row so
    far, a later row replacing an equal one. *)
Definition keep_best {A : Type} (key : A -> Z) (best : option A) (x : A) : option A :=
  match best with
  | None => Some x
  | Some b => if key b <=? key x then Some x else Some b
  end.

(** [ORDER BY key DESC LIMIT 1]: a row with the largest key, the one
    inserted last among equals (the first entry of a backward scan of
    the index). *)
Definition order_by_desc_limit_1 {A : Type} (key : A -> Z) (l : list A) : option A :=
  foldl (keep_best key) None l.

(** [SELECT MAX(key)]: [None] is SQL [NULL], the maximum of no rows. *)
Definition select_max {A : Type} (key : A -> Z) (l : list A) : option Z :=
  key <$> order_by_desc_limit_1 key l.

End Store.

(** ** Agentless poller *)

Section Poller.
Context {F : PyFloat} {L : PyLib}.

(** The text of the remote script; the program only hands it to
    [exec_command]. *)
Variable LINUX_SHELL : string.

(** What one call of [poll_once] reads from the outside: the clock
    ([int(time.time())]), the TCP connect time in milliseconds to an
    address and port ([None] when the connection fails or times out) and
    what each SSH attempt meets. *)
Record poll_env : Type := {
  now : Z;
  probe : string -> Z -> option pyfloat;
  ssh_world : nat -> ssh_attempt;
}.

(** [tcp_ping]: the elapsed time of a successful connection, [None] on
    any exception. *)
Definition tcp_ping (w : poll_env) (ip : string) (port : Z) : option pyfloat :=
  probe w ip port.

(** [AgentlessPoller.__init__], first loop: the SSH profile is kept for
    a linux entry only and the WinRM profile for a windows entry only. *)
Definition host_of_entry (h : host_entry) : Host :=
  {| name := entry_name h; ip := entry_ip h; os := entry_os h;
     ssh := if String.eqb (entry_os h) "linux" then entry_ssh h else None;
     winrm := if String.eqb (entry_os h) "windows" then entry_winrm h else None |}.

(** Second loop: one [INSERT OR IGNORE] per host, in order. *)
Definition register_hosts (hs : list Host) (db : store) : store :=
  foldl (fun acc h => insert_or_ignore_host (name h) (ip h) (os h) acc) db hs.

(** [AgentlessPoller.__init__]: [self.hosts] and the database after it. *)
Definition AgentlessPoller_init (config_hosts : list host_entry) (db : store)
    : list Host * store :=
  let hs := host_of_entry <$> config_hosts in
  (hs, register_hosts hs db).

(** The local variables of [poll_once] that the commit reads. *)
Record locals : Type := {
  cpu : option pyfloat;
  mem_total : option Z;
  mem_avail : option Z;
  uptime : option Z;
  net_rx : option pyfloat;
  net_tx : option pyfloat;
  disks_v : json;
  extras_payload : option string;
}.

Definition initial_locals : locals :=
  {| cpu := None; mem_total := None; mem_avail := None; uptime := None;
     net_rx := None; net_tx := None; disks_v := JArr []; extras_payload := None |}.

Definition set_cpu (v : pyfloat) (l : locals) : locals :=
  {| cpu := Some v; mem_total := mem_total l; mem_avail := mem_avail l;
     uptime := uptime l; net_rx := net_rx l; net_tx := net_tx l;
     disks_v := disks_v l; extras_payload := extras_payload l |}.
Definition set_mem_total (v : Z) (l : locals) : locals :=
  {| cpu := cpu l; mem_total := Some v; mem_avail := mem_avail l;
     uptime := uptime l; net_rx := net_rx l; net_tx := net_tx l;
     disks_v := disks_v l; extras_payload := extras_payload l |}.
Definition set_mem_avail (v : Z) (l : locals) : locals :=
  {| cpu := cpu l; mem_total := mem_total l; mem_avail := Some v;
     uptime := uptime l; net_rx := net_rx l; net_tx := net_tx l;
     disks_v := disks_v l; extras_payload := extras_payload l |}.
Definition set_uptime (v : Z) (l : locals) : locals :=
  {| cpu := cpu l; mem_total := mem_total l; mem_avail := mem_avail l;
     uptime := Some v; net_rx := net_rx l; net_tx := net_tx l;
     disks_v := disks_v l; extras_payload := extras_payload l |}.
Definition set_net_rx (v : option pyfloat) (l : locals) : locals :=
  {| cpu := cpu l; mem_total := mem_total l; mem_avail := mem_avail l;
     uptime := uptime l; net_rx := v; net_tx := net_tx l;
     disks_v := disks_v l; extras_payload := extras_payload l |}.
Definition set_net_tx (v : option pyfloat) (l : locals) : locals :=
  {| cpu := cpu l; mem_total := mem_total l; mem_avail := mem_avail l;
     uptime := uptime l; net_rx := net_rx l; net_tx := v;
     disks_v := disks_v l; extras_payload := extras_payload l |}.
Definition set_disks (v : json) (l : locals) : locals :=
  {| cpu := cpu l; mem_total := mem_total l; mem_avail := mem_avail l;
     uptime := uptime l; net_rx := net_rx l; net_tx := net_tx l;
     disks_v := v; extras_payload := extras_payload l |}.
Definition set_extras_payload (v : string) (l : locals) : locals :=
  {| cpu := cpu l; mem_total := mem_total l; mem_avail := mem_avail l;
     uptime := uptime l; net_rx := net_rx l; net_tx := net_tx l;
     disks_v := disks_v l; extras_payload := Some v |}.

(** A block of statements inside [try]: it threads the local variables
    and stops at the first exception, keeping the assignments made
    before it. *)
Definition block (A : Type) : Type := locals -> locals * result A.

Definition call {A : Type} (r : result A) : block A := fun l => (l, r).

Definition assign (f : locals -> locals) : block unit := fun l => (f l, Ok ()).

Definition then_ {A B : Type} (b : block A) (k : A -> block B) : block B :=
  fun l =>
    match b l with
    | (l', Ok a) => k a l'
    | (l', Raise e) => (l', Raise e)
    end.

Notation "x <~ b ; k" := (then_ b (fun x => k))
  (at level 100, b at next level, k at level 200, right associativity).
Notation "b ;~ k" := (then_ b (fun _ => k))
  (at level 100, k at level 200, right associativity).

(** [float(net.get(key, 0)) if net else None]. *)
Definition net_rate (net : json) (key : string) : result (option pyfloat) :=
  if truthy net then v ← py_get net key (JInt 0); f ← py_float v; Ok (Some f)
  else Ok None.

(** The linux branch of the [try] block, from the raw output on: parse
    the payload and assign the metrics one by one. *)
Definition parse_payload (raw : string) : block unit :=
  data <~ call (py_json_loads raw);
  c <~ call (py_get data "cpu_percent" (JInt 0) ≫= py_float);
  assign (set_cpu c) ;~
  mt <~ call (py_get data "mem_total_bytes" (JInt 0) ≫= py_int);
  assign (set_mem_total mt) ;~
  ma <~ call (py_get data "mem_available_bytes" (JInt 0) ≫= py_int);
  assign (set_mem_avail ma) ;~
  up <~ call (py_get data "uptime_seconds" (JInt 0) ≫= py_int);
  assign (set_uptime up) ;~
  ds <~ call (py_get data "disks" (JArr []));
  assign (set_disks ds) ;~
  ex <~ call (py_get data "extras" (JObj ∅));
  net <~ call (py_get ex "net" (JObj ∅));
  rx <~ call (net_rate net "total_rx_kbps");
  assign (set_net_rx rx) ;~
  tx <~ call (net_rate net "total_tx_kbps");
  assign (set_net_tx tx) ;~
  assign (set_extras_payload (json_dumps ex)).

(** The linux branch: run the script over SSH, then parse. *)
Definition collect_linux (host : Host) (cfg : SSHConfig) (w : poll_env) : block unit :=
  raw <~ call (SSHClient_run (ip host) cfg LINUX_SHELL (ssh_world w)).1;
  parse_payload raw.

(** One [INSERT INTO disks] of the loop over [disks]. *)
Definition commit_disk (hid ts : Z) (d : json) (db : store) : result store :=
  dev ← py_get d "device" JNull;
  upct ← py_get d "used_percent" (JInt 0) ≫= py_float;
  sz ← py_get d "size_bytes" (JInt 0) ≫= py_int;
  free ← py_get d "free_bytes" (JInt 0) ≫= py_int;
  mnt ← py_get d "mount" (JStr "");
  execute_insert_disk {| d_host_id := hid; d_ts := ts; d_device := py_str dev;
                         d_used_percent := upct; d_size_bytes := sz;
                         d_free_bytes := free; d_mount := py_str mnt |} db.

Fixpoint commit_disks (hid ts : Z) (ds : list json) (db : store) : result store :=
  match ds with
  | [] => Ok db
  | d :: ds' => db' ← commit_disk hid ts d db; commit_disks hid ts ds' db'
  end.

(** The sample row a poll writes. *)
Definition sample_of (hid ts : Z) (latency : option pyfloat) (l : locals) : sample_row :=
  {| s_host_id := hid; s_ts := ts; s_cpu := cpu l; s_mem_total := mem_total l;
     s_mem_avail := mem_avail l; s_uptime := uptime l; s_latency_ms := latency;
     s_net_rx_kbps := net_rx l; s_net_tx_kbps := net_tx l |}.

(** The extras rows a poll writes: one when there is a payload. *)
Definition extras_of (hid ts : Z) (l : locals) : list extras_row :=
  match extras_payload l with
  | Some p => if str_truthy p
              then [{| e_host_id := hid; e_ts := ts; e_payload := p |}] else []
  | None => []
  end.

(** The body of the final [with self.engine.begin()] block. *)
Definition commit_body (host : Host) (ts : Z) (latency : option pyfloat)
    (l : locals) (db : store) : result store :=
  hid ← select_host_id (name host) db;
  db1 ← execute_insert_sample
    {| s_host_id := hid; s_ts := ts; s_cpu := cpu l; s_mem_total := mem_total l;
       s_mem_avail := mem_avail l; s_uptime := uptime l; s_latency_ms := latency;
       s_net_rx_kbps := net_rx l; s_net_tx_kbps := net_tx l |} db;
  db2 ← (if truthy (disks_v l)
         then ds ← py_iter (disks_v l); commit_disks hid ts ds db1
         else Ok db1);
  match extras_payload l with
  | Some p => if str_truthy p
              then execute_insert_extras
                     {| e_host_id := hid; e_ts := ts; e_payload := p |} db2
              else Ok db2
  | None => Ok db2
  end.

(** What a call of [poll_once] leaves behind: the database, the
    exception it printed and the exception it raised. *)
Record poll_result : Type := {
  db_after : store;
  logged : option exn;
  raised : option exn;
}.

(** The transaction: committed when the body returns, rolled back when
    it raises. *)
Definition commit (host : Host) (ts : Z) (latency : option pyfloat)
    (l : locals) (log : option exn) (db : store) : poll_result :=
  match commit_body host ts latency l db with
  | Ok db' => {| db_after := db'; logged := log; raised := None |}
  | Raise e => {| db_after := db; logged := log; raised := Some e |}
  end.

(** The [try] / [except] statement of [poll_once]: the local variables
    and the exception printed, or [None] when the windows branch returns
    from the function. *)
Definition try_block (host : Host) (w : poll_env) : option (locals * option exn) :=
  match String.eqb (os host) "linux", ssh host with
  | true, Some cfg =>
    match collect_linux host cfg w initial_locals with
    | (l, Ok _) => Some (l, None)
    | (l, Raise e) => Some (l, Some e)
    end
  | _, _ =>
    match String.eqb (os host) "windows", winrm host with
    | true, Some _ => None
    | _, _ => Some (initial_locals, None)
    end
  end.

(** [AgentlessPoller.poll_once]. *)
Definition poll_once (db : store) (host : Host) (w : poll_env) : poll_result :=
  let ts := now w in
  let latency := tcp_ping w (ip host) (if String.eqb (os host) "linux" then 22 else 3389) in
  match try_block host w with
  | Some (l, log) => commit host ts latency l log db
  | None => {| db_after := db; logged := None; raised := None |}
  end.

(** One iteration of [run_forever]: [asyncio.gather] over the hosts.
    [poll_once] never awaits, so the tasks run one after the other in
    list order, each to its end; the first exception is the one the
    [await] raises, after every task has run. [envs i] is what the
    [i]-th host's call reads. *)
Fixpoint gather (db : store) (hs : list Host) (envs : nat -> poll_env)
    : store * option exn :=
  match hs with
  | [] => (db, None)
  | h :: hs' =>
    let r := poll_once db h (envs O) in
    let '(db', e') := gather (db_after r) hs' (fun i => envs (S i)) in
    (db', match raised r with Some e => Some e | None => e' end)
  end.

End Poller.

(** ** Query API *)

Section QueryAPI.
Context {F : PyFloat} {L : PyLib}.

(** The columns the endpoints select. *)
Record sample_view : Type := {
  v_ts : Z;
  v_cpu : option pyfloat;
  v_mem_total : option Z;
  v_mem_avail : option Z;
  v_uptime : option Z;
  v_latency_ms : option pyfloat;
  v_net_rx_kbps : option pyfloat;
  v_net_tx_kbps : option pyfloat;
}.


Record disk_latest_view : Type := {
  dl_device : string;
  dl_used_percent : pyfloat;
  dl_size_bytes : Z;
  dl_free_bytes : Z;
  dl_mount : string;
}.

Definition view_sample (r : sample_row) : sample_view :=
  {| v_ts := s_ts r; v_cpu := s_cpu r; v_mem_total := s_mem_total r;
     v_mem_avail := s_mem_avail r; v_uptime := s_uptime r;
     v_latency_ms := s_latency_ms r; v_net_rx_kbps := s_net_rx_kbps r;
     v_net_tx_kbps := s_net_tx_kbps r |}.


Definition view_disk_latest (r : disk_row) : disk_latest_view :=
  {| dl_device := d_device r; dl_used_percent := d_used_percent r;
     dl_size_bytes := d_size_bytes r; dl_free_bytes := d_free_bytes r;
     dl_mount := d_mount r |}.


Record latest_response : Type := {
  latest_last : option sample_view;
  latest_extras : json;
  latest_disks : list disk_latest_view;
}.




(** [FROM samples WHERE host_id=:hid ORDER BY ts DESC LIMIT 1]. *)
Definition select_last_sample (db : store) (hid : Z) : option sample_row :=
  order_by_desc_limit_1 s_ts (filter (fun r => s_host_id r = hid) (samples db)).

(** [FROM extras WHERE host_id=:hid ORDER BY ts DESC LIMIT 1]. *)
Definition select_last_extras (db : store) (hid : Z) : option extras_row :=
  order_by_desc_limit_1 e_ts (filter (fun r => e_host_id r = hid) (extras db)).

(** [FROM disks WHERE host_id=:hid AND ts=(SELECT MAX(ts) FROM disks
    WHERE host_id=:hid)]; a [NULL] maximum matches no row. *)
Definition select_last_disks (db : store) (hid : Z) : list disk_row :=
  match select_max d_ts (filter (fun r => d_host_id r = hid) (disks db)) with
  | Some m => filter (fun r => d_host_id r = hid ∧ d_ts r = m) (disks db)
  | None => []
  end.

(** [json.loads(ex) if ex else {}]. *)
Definition decode_extras (ex : option string) : result json :=
  match ex with
  | Some p => if str_truthy p then py_json_loads p else Ok (JObj ∅)
  | None => Ok (JObj ∅)
  end.

(** [api_latest]. *)
Definition api_latest (db : store) (host_id : Z) : result latest_response :=
  let last := view_sample <$> select_last_sample db host_id in
  let ex := e_payload <$> select_last_extras db host_id in
  let ds := view_disk_latest <$> select_last_disks db host_id in
  ex' ← decode_extras ex;
  Ok {| latest_last := last; latest_extras := ex'; latest_disks := ds |}.

End QueryAPI.

(** ** A reference implementation of the library functions

    Used to run the program on concrete inputs. A float is a decimal
    [mantissa * 10 ^ exponent]; [json_dumps] prints compact JSON text and
    [json_loads] parses JSON text (literals, numbers, strings with the
    two-character escapes, arrays, objects). *)

Module Reference.

Definition dquote : ascii := ascii_of_nat 34.
Definition backslash : ascii := ascii_of_nat 92.

Definition digit_of (c : ascii) : option Z :=
  let n := Z.of_nat (nat_of_ascii c) in
  if (48 <=? n) && (n <=? 57) then Some (n - 48) else None.

(** The longest prefix of digits, as a number, with the count of digits
    and the rest. *)
Fixpoint read_digits (acc : Z) (count : nat) (s : string) : Z * nat * string :=
  match s with
  | String c r =>
    match digit_of c with
    | Some d => read_digits (10 * acc + d) (S count) r
    | None => (acc, count, s)
    end
  | EmptyString => (acc, count, s)
  end.

Definition read_sign (s : string) : bool * string :=
  match s with
  | String "-" r => (true, r)
  | _ => (false, s)
  end.

Definition read_exp_sign (s : string) : bool * string :=
  match s with
  | String "-" r => (true, r)
  | String "+" r => (false, r)
  | _ => (false, s)
  end.

Definition signed (neg : bool) (z : Z) : Z := if neg then - z else z.

(** A JSON number: an integer, or a decimal when it has a fraction or
    an exponent. *)
Definition read_number (s : string) : option ((Z + Z * Z) * string) :=
  let '(neg, s1) := read_sign s in
  let '(ip, n1, s2) := read_digits 0 0 s1 in
  if Nat.eqb n1 0 then None else
  let '(m, fd, s3, is_float) :=
    match s2 with
    | String "." r =>
      let '(m, n2, s3) := read_digits ip 0 r in (m, n2, s3, true)
    | _ => (ip, O, s2, false)
    end in
  if is_float && Nat.eqb fd 0 then None else
  match s3 with
  | String c r =>
    if Ascii.eqb c "e" || Ascii.eqb c "E" then
      let '(eneg, s4) := read_exp_sign r in
      let '(ex, n3, s5) := read_digits 0 0 s4 in
      if Nat.eqb n3 0 then None
      else Some (inr (signed neg m, signed eneg ex - Z.of_nat fd), s5)
    else if is_float then Some (inr (signed neg m, - Z.of_nat fd), s3)
    else Some (inl (signed neg m), s3)
  | EmptyString =>
    if is_float then Some (inr (signed neg m, - Z.of_nat fd), s3)
    else Some (inl (signed neg m), s3)
  end.

Definition whole_number (s : string) : option (Z + Z * Z) :=
  match read_number s with
  | Some (v, EmptyString) => Some v
  | _ => None
  end.

#[export] Instance decimal_float : PyFloat := {|
  pyfloat := Z * Z;
  float_of_int z := Some (z, 0);
  float_of_str s :=
    match whole_number s with
    | Some (inl z) => Some (z, 0)
    | Some (inr f) => Some f
    | None => None
    end;
  int_of_float f :=
    Ok (if 0 <=? f.2 then f.1 * 10 ^ f.2 else Z.quot f.1 (10 ^ (- f.2)));
  int_of_str s :=
    match whole_number s with
    | Some (inl z) => Some z
    | _ => None
    end;
  float_truthy f := negb (Z.eqb f.1 0);
|}.

Fixpoint escape (s : string) : string :=
  match s with
  | EmptyString => EmptyString
  | String c r =>
    if Ascii.eqb c dquote || Ascii.eqb c backslash
    then String backslash (String c (escape r))
    else String c (escape r)
  end.

Definition quoted (s : string) : string :=
  String dquote (escape s +:+ String dquote EmptyString).

Definition join (sep : string) (l : list string) : string :=
  match l with
  | [] => EmptyString
  | x :: l' => foldl (fun acc y => acc +:+ sep +:+ y) x l'
  end.

Fixpoint dumps (j : json) : string :=
  match j with
  | JNull => "null"
  | JBool b => if b then "true" else "false"
  | JInt z => pretty z
  | JFloat f => pretty f.1 +:+ "e" +:+ pretty f.2
  | JStr s => quoted s
  | JArr l => "[" +:+ join ", " (dumps <$> l) +:+ "]"
  | JObj m =>
    "{" +:+ join ", " ((fun kv => quoted kv.1 +:+ ": " +:+ kv.2)
                         <$> map_to_list (dumps <$> m)) +:+ "}"
  end.

Fixpoint skip_ws (s : string) : string :=
  match s with
  | String c r =>
    if Ascii.eqb c " " || Ascii.eqb c (ascii_of_nat 10)
       || Ascii.eqb c (ascii_of_nat 13) || Ascii.eqb c (ascii_of_nat 9)
    then skip_ws r else s
  | EmptyString => s
  end.

(** The characters of a string literal after its opening quote. *)
Fixpoint read_string (s : string) : option (string * string) :=
  match s with
  | EmptyString => None
  | String c r =>
    if Ascii.eqb c dquote then Some (EmptyString, r)
    else if Ascii.eqb c backslash then
      match r with
      | String e r' =>
        let plain (x : ascii) :=
          match read_string r' with
          | Some (t, rest) => Some (String x t, rest)
          | None => None
          end in
        if Ascii.eqb e dquote then plain dquote
        else if Ascii.eqb e backslash then plain backslash
        else if Ascii.eqb e "/" then plain "/"%char
        else if Ascii.eqb e "n" then plain (ascii_of_nat 10)
        else if Ascii.eqb e "r" then plain (ascii_of_nat 13)
        else if Ascii.eqb e "t" then plain (ascii_of_nat 9)
        else if Ascii.eqb e "b" then plain (ascii_of_nat 8)
        else if Ascii.eqb e "f" then plain (ascii_of_nat 12)
        else None
      | EmptyString => None
      end
    else
      match read_string r with
      | Some (t, rest) => Some (String c t, rest)
      | None => None
      end
  end.

Definition expect (p : string) (s : string) : option string :=
  if String.prefix p s then Some (String.substring (String.length p) (String.length s - String.length p) s)
  else None.

Fixpoint read_value (fuel : nat) (s : string) : option (json * string) :=
  match fuel with
  | O => None
  | S n =>
    match skip_ws s with
    | EmptyString => None
    | String c r as s' =>
      if Ascii.eqb c "n" then r' ← expect "ull" r; Some (JNull, r')
      else if Ascii.eqb c "t" then r' ← expect "rue" r; Some (JBool true, r')
      else if Ascii.eqb c "f" then r' ← expect "alse" r; Some (JBool false, r')
      else if Ascii.eqb c dquote then
        '(t, r') ← read_string r; Some (JStr t, r')
      else if Ascii.eqb c "[" then
        match skip_ws r with
        | String "]" r' => Some (JArr [], r')
        | _ => '(l, r') ← read_elements n r; Some (JArr l, r')
        end
      else if Ascii.eqb c "{" then
        match skip_ws r with
        | String "}" r' => Some (JObj ∅, r')
        | _ => '(m, r') ← read_members n r ∅; Some (JObj m, r')
        end
      else
        '(v, r') ← read_number s';
        Some (match v with inl z => JInt z | inr f => JFloat f end, r')
    end
  end
with read_elements (fuel : nat) (s : string) : option (list json * string) :=
  match fuel with
  | O => None
  | S n =>
    '(v, r) ← read_value n s;
    match skip_ws r with
    | String "," r' => '(l, r'') ← read_elements n r'; Some (v :: l, r'')
    | String "]" r' => Some ([v], r')
    | _ => None
    end
  end
with read_members (fuel : nat) (s : string) (acc : gmap string json)
    : option (gmap string json * string) :=
  match fuel with
  | O => None
  | S n =>
    match skip_ws s with
    | String c r =>
      if Ascii.eqb c dquote then
        '(k, r1) ← read_string r;
        match skip_ws r1 with
        | String ":" r2 =>
          '(v, r3) ← read_value n r2;
          match skip_ws r3 with
          | String "," r4 => read_members n r4 (<[k := v]> acc)
          | String "}" r4 => Some (<[k := v]> acc, r4)
          | _ => None
          end
        | _ => None
        end
      else None
    | EmptyString => None
    end
  end.

Definition loads (raw : string) : option json :=
  match read_value (S (String.length raw)) raw with
  | Some (v, r) =>
    match skip_ws r with
    | EmptyString => Some v
    | String _ _ => None
    end
  | None => None
  end.

#[export] Instance json_library : PyLib := {|
  py_repr := dumps;
  json_loads := loads;
  json_dumps := dumps;
|}.

(** What may follow a value in the text: nothing, or a separator. *)
Definition stops (rest : string) : Prop :=
  match rest with
  | EmptyString => True
  | String c _ => c = ","%char \/ c = "]"%char \/ c = "}"%char
  end.

(** What ends a run of digits. *)
Definition no_digit (rest : string) : Prop :=
  match rest with
  | EmptyString => True
  | String c _ => digit_of c = None
  end.

End Reference.

(** ** Reachable databases *)

Section Reachable.
Context {F : PyFloat} {L : PyLib}.
Variable LINUX_SHELL : string.

Definition host_names (db : store) : list string := h_name <$> hosts db.

(** The databases the process can be in: the one [__init__] leaves,
    starting from a database that satisfies the [UNIQUE] constraint of
    [hosts.name], and those that calls of [poll_once] on the poller's
    hosts lead to. *)
Inductive reachable (config_hosts : list host_entry) : store -> Prop :=
  | reachable_init (db0 : store) :
      NoDup (host_names db0) ->
      reachable config_hosts (AgentlessPoller_init config_hosts db0).2
  | reachable_poll (db : store) (h : Host) (w : poll_env) :
      reachable config_hosts db ->
      h ∈ host_of_entry <$> config_hosts ->
      reachable config_hosts (db_after (poll_once LINUX_SHELL db h w)).

(** The collection is skipped: the windows branch of [poll_once]. *)
Definition skipped (host : Host) : Prop :=
  os host = "windows" ∧ is_Some (winrm host).

(** A value the loop over [disks] commits without raising: nothing
    (a false value), or a list of objects whose [used_percent] converts
    with [float] and whose [size_bytes] and [free_bytes] convert with
    [int] to integers of the 64-bit range. *)
Definition disk_entry_ok (d : json) : Prop :=
  exists m sz free, d = JObj m
    /\ is_Ok (py_float (default (JInt 0) (m !! "used_percent")))
    /\ py_int (default (JInt 0) (m !! "size_bytes")) = Ok sz /\ int64 sz
    /\ py_int (default (JInt 0) (m !! "free_bytes")) = Ok free /\ int64 free.

Definition disks_ok (v : json) : Prop :=
  truthy v = false \/ exists l, v = JArr l /\ Forall disk_entry_ok l.



End Reachable.

(** ** The rest of the program: start-up, the loop, the host list *)

Section Program.
Context {F : PyFloat} {L : PyLib}.
Variable LINUX_SHELL : string.

(** [int(os.getenv("POLL_INTERVAL_SECONDS") or
    config.get("poll_interval_seconds", 30))]: [getenv] is the value of
    the environment variable ([None] when unset), [config] the mapping
    read from the configuration file. [a or b] is [a] when [a] is true. *)
Definition poll_interval (getenv : option string) (config : gmap string json)
    : result Z :=
  match getenv with
  | Some s =>
    if str_truthy s then of_option ValueError (int_of_str s)
    else py_int (default (JInt 30) (config !! "poll_interval_seconds"))
  | None => py_int (default (JInt 30) (config !! "poll_interval_seconds"))
  end.

(** [run_forever], its first [cycles] iterations: gather the polls of all
    hosts, then sleep for the interval; an exception out of the gather
    ends the coroutine. [envs c i] is what the poll of host [i] reads in
    iteration [c]. The result is the database, the exception that ended
    the loop if one did, and the sleeps made. *)
Fixpoint run_forever (cycles : nat) (interval : Z) (hs : list Host) (db : store)
    (envs : nat -> nat -> poll_env) : store * option exn * list event :=
  match cycles with
  | O => (db, None, [])
  | S n =>
    let '(db', e) := gather LINUX_SHELL db hs (envs O) in
    match e with
    | Some ex => (db', Some ex, [])
    | None =>
      let '(db'', e', tr) := run_forever n interval hs db' (fun c => envs (S c)) in
      (db'', e', EvSleep interval :: tr)
    end
  end.

(** [ORDER BY name], in the byte order of SQLite's default collation. *)
Fixpoint insert_by_name (x : host_row) (l : list host_row) : list host_row :=
  match l with
  | [] => [x]
  | y :: l' =>
    if String.leb (h_name x) (h_name y) then x :: l else y :: insert_by_name x l'
  end.

Definition order_by_name (l : list host_row) : list host_row :=
  foldr insert_by_name [] l.

(** A row of [api_hosts]: the host and the [ts] of its last sample. *)
Record host_view : Type := {
  hv_id : Z;
  hv_name : string;
  hv_ip : string;
  hv_os : string;
  hv_last_ts : option Z;
}.

Definition view_host (db : store) (h : host_row) : host_view :=
  {| hv_id := h_id h; hv_name := h_name h; hv_ip := h_ip h; hv_os := h_os h;
     hv_last_ts := s_ts <$> select_last_sample db (h_id h) |}.

(** [api_hosts]. *)
Definition api_hosts (db : store) : list host_view :=
  view_host db <$> order_by_name (hosts db).

(** The store constraints: [hosts.id] is a key and [hosts.name] is unique. *)
Definition hosts_keys (db : store) : Prop :=
  NoDup (h_id <$> hosts db) /\ NoDup (host_names db).

(** Every row of the three series tables refers to a host. *)
Definition references_hosts (db : store) : Prop :=
  Forall (fun r => s_host_id r ∈ h_id <$> hosts db) (samples db)
  /\ Forall (fun r => d_host_id r ∈ h_id <$> hosts db) (disks db)
  /\ Forall (fun r => e_host_id r ∈ h_id <$> hosts db) (extras db).

(** Every disk row and every extras row sits beside a sample of the same
    host and the same [ts]. *)
Definition beside_a_sample (db : store) : Prop :=
  Forall (fun r => exists s, s ∈ samples db /\ s_host_id s = d_host_id r /\ s_ts s = d_ts r)
         (disks db)
  /\ Forall (fun r => exists s, s ∈ samples db /\ s_host_id s = e_host_id r /\ s_ts s = e_ts r)
            (extras db).

(** What a row added by [register_hosts] looks like, relative to the
    database it started from: an id above the old ones, a name that was
    not there, and the address and system of a host of that name. *)
Definition registered_from (db : store) (hs : list Host) (r : host_row) : Prop :=
  (forall r0, r0 ∈ hosts db -> h_id r0 < h_id r)
  /\ (h_name r ∉ host_names db)
  /\ exists h, (h ∈ hs) /\ name h = h_name r /\ ip h = h_ip r /\ os h = h_os r.



End Program.

(** ** A small fleet, to run the program on *)

Module Example.
Import Reference.

Definition LINUX_SHELL : string := "LINUX_SHELL".

Definition web_1 : host_entry :=
  {| entry_name := "web-1"; entry_ip := "10.0.0.5"; entry_os := "linux";
     entry_ssh := Some {| ssh_username := "monitor"; ssh_password := Some "secret";
                          ssh_private_key := None; ssh_port := 22 |};
     entry_winrm := None |}.

Definition win_1 : host_entry :=
  {| entry_name := "win-1"; entry_ip := "10.0.0.6"; entry_os := "windows";
     entry_ssh := None;
     entry_winrm := Some {| winrm_username := "Administrator";
                            winrm_password := "secret"; winrm_scheme := "http";
                            winrm_port := 5985; winrm_verify_ssl := false |} |}.

Definition fleet : list host_entry := [web_1; win_1].

Definition web : Host := host_of_entry web_1.
Definition win : Host := host_of_entry win_1.

(** The database after start-up on a fresh file. *)
Definition db0 : store := (AgentlessPoller_init fleet (init_db None)).2.

Definition obj (l : list (string * json)) : json := JObj (list_to_map l).

Definition disk (device mount : string) (size free : Z) (used : Z * Z) : json :=
  obj [("device", JStr device); ("size_bytes", JInt size); ("free_bytes", JInt free);
       ("used_percent", JFloat used); ("mount", JStr mount)].

Definition extras_fields_1 : gmap string json :=
  list_to_map
    [("load_avg", obj [("l1", JFloat (25, -2)); ("l5", JFloat (1, -1))]);
     ("net", obj [("total_rx_kbps", JFloat (15, -1)); ("total_tx_kbps", JInt 3);
                  ("interfaces", JArr [])]);
     ("processes", obj [("total", JInt 120)])].

Definition extras_1 : json := JObj extras_fields_1.

Definition fields_1 : gmap string json :=
  list_to_map
    [("hostname", JStr "web-1"); ("uptime_seconds", JInt 3600);
     ("cpu_percent", JFloat (125, -1)); ("mem_total_bytes", JInt 8000);
     ("mem_available_bytes", JInt 4000); ("os", JStr "linux");
     ("disks", JArr [disk "/dev/sda1" "/" 1000 400 (60, 0);
                     disk "/dev/sdb1" "/data" 5000 4500 (10, 0)]);
     ("extras", extras_1)].

Definition payload_1 : json := JObj fields_1.

(** An attempt that prints [text], and one that cannot connect. *)
Definition prints (text : string) : ssh_attempt :=
  {| key_load_error := None; connect_error := None; exec_error := None;
     stdout := text; stderr := "" |}.

(** An attempt that prints a result and, on the error stream, a warning. *)
Definition warns : ssh_attempt :=
  {| key_load_error := None; connect_error := None; exec_error := None;
     stdout := "up 3 days"; stderr := "locale: cannot set LC_ALL" |}.

Definition refused : ssh_attempt :=
  {| key_load_error := None; connect_error := Some (TransportError "refused");
     exec_error := None; stdout := ""; stderr := "" |}.

Definition answers (ts : Z) (text : string) : poll_env :=
  {| now := ts; probe := fun _ _ => Some (8, -1); ssh_world := fun _ => prints text |}.

Definition unreachable (ts : Z) : poll_env :=
  {| now := ts; probe := fun _ _ => None; ssh_world := fun _ => refused |}.

Definition poll (db : store) (h : Host) (w : poll_env) : store :=
  db_after (poll_once LINUX_SHELL db h w).

(** One good cycle at [ts = 100], then a cycle at [ts = 200] in which
    the linux host cannot be reached. *)
Definition db1 : store := poll db0 web (answers 100 (json_dumps payload_1)).
Definition db2 : store := poll db1 web (unreachable 200).



Definition payload_half : json :=
  obj [("cpu_percent", JInt 5); ("mem_total_bytes", JStr "n/a")].

Definition payload_bad_disk : json :=
  obj [("disks", JArr [obj [("device", JStr "/dev/sda1"); ("used_percent", JNull)]])].

(** An object that parses, with an integer no [INTEGER] column takes. *)
Definition payload_wide : json := obj [("mem_total_bytes", JInt (2 ^ 63))].

Definition refused_twice : nat -> ssh_attempt := fun _ => refused.

(** A payload whose [net] has no rates. *)
Definition net_bare : gmap string json := list_to_map [("interfaces", JArr [])].

Definition extras_net_bare : gmap string json := list_to_map [("net", JObj net_bare)].

Definition fields_net_bare : gmap string json :=
  list_to_map [("cpu_percent", JInt 7); ("extras", JObj extras_net_bare)].


(** A linux host registered without an SSH profile. *)
Definition bare : Host :=
  {| name := "db-1"; ip := "10.0.0.7"; os := "linux"; ssh := None; winrm := None |}.

Definition bare_entry : host_entry :=
  {| entry_name := "db-1"; entry_ip := "10.0.0.7"; entry_os := "linux";
     entry_ssh := None; entry_winrm := None |}.

(** The example fleet with that host added, and its database at start-up. *)
Definition fleet3 : list host_entry := fleet ++ [bare_entry].

Definition db3 : store := (AgentlessPoller_init fleet3 (init_db None)).2.

(** The rows the two polls of the linux host write. *)
Definition sample_1 : sample_row :=
  {| s_host_id := 1; s_ts := 100; s_cpu := Some (125, -1); s_mem_total := Some 8000;
     s_mem_avail := Some 4000; s_uptime := Some 3600; s_latency_ms := Some (8, -1);
     s_net_rx_kbps := Some (15, -1); s_net_tx_kbps := Some (3, 0) |}.

Definition sample_2 : sample_row :=
  {| s_host_id := 1; s_ts := 200; s_cpu := None; s_mem_total := None;
     s_mem_avail := None; s_uptime := None; s_latency_ms := None;
     s_net_rx_kbps := None; s_net_tx_kbps := None |}.

Definition extras_row_1 : extras_row :=
  {| e_host_id := 1; e_ts := 100; e_payload := json_dumps extras_1 |}.

(** What [api_latest] answers for the linux host after the two polls. *)
Definition latest_2 : latest_response :=
  {| latest_last := Some (view_sample sample_2);
     latest_extras := extras_1;
     latest_disks :=
       [{| dl_device := "/dev/sda1"; dl_used_percent := (60, 0);
           dl_size_bytes := 1000; dl_free_bytes := 400; dl_mount := "/" |};
        {| dl_device := "/dev/sdb1"; dl_used_percent := (10, 0);
           dl_size_bytes := 5000; dl_free_bytes := 4500; dl_mount := "/data" |}] |}.

Definition monitor : SSHConfig :=
  {| ssh_username := "monitor"; ssh_password := Some "secret";
     ssh_private_key := None; ssh_port := 22 |}.

(** The local variables after the [try] block of the first poll. *)
Definition locals_1 : locals :=
  {| cpu := Some (125, -1); mem_total := Some 8000; mem_avail := Some 4000;
     uptime := Some 3600; net_rx := Some (15, -1); net_tx := Some (3, 0);
     disks_v := JArr [disk "/dev/sda1" "/" 1000 400 (60, 0);
                      disk "/dev/sdb1" "/data" 5000 4500 (10, 0)];
     extras_payload := Some (json_dumps extras_1) |}.

Definition winrm_down : nat -> winrm_attempt :=
  fun _ => WinRMFails (TransportError "refused").

(** The environments of a run in which cycle [c] starts at
    [100 + 60 c] and every host prints [text]. *)
Definition every_minute (text : string) (c : nat) : nat -> poll_env :=
  fun _ => answers (100 + 60 * Z.of_nat c) text.

(** The configuration after the linux host was given another address. *)
Definition web_1_moved : host_entry :=
  {| entry_name := "web-1"; entry_ip := "10.0.0.9"; entry_os := "linux";
     entry_ssh := entry_ssh web_1; entry_winrm := None |}.

Definition fleet_moved : list host_entry := [web_1_moved].


End Example.

(** * Properties *)

(** ** Host registration *)

Section Registration.
Context {F : PyFloat}.

Lemma insert_or_ignore_host_present (n i o : string) (db : store) :
  n ∈ host_names db -> insert_or_ignore_host n i o db = db.
Proof.
  intros Hin. unfold insert_or_ignore_host.
  rewrite bool_decide_eq_true_2; [reflexivity | exact Hin].
Qed.

Lemma insert_or_ignore_host_absent (n i o : string) (db : store) :
  n ∉ host_names db ->
  host_names (insert_or_ignore_host n i o db) = host_names db ++ [n].
Proof.
  intros Hout. unfold insert_or_ignore_host.
  rewrite bool_decide_eq_false_2; [| exact Hout].
  unfold host_names. simpl. rewrite fmap_app. reflexivity.
Qed.

Lemma insert_or_ignore_host_registers (n i o : string) (db : store) :
  n ∈ host_names (insert_or_ignore_host n i o db).
Proof.
  destruct (decide (n ∈ host_names db)) as [Hin | Hout].
  - rewrite insert_or_ignore_host_present; assumption.
  - rewrite insert_or_ignore_host_absent by assumption.
    apply elem_of_app. right. apply list_elem_of_singleton. reflexivity.
Qed.

Lemma insert_or_ignore_host_keeps (n i o m : string) (db : store) :
  m ∈ host_names db -> m ∈ host_names (insert_or_ignore_host n i o db).
Proof.
  intros Hm. destruct (decide (n ∈ host_names db)) as [Hin | Hout].
  - rewrite insert_or_ignore_host_present; assumption.
  - rewrite insert_or_ignore_host_absent by assumption.
    apply elem_of_app. left. exact Hm.
Qed.

Lemma insert_or_ignore_host_unique (n i o : string) (db : store) :
  NoDup (host_names db) -> NoDup (host_names (insert_or_ignore_host n i o db)).
Proof.
  intros Hnd. destruct (decide (n ∈ host_names db)) as [Hin | Hout].
  - rewrite insert_or_ignore_host_present; assumption.
  - rewrite insert_or_ignore_host_absent by assumption.
    apply NoDup_app. split; [exact Hnd |]. split.
    + intros x Hx Hx'. apply list_elem_of_singleton in Hx'. subst x. contradiction.
    + apply NoDup_singleton.
Qed.

Lemma insert_or_ignore_host_tables (n i o : string) (db : store) :
  samples (insert_or_ignore_host n i o db) = samples db
  /\ disks (insert_or_ignore_host n i o db) = disks db
  /\ extras (insert_or_ignore_host n i o db) = extras db.
Proof.
  unfold insert_or_ignore_host. case_bool_decide; simpl; auto.
Qed.

Lemma register_hosts_cons (h : Host) (hs : list Host) (db : store) :
  register_hosts (h :: hs) db
  = register_hosts hs (insert_or_ignore_host (name h) (ip h) (os h) db).
Proof. reflexivity. Qed.

Lemma register_hosts_unique (hs : list Host) (db : store) :
  NoDup (host_names db) -> NoDup (host_names (register_hosts hs db)).
Proof.
  revert db. induction hs as [| h hs IH]; intros db Hnd; [exact Hnd |].
  rewrite register_hosts_cons. apply IH, insert_or_ignore_host_unique, Hnd.
Qed.

Lemma register_hosts_keeps (hs : list Host) (db : store) (m : string) :
  m ∈ host_names db -> m ∈ host_names (register_hosts hs db).
Proof.
  revert db. induction hs as [| h hs IH]; intros db Hm; [exact Hm |].
  rewrite register_hosts_cons. apply IH, insert_or_ignore_host_keeps, Hm.
Qed.

Lemma register_hosts_registers (hs : list Host) (db : store) (h : Host) :
  h ∈ hs -> name h ∈ host_names (register_hosts hs db).
Proof.
  revert db. induction hs as [| h' hs IH]; intros db Hin.
  - apply elem_of_nil in Hin. contradiction.
  - rewrite register_hosts_cons. apply elem_of_cons in Hin as [-> | Hin].
    + apply register_hosts_keeps, insert_or_ignore_host_registers.
    + apply IH, Hin.
Qed.

Lemma register_hosts_tables (hs : list Host) (db : store) :
  samples (register_hosts hs db) = samples db
  /\ disks (register_hosts hs db) = disks db
  /\ extras (register_hosts hs db) = extras db.
Proof.
  revert db. induction hs as [| h hs IH]; intros db; [auto |].
  rewrite register_hosts_cons.
  destruct (IH (insert_or_ignore_host (name h) (ip h) (os h) db)) as (-> & -> & ->).
  apply insert_or_ignore_host_tables.
Qed.

(** C9. Registration is insert-if-absent: registering a name that is
    already in [hosts] changes nothing, so registering again any host of
    a sequence after the sequence changes nothing, and [hosts.name]
    stays unique after every sequence of registrations. *)
Theorem registration_idempotent (db : store) (hs : list Host) :
  NoDup (host_names db) ->
  NoDup (host_names (register_hosts hs db))
  /\ (forall n i o, n ∈ host_names db -> insert_or_ignore_host n i o db = db)
  /\ (forall h, h ∈ hs ->
        register_hosts [h] (register_hosts hs db) = register_hosts hs db).
Proof.
  intros Hnd. split; [apply register_hosts_unique, Hnd |]. split.
  - intros n i o. apply insert_or_ignore_host_present.
  - intros h Hin. unfold register_hosts at 1. simpl.
    apply insert_or_ignore_host_present, register_hosts_registers, Hin.
Qed.

End Registration.

Lemma registration_idempotent_witness :
  NoDup (host_names Example.db0)
  /\ NoDup (host_names (register_hosts [Example.web; Example.web] Example.db0))
  /\ (forall n i o, n ∈ host_names Example.db0 ->
        insert_or_ignore_host n i o Example.db0 = Example.db0)
  /\ (forall h, h ∈ [Example.web; Example.web] ->
        register_hosts [h] (register_hosts [Example.web; Example.web] Example.db0)
        = register_hosts [Example.web; Example.web] Example.db0).
Proof.
  assert (Hnd : NoDup (host_names Example.db0)).
  { apply (bool_decide_unpack _). vm_compute. exact I. }
  split; [exact Hnd |].
  exact (registration_idempotent Example.db0 [Example.web; Example.web] Hnd).
Defined.

(** ** Retry policy of the connectors *)

Section Retry.
Context {A : Type}.
Implicit Types (body : nat -> result A * list event).

Lemma retry_first_success body (wait : Z) (n : nat) (a : A) :
  (body 1%nat).1 = Ok a ->
  retry (S n) wait body = (Ok a, (body 1%nat).2).
Proof.
  intros H. unfold retry. destruct n; simpl;
    destruct (body 1%nat) as [r tr]; simpl in *; subst r; reflexivity.
Qed.

Lemma retry_second_success body (wait : Z) (e : exn) (a : A) :
  (body 1%nat).1 = Raise e -> (body 2%nat).1 = Ok a ->
  retry 2 wait body = (Ok a, (body 1%nat).2 ++ EvSleep wait :: (body 2%nat).2).
Proof.
  intros H1 H2. unfold retry. simpl.
  destruct (body 1%nat) as [r1 t1], (body 2%nat) as [r2 t2].
  simpl in *. subst. reflexivity.
Qed.

Lemma retry_exhausted body (wait : Z) (e1 e2 : exn) :
  (body 1%nat).1 = Raise e1 -> (body 2%nat).1 = Raise e2 ->
  retry 2 wait body
  = (Raise (RetryError e2), (body 1%nat).2 ++ EvSleep wait :: (body 2%nat).2).
Proof.
  intros H1 H2. unfold retry. simpl.
  destruct (body 1%nat) as [r1 t1], (body 2%nat) as [r2 t2].
  simpl in *. subst. reflexivity.
Qed.

(** A third attempt is never made: only the first two matter. *)
Lemma retry_two_attempts body body' (wait : Z) :
  body 1%nat = body' 1%nat -> body 2%nat = body' 2%nat ->
  retry 2 wait body = retry 2 wait body'.
Proof.
  intros H1 H2. unfold retry. simpl. rewrite H1, H2. reflexivity.
Qed.

End Retry.

Lemma sleeps_app (t1 t2 : list event) : sleeps (t1 ++ t2) = sleeps t1 ++ sleeps t2.
Proof. unfold sleeps. apply omap_app. Qed.

Lemma closes_app (t1 t2 : list event) : closes (t1 ++ t2) = (closes t1 + closes t2)%nat.
Proof. unfold closes. rewrite List.filter_app, length_app. reflexivity. Qed.

Lemma ps_calls_app (t1 t2 : list event) :
  ps_calls (t1 ++ t2) = (ps_calls t1 + ps_calls t2)%nat.
Proof. unfold ps_calls. rewrite List.filter_app, length_app. reflexivity. Qed.

(** One attempt over SSH: no sleep, at most one connection, one close,
    at the end; a successful attempt went through connect, execute and
    close. *)
Lemma SSHClient_run_body_trace (ip : string) (cfg : SSHConfig) (cmd : string)
    (w : ssh_attempt) :
  sleeps (SSHClient_run_body ip cfg cmd w).2 = []
  /\ (connects (SSHClient_run_body ip cfg cmd w).2 <= 1)%nat
  /\ closes (SSHClient_run_body ip cfg cmd w).2 = 1%nat
  /\ last (SSHClient_run_body ip cfg cmd w).2 = Some EvClose
  /\ (forall out, (SSHClient_run_body ip cfg cmd w).1 = Ok out ->
      (SSHClient_run_body ip cfg cmd w).2
      = match uses_private_key cfg with Some p => [EvKeyLoad p] | None => [] end
        ++ [EvConnect ip (ssh_port cfg) (ssh_username cfg) 8; EvExec cmd 20; EvClose]).
Proof.
  unfold SSHClient_run_body.
  destruct (uses_private_key cfg) as [p |], (key_load_error w) as [ek |],
    (connect_error w) as [ec |], (exec_error w) as [ee |];
    cbn; repeat split; try lia; try discriminate; try reflexivity.
Qed.

Lemma WinRMClient_run_ps_body_trace (script : string) (w : winrm_attempt) :
  (WinRMClient_run_ps_body script w).2 = [EvRunPs script].
Proof. destruct w; reflexivity. Qed.

Lemma retry_first_failure {A : Type} (body : nat -> result A * list event)
    (wait : Z) (e : exn) :
  (body 1%nat).1 = Raise e ->
  retry 2 wait body
  = (after_retry (body 2%nat).1, (body 1%nat).2 ++ EvSleep wait :: (body 2%nat).2).
Proof.
  intros H1. destruct (body 2%nat).1 as [a | e2] eqn:H2.
  - apply (retry_second_success body wait e a H1 H2).
  - apply (retry_exhausted body wait e e2 H1 H2).
Qed.

(** C3, as the code has it. When an attempt of a connector fails, the
    whole body (for SSH: connect, execute, close; for WinRM: the call of
    the session) runs a second time after a sleep of one second, and
    never a third time: two attempts in all. The caller gets the output
    of the second attempt when it succeeds; when it fails too the caller
    does not get that last error itself but [RetryError] carrying it. *)
Theorem retry_policy (ip : string) (cfg : SSHConfig) (cmd : string)
    (world : nat -> ssh_attempt) (script : string)
    (wworld : nat -> winrm_attempt) (e1 w1 : exn) :
  (SSHClient_run_body ip cfg cmd (world 1%nat)).1 = Raise e1 ->
  (WinRMClient_run_ps_body script (wworld 1%nat)).1 = Raise w1 ->
  (SSHClient_run ip cfg cmd world).2
  = (SSHClient_run_body ip cfg cmd (world 1%nat)).2
    ++ EvSleep 1 :: (SSHClient_run_body ip cfg cmd (world 2%nat)).2
  /\ sleeps (SSHClient_run ip cfg cmd world).2 = [1]
  /\ closes (SSHClient_run ip cfg cmd world).2 = 2%nat
  /\ (SSHClient_run ip cfg cmd world).1
     = after_retry (SSHClient_run_body ip cfg cmd (world 2%nat)).1
  /\ (forall out, (SSHClient_run_body ip cfg cmd (world 2%nat)).1 = Ok out ->
        (SSHClient_run ip cfg cmd world).1 = Ok out)
  /\ (forall e2, (SSHClient_run_body ip cfg cmd (world 2%nat)).1 = Raise e2 ->
        (SSHClient_run ip cfg cmd world).1 = Raise (RetryError e2))
  /\ (WinRMClient_run_ps script wworld).2 = [EvRunPs script; EvSleep 1; EvRunPs script]
  /\ sleeps (WinRMClient_run_ps script wworld).2 = [1]
  /\ ps_calls (WinRMClient_run_ps script wworld).2 = 2%nat
  /\ (WinRMClient_run_ps script wworld).1
     = after_retry (WinRMClient_run_ps_body script (wworld 2%nat)).1
  /\ (forall out, (WinRMClient_run_ps_body script (wworld 2%nat)).1 = Ok out ->
        (WinRMClient_run_ps script wworld).1 = Ok out)
  /\ (forall w2, (WinRMClient_run_ps_body script (wworld 2%nat)).1 = Raise w2 ->
        (WinRMClient_run_ps script wworld).1 = Raise (RetryError w2)).
Proof.
  intros H1 H3. unfold SSHClient_run, WinRMClient_run_ps.
  rewrite (retry_first_failure _ 1 e1 H1), (retry_first_failure _ 1 w1 H3).
  rewrite !WinRMClient_run_ps_body_trace. cbn [fst snd].
  destruct (SSHClient_run_body_trace ip cfg cmd (world 1%nat)) as (Hs1 & _ & Hc1 & _).
  destruct (SSHClient_run_body_trace ip cfg cmd (world 2%nat)) as (Hs2 & _ & Hc2 & _).
  split; [reflexivity |]. split.
  { rewrite sleeps_app. simpl. rewrite Hs1, Hs2. reflexivity. }
  split.
  { rewrite closes_app. change (EvSleep 1 :: ?t) with ([EvSleep 1] ++ t).
    rewrite closes_app, Hc1, Hc2. reflexivity. }
  split; [reflexivity |]. split.
  { intros out ->. reflexivity. }
  split.
  { intros e2 ->. reflexivity. }
  split; [reflexivity |]. split; [reflexivity |]. split; [reflexivity |].
  split; [reflexivity |]. split.
  { intros out ->. reflexivity. }
  intros w2 ->. reflexivity.
Qed.

(** ** SQL building blocks *)

Section Ordering.
Context {A : Type} (key : A -> Z).








Lemma order_by_desc_limit_1_unfold (l : list A) :
  order_by_desc_limit_1 key l = foldl (keep_best key) None l.
Proof. reflexivity. Qed.

Lemma keep_best_scan (l : list A) (b : A) :
  exists r, foldl (keep_best key) (Some b) l = Some r
            /\ (r = b \/ r ∈ l) /\ key b <= key r
            /\ (forall x, x ∈ l -> key x <= key r).
Proof.
  revert b. induction l as [| y l IH]; intros b; simpl.
  - exists b. repeat split; [left; reflexivity | lia |].
    intros x Hx. apply elem_of_nil in Hx. contradiction.
  - destruct (key b <=? key y) eqn:E.
    + destruct (IH y) as (r & -> & Hr & Hy & Hall). exists r.
      apply Z.leb_le in E. repeat split.
      * right. destruct Hr as [-> | Hr]; [left | right; assumption].
      * lia.
      * intros x Hx. apply elem_of_cons in Hx as [-> | Hx]; auto.
    + destruct (IH b) as (r & -> & Hr & Hb & Hall). exists r.
      apply Z.leb_gt in E. repeat split.
      * destruct Hr as [-> | Hr]; [left; reflexivity | right; right; assumption].
      * exact Hb.
      * intros x Hx. apply elem_of_cons in Hx as [-> | Hx]; [lia | auto].
Qed.

Lemma order_by_desc_limit_1_none (l : list A) :
  order_by_desc_limit_1 key l = None <-> l = [].
Proof.
  rewrite order_by_desc_limit_1_unfold. destruct l as [| x l]; simpl.
  - split; reflexivity.
  - destruct (keep_best_scan l x) as (r & -> & _). split; discriminate.
Qed.

Lemma order_by_desc_limit_1_max (l : list A) (r : A) :
  order_by_desc_limit_1 key l = Some r ->
  r ∈ l /\ forall x, x ∈ l -> key x <= key r.
Proof.
  rewrite order_by_desc_limit_1_unfold. destruct l as [| y l]; simpl; [discriminate |].
  destruct (keep_best_scan l y) as (r' & -> & Hr & Hy & Hall).
  intros [= <-]. split.
  - destruct Hr as [-> | Hr]; [left | right; assumption].
  - intros x Hx. apply elem_of_cons in Hx as [-> | Hx]; auto.
Qed.

Lemma order_by_desc_limit_1_some (l : list A) (x : A) :
  x ∈ l -> exists r, order_by_desc_limit_1 key l = Some r.
Proof.
  intros Hx. destruct (order_by_desc_limit_1 key l) as [r |] eqn:E; [eauto |].
  apply order_by_desc_limit_1_none in E. subst l.
  apply elem_of_nil in Hx. contradiction.
Qed.

(** A row newer than every other one, appended last, is the one selected. *)
Lemma order_by_desc_limit_1_snoc (l : list A) (x : A) :
  (forall y, y ∈ l -> key y <= key x) ->
  order_by_desc_limit_1 key (l ++ [x]) = Some x.
Proof.
  intros Hall. rewrite order_by_desc_limit_1_unfold, foldl_app. simpl.
  rewrite <- order_by_desc_limit_1_unfold.
  destruct (order_by_desc_limit_1 key l) as [b |] eqn:E; simpl; [| reflexivity].
  apply order_by_desc_limit_1_max in E as [Hb _].
  rewrite (proj2 (Z.leb_le _ _) (Hall b Hb)). reflexivity.
Qed.

End Ordering.

(** ** Series and latest queries *)

(** From here on the reference implementation is in scope, for the
    statements about the example fleet. *)
Import Reference.

Section Queries.
Context {F : PyFloat} {L : PyLib}.






Lemma select_last_sample_max (db : store) (hid : Z) (r : sample_row) :
  select_last_sample db hid = Some r ->
  r ∈ samples db /\ s_host_id r = hid
  /\ forall r', r' ∈ samples db -> s_host_id r' = hid -> s_ts r' <= s_ts r.
Proof.
  unfold select_last_sample. intros H.
  apply order_by_desc_limit_1_max in H as [Hin Hmax].
  apply list_elem_of_filter in Hin as [Hh Hin]. repeat split; [assumption .. |].
  intros r' Hin' Hh'. apply Hmax, list_elem_of_filter. split; assumption.
Qed.

Lemma select_last_extras_max (db : store) (hid : Z) (r : extras_row) :
  select_last_extras db hid = Some r ->
  r ∈ extras db /\ e_host_id r = hid
  /\ forall r', r' ∈ extras db -> e_host_id r' = hid -> e_ts r' <= e_ts r.
Proof.
  unfold select_last_extras. intros H.
  apply order_by_desc_limit_1_max in H as [Hin Hmax].
  apply list_elem_of_filter in Hin as [Hh Hin]. repeat split; [assumption .. |].
  intros r' Hin' Hh'. apply Hmax, list_elem_of_filter. split; assumption.
Qed.

Lemma select_last_extras_none (db : store) (hid : Z) :
  select_last_extras db hid = None <->
  forall r, r ∈ extras db -> e_host_id r <> hid.
Proof.
  unfold select_last_extras. rewrite order_by_desc_limit_1_none. split.
  - intros H r Hin Hh.
    assert (Hr : r ∈ filter (fun r => e_host_id r = hid) (extras db))
      by (apply list_elem_of_filter; split; assumption).
    rewrite H in Hr. apply elem_of_nil in Hr. exact Hr.
  - intros H. destruct (filter _ (extras db)) as [| r l] eqn:E; [reflexivity |].
    assert (Hr : r ∈ filter (fun r => e_host_id r = hid) (extras db))
      by (rewrite E; left).
    apply list_elem_of_filter in Hr as [Hh Hin]. destruct (H r Hin Hh).
Qed.

Lemma select_last_disks_elem (db : store) (hid : Z) (r : disk_row) :
  r ∈ select_last_disks db hid <->
  r ∈ disks db /\ d_host_id r = hid
  /\ forall r', r' ∈ disks db -> d_host_id r' = hid -> d_ts r' <= d_ts r.
Proof.
  unfold select_last_disks, select_max.
  destruct (order_by_desc_limit_1 d_ts _) as [b |] eqn:E; simpl.
  - apply order_by_desc_limit_1_max in E as [Hb Hmax].
    apply list_elem_of_filter in Hb as [Hbh Hb].
    rewrite list_elem_of_filter. split.
    + intros [[Hh Ht] Hin]. repeat split; [assumption .. |].
      intros r' Hin' Hh'. rewrite Ht. apply Hmax, list_elem_of_filter. split; assumption.
    + intros (Hin & Hh & Hm). repeat split; [assumption | | assumption].
      assert (d_ts b <= d_ts r) by (apply Hm; assumption).
      assert (d_ts r <= d_ts b) by (apply Hmax, list_elem_of_filter; split; assumption).
      lia.
  - apply order_by_desc_limit_1_none in E. split.
    + intros H. apply elem_of_nil in H. contradiction.
    + intros (Hin & Hh & _).
      assert (Hr : r ∈ filter (fun r => d_host_id r = hid) (disks db))
        by (apply list_elem_of_filter; split; assumption).
      rewrite E in Hr. exact Hr.
Qed.

Lemma str_truthy_spec (s : string) : str_truthy s = true <-> s <> EmptyString.
Proof. destruct s; simpl; split; congruence. Qed.

(** C6. For a host with at least one sample, whose newest extras
    payload (if any) is decodable text, [api_latest] answers, and in its
    answer: [last] is a sample of that host with the largest [ts] among
    that host's samples; [extras] is what [json.loads] reads from the
    payload of an extras row of that host with the largest [ts] among
    that host's extras rows (the empty object when that payload is the
    empty text, or when the host has no extras row); [disks] are exactly
    the disk rows of that host whose [ts] is the largest among that
    host's disk rows. *)
Theorem api_latest_maximum (db : store) (hid : Z) (s0 : sample_row) :
  s0 ∈ samples db -> s_host_id s0 = hid ->
  (forall e, select_last_extras db hid = Some e -> is_Some (json_loads (e_payload e))) ->
  exists resp, api_latest db hid = Ok resp
  /\ (exists s, latest_last resp = Some (view_sample s)
        /\ s ∈ samples db /\ s_host_id s = hid
        /\ forall s', s' ∈ samples db -> s_host_id s' = hid -> s_ts s' <= s_ts s)
  /\ ((latest_extras resp = JObj ∅ /\ forall e, e ∈ extras db -> e_host_id e <> hid)
      \/ exists e, e ∈ extras db /\ e_host_id e = hid
           /\ (forall e', e' ∈ extras db -> e_host_id e' = hid -> e_ts e' <= e_ts e)
           /\ (e_payload e <> EmptyString ->
               json_loads (e_payload e) = Some (latest_extras resp))
           /\ (e_payload e = EmptyString -> latest_extras resp = JObj ∅))
  /\ latest_disks resp = view_disk_latest <$> select_last_disks db hid
  /\ forall d, d ∈ select_last_disks db hid <->
       d ∈ disks db /\ d_host_id d = hid
       /\ forall d', d' ∈ disks db -> d_host_id d' = hid -> d_ts d' <= d_ts d.
Proof.
  intros Hin Hh Hdec. unfold api_latest.
  assert (Hs : exists s, select_last_sample db hid = Some s).
  { unfold select_last_sample. apply (order_by_desc_limit_1_some _ _ s0).
    apply list_elem_of_filter. split; assumption. }
  destruct Hs as [s Hs]. rewrite Hs.
  destruct (select_last_extras db hid) as [e |] eqn:He.
  - change (e_payload <$> Some e) with (Some (e_payload e)).
    destruct (Hdec e eq_refl) as [j Hj].
    assert (Hd : exists j', decode_extras (Some (e_payload e)) = Ok j'
                 /\ (e_payload e <> EmptyString -> json_loads (e_payload e) = Some j')
                 /\ (e_payload e = EmptyString -> j' = JObj ∅)).
    { unfold decode_extras, py_json_loads. rewrite Hj.
      destruct (str_truthy (e_payload e)) eqn:Ht.
      - exists j. split; [reflexivity |]. split; [reflexivity |].
        intros Hem. apply str_truthy_spec in Ht. contradiction.
      - exists (JObj ∅). split; [reflexivity |]. split; [| reflexivity].
        intros Hne. apply str_truthy_spec in Hne. congruence. }
    destruct Hd as (j' & Hd & Hne & Hem). rewrite Hd. simpl.
    eexists. split; [reflexivity |]. simpl.
    split; [exists s; split; [reflexivity | apply select_last_sample_max, Hs] |].
    split; [| split; [reflexivity | apply select_last_disks_elem]].
    right. exists e. apply select_last_extras_max in He as (He1 & He2 & He3). auto 10.
  - simpl. eexists. split; [reflexivity |]. simpl.
    split; [exists s; split; [reflexivity | apply select_last_sample_max, Hs] |].
    split; [| split; [reflexivity | apply select_last_disks_elem]].
    left. split; [reflexivity | apply select_last_extras_none, He].
Qed.



Lemma filter_none {A : Type} (P : A -> Prop) `{forall x, Decision (P x)} (l : list A) :
  (forall x, x ∈ l -> ¬ P x) -> filter P l = [].
Proof.
  intros Hall. induction l as [| x l IH]; [reflexivity |].
  rewrite filter_cons_False by (apply Hall; left).
  apply IH. intros y Hy. apply Hall. right. exact Hy.
Qed.


End Queries.

(** ** The commit of a poll *)

Section Commit.
Context {F : PyFloat} {L : PyLib}.

Lemma filter_key_unique {A : Type} (f : A -> string) (l : list A) (n : string) :
  NoDup (f <$> l) -> n ∈ f <$> l ->
  exists x, x ∈ l /\ f x = n /\ filter (fun r => f r = n) l = [x].
Proof.
  induction l as [| a l IH]; intros Hnd Hin.
  - apply elem_of_nil in Hin. contradiction.
  - rewrite fmap_cons in Hnd, Hin. apply NoDup_cons in Hnd as [Ha Hnd].
    destruct (decide (f a = n)) as [E | E].
    + exists a. split; [left |]. split; [exact E |].
      rewrite filter_cons_True by exact E. f_equal.
      apply filter_none. intros x Hx Hfx. apply Ha. rewrite E, <- Hfx.
      apply list_elem_of_fmap. eauto.
    + apply elem_of_cons in Hin as [Hin | Hin]; [congruence |].
      destruct (IH Hnd Hin) as (x & Hx & Hfx & Hf).
      exists x. split; [right; exact Hx |]. split; [exact Hfx |].
      rewrite filter_cons_False by exact E. exact Hf.
Qed.

Lemma select_host_id_registered (db : store) (n : string) :
  NoDup (host_names db) -> n ∈ host_names db ->
  exists r, r ∈ hosts db /\ h_name r = n /\ select_host_id n db = Ok (h_id r).
Proof.
  intros Hnd Hin. destruct (filter_key_unique h_name (hosts db) n Hnd Hin)
    as (r & Hr & Hn & Hf).
  exists r. split; [exact Hr |]. split; [exact Hn |].
  unfold select_host_id. rewrite Hf. reflexivity.
Qed.

Lemma bind_Ok {A B : Type} (r : result A) (f : A -> result B) (b : B) :
  r ≫= f = Ok b -> exists a, r = Ok a /\ f a = Ok b.
Proof. destruct r as [a | e]; simpl; [eauto | discriminate]. Qed.

Lemma bind_int_spec (z : Z) :
  (int64 z /\ bind_int z = Ok ()) \/ (¬ int64 z /\ bind_int z = Raise OverflowError).
Proof.
  unfold bind_int, int64.
  destruct (Z.leb_spec (- 2 ^ 63) z), (Z.ltb_spec z (2 ^ 63)); simpl;
    [left | right | right | right]; (split; [lia | reflexivity]).
Qed.

Lemma bind_opt_int_spec (o : option Z) :
  (opt_int64 o /\ bind_opt_int o = Ok ())
  \/ (¬ opt_int64 o /\ bind_opt_int o = Raise OverflowError).
Proof. destruct o as [z |]; simpl; [apply bind_int_spec | left; auto]. Qed.

(** The statements of the commit: the row is added when every integer it
    binds fits; otherwise the driver raises [OverflowError]. *)
Lemma execute_insert_sample_spec (r : sample_row) (db : store) :
  (int64 (s_ts r) /\ opt_int64 (s_mem_total r) /\ opt_int64 (s_mem_avail r)
   /\ opt_int64 (s_uptime r)
   /\ execute_insert_sample r db = Ok (insert_sample r db))
  \/ (¬ (int64 (s_ts r) /\ opt_int64 (s_mem_total r) /\ opt_int64 (s_mem_avail r)
         /\ opt_int64 (s_uptime r))
      /\ execute_insert_sample r db = Raise OverflowError).
Proof.
  unfold execute_insert_sample.
  destruct (bind_int_spec (s_ts r)) as [[H1 ->] | [H1 ->]]; simpl;
    [| right; split; [intros (H & _); contradiction | reflexivity]].
  destruct (bind_opt_int_spec (s_mem_total r)) as [[H2 ->] | [H2 ->]]; simpl;
    [| right; split; [intros (_ & H & _); contradiction | reflexivity]].
  destruct (bind_opt_int_spec (s_mem_avail r)) as [[H3 ->] | [H3 ->]]; simpl;
    [| right; split; [intros (_ & _ & H & _); contradiction | reflexivity]].
  destruct (bind_opt_int_spec (s_uptime r)) as [[H4 ->] | [H4 ->]]; simpl;
    [| right; split; [intros (_ & _ & _ & H); contradiction | reflexivity]].
  left. auto.
Qed.

Lemma execute_insert_disk_spec (r : disk_row) (db : store) :
  (int64 (d_ts r) /\ int64 (d_size_bytes r) /\ int64 (d_free_bytes r)
   /\ execute_insert_disk r db = Ok (insert_disk r db))
  \/ (¬ (int64 (d_ts r) /\ int64 (d_size_bytes r) /\ int64 (d_free_bytes r))
      /\ execute_insert_disk r db = Raise OverflowError).
Proof.
  unfold execute_insert_disk.
  destruct (bind_int_spec (d_ts r)) as [[H1 ->] | [H1 ->]]; simpl;
    [| right; split; [intros (H & _); contradiction | reflexivity]].
  destruct (bind_int_spec (d_size_bytes r)) as [[H2 ->] | [H2 ->]]; simpl;
    [| right; split; [intros (_ & H & _); contradiction | reflexivity]].
  destruct (bind_int_spec (d_free_bytes r)) as [[H3 ->] | [H3 ->]]; simpl;
    [| right; split; [intros (_ & _ & H); contradiction | reflexivity]].
  left. auto.
Qed.

Lemma execute_insert_extras_spec (r : extras_row) (db : store) :
  (int64 (e_ts r) /\ execute_insert_extras r db = Ok (insert_extras r db))
  \/ (¬ int64 (e_ts r) /\ execute_insert_extras r db = Raise OverflowError).
Proof.
  unfold execute_insert_extras.
  destruct (bind_int_spec (e_ts r)) as [[H1 ->] | [H1 ->]]; simpl; auto.
Qed.

(** One entry of the loop over [disks]: the conversions, then the
    statement. *)
Lemma commit_disk_Ok (hid ts : Z) (d : json) (db db' : store) :
  commit_disk hid ts d db = Ok db' ->
  exists m upct sz free,
    d = JObj m
    /\ py_float (default (JInt 0) (m !! "used_percent")) = Ok upct
    /\ py_int (default (JInt 0) (m !! "size_bytes")) = Ok sz
    /\ py_int (default (JInt 0) (m !! "free_bytes")) = Ok free
    /\ int64 ts /\ int64 sz /\ int64 free
    /\ db' = insert_disk
               {| d_host_id := hid; d_ts := ts;
                  d_device := py_str (default JNull (m !! "device"));
                  d_used_percent := upct; d_size_bytes := sz; d_free_bytes := free;
                  d_mount := py_str (default (JStr "") (m !! "mount")) |} db.
Proof.
  unfold commit_disk. intros H.
  apply bind_Ok in H as (dev & Hdev & H).
  destruct d as [| b | z | f | s | a | m]; try discriminate. simpl in Hdev.
  injection Hdev as <-.
  apply bind_Ok in H as (upct & Hu & H). apply bind_Ok in H as (sz & Hs & H).
  apply bind_Ok in H as (free & Hf & H). apply bind_Ok in H as (mnt & Hm & H).
  simpl in Hu, Hs, Hf, Hm. injection Hm as <-.
  destruct (execute_insert_disk_spec
              {| d_host_id := hid; d_ts := ts;
                 d_device := py_str (default JNull (m !! "device"));
                 d_used_percent := upct; d_size_bytes := sz; d_free_bytes := free;
                 d_mount := py_str (default (JStr "") (m !! "mount")) |} db)
    as [(H1 & H2 & H3 & He) | [_ He]]; rewrite He in H; [| discriminate].
  injection H as <-. exists m, upct, sz, free. simpl in *. auto 10.
Qed.

Lemma commit_disk_tables (hid ts : Z) (d : json) (db db' : store) :
  commit_disk hid ts d db = Ok db' ->
  hosts db' = hosts db /\ samples db' = samples db /\ extras db' = extras db
  /\ exists r, disks db' = disks db ++ [r] /\ d_host_id r = hid /\ d_ts r = ts.
Proof.
  intros H. apply commit_disk_Ok in H as (m & upct & sz & free & _ & _ & _ & _ & _ & _ & _ & ->).
  simpl. repeat split. eexists. split; [reflexivity |]. split; reflexivity.
Qed.


Lemma commit_disks_tables (hid ts : Z) (ds : list json) (db db' : store) :
  commit_disks hid ts ds db = Ok db' ->
  hosts db' = hosts db /\ samples db' = samples db /\ extras db' = extras db
  /\ exists rs, disks db' = disks db ++ rs
       /\ Forall (fun r => d_host_id r = hid /\ d_ts r = ts) rs
       /\ length rs = length ds.
Proof.
  revert db. induction ds as [| d ds IH]; intros db H; simpl in H.
  - injection H as <-. repeat split. exists []. rewrite app_nil_r. auto.
  - apply bind_Ok in H as (db1 & H1 & H).
    apply commit_disk_tables in H1 as (Hh & Hs & He & r & Hd & Hr).
    apply IH in H as (Hh' & Hs' & He' & rs & Hd' & Hrs & Hlen).
    repeat split; try congruence.
    exists (r :: rs). rewrite Hd', Hd, <- app_assoc. simpl.
    split; [reflexivity |]. split; [constructor; assumption | congruence].
Qed.



(** The three steps of the transaction after the id was read. *)
Lemma commit_body_steps (host : Host) (ts : Z) (latency : option pyfloat)
    (l : locals) (db db' : store) :
  commit_body host ts latency l db = Ok db' ->
  exists hid db2,
    select_host_id (name host) db = Ok hid
    /\ int64 ts /\ opt_int64 (mem_total l) /\ opt_int64 (mem_avail l)
    /\ opt_int64 (uptime l)
    /\ (if truthy (disks_v l)
        then ds ← py_iter (disks_v l);
             commit_disks hid ts ds (insert_sample (sample_of hid ts latency l) db)
        else Ok (insert_sample (sample_of hid ts latency l) db)) = Ok db2
    /\ extras db' = extras db2 ++ extras_of hid ts l
    /\ hosts db' = hosts db2 /\ samples db' = samples db2 /\ disks db' = disks db2.
Proof.
  unfold commit_body. intros H. apply bind_Ok in H as (hid & Hhid & H).
  apply bind_Ok in H as (db1 & H1 & H).
  destruct (execute_insert_sample_spec (sample_of hid ts latency l) db)
    as [(Hts & Hmt & Hma & Hup & He) | [_ He]];
    unfold sample_of in He; rewrite He in H1; [| discriminate].
  injection H1 as <-. apply bind_Ok in H as (db2 & H2 & H).
  exists hid, db2. split; [exact Hhid |]. simpl in Hts, Hmt, Hma, Hup.
  split; [exact Hts |]. split; [exact Hmt |]. split; [exact Hma |].
  split; [exact Hup |]. split; [exact H2 |].
  unfold extras_of. destruct (extras_payload l) as [p |]; [destruct (str_truthy p) |].
  - destruct (execute_insert_extras_spec
                {| e_host_id := hid; e_ts := ts; e_payload := p |} db2)
      as [[_ He'] | [_ He']]; rewrite He' in H; [| discriminate].
    injection H as <-. simpl. auto.
  - injection H as <-. rewrite app_nil_r. auto.
  - injection H as <-. rewrite app_nil_r. auto.
Qed.

Lemma commit_body_tables (host : Host) (ts : Z) (latency : option pyfloat)
    (l : locals) (db db' : store) :
  commit_body host ts latency l db = Ok db' ->
  exists hid, select_host_id (name host) db = Ok hid
    /\ hosts db' = hosts db
    /\ samples db' = samples db ++ [sample_of hid ts latency l]
    /\ extras db' = extras db ++ extras_of hid ts l
    /\ exists rs, disks db' = disks db ++ rs
         /\ Forall (fun r => d_host_id r = hid /\ d_ts r = ts) rs.
Proof.
  intros H. apply commit_body_steps in H
    as (hid & db2 & Hhid & _ & _ & _ & _ & H2 & He & Hh & Hs & Hd).
  exists hid. split; [exact Hhid |]. rewrite He, Hh, Hs, Hd.
  destruct (truthy (disks_v l)).
  - apply bind_Ok in H2 as (ds & _ & H2).
    apply commit_disks_tables in H2 as (Hh2 & Hs2 & He2 & rs & Hd2 & Hrs & _).
    simpl in *. rewrite Hh2, Hs2, He2. repeat split. exists rs. auto.
  - injection H2 as <-. simpl. repeat split. exists []. rewrite app_nil_r. auto.
Qed.


(** The commit of a poll that assigned nothing. *)
Lemma commit_initial (db : store) (h : Host) (ts : Z) (latency : option pyfloat)
    (log : option exn) (hid : Z) :
  select_host_id (name h) db = Ok hid -> int64 ts ->
  commit h ts latency initial_locals log db
  = {| db_after := insert_sample
         {| s_host_id := hid; s_ts := ts; s_cpu := None; s_mem_total := None;
            s_mem_avail := None; s_uptime := None; s_latency_ms := latency;
            s_net_rx_kbps := None; s_net_tx_kbps := None |} db;
       logged := log; raised := None |}.
Proof.
  intros Hsel Hts. unfold commit, commit_body. rewrite Hsel. simpl.
  unfold execute_insert_sample. simpl.
  destruct (bind_int_spec ts) as [[_ ->] | [Hn _]]; [reflexivity | contradiction].
Qed.

Lemma commit_hosts (host : Host) (ts : Z) (latency : option pyfloat)
    (l : locals) (log : option exn) (db : store) :
  hosts (db_after (commit host ts latency l log db)) = hosts db.
Proof.
  unfold commit. destruct (commit_body host ts latency l db) as [db' |] eqn:E;
    simpl; [| reflexivity].
  apply commit_body_tables in E as (hid & _ & Hh & _). exact Hh.
Qed.

End Commit.

(** ** One poll of one host *)

Section Polling.
Context {F : PyFloat} {L : PyLib}.
Variable LINUX_SHELL : string.

Lemma poll_once_hosts (db : store) (h : Host) (w : poll_env) :
  hosts (db_after (poll_once LINUX_SHELL db h w)) = hosts db.
Proof.
  unfold poll_once. destruct (try_block LINUX_SHELL h w) as [[l log] |]; [| reflexivity].
  apply commit_hosts.
Qed.

(** Every reachable database keeps [hosts.name] unique and holds a row
    for each host of the poller. *)
Lemma reachable_registered (config_hosts : list host_entry) (db : store) :
  reachable LINUX_SHELL config_hosts db ->
  NoDup (host_names db)
  /\ forall h, h ∈ host_of_entry <$> config_hosts -> name h ∈ host_names db.
Proof.
  induction 1 as [db0 Hnd | db h w _ [IHnd IHreg] _].
  - split.
    + apply register_hosts_unique, Hnd.
    + intros h Hh. apply register_hosts_registers, Hh.
  - unfold host_names in *. rewrite poll_once_hosts. split; assumption.
Qed.





(** The linux branch when the SSH run fails: nothing is assigned. *)
Lemma try_block_ssh_fails (h : Host) (cfg : SSHConfig) (w : poll_env) (e : exn) :
  os h = "linux" -> ssh h = Some cfg ->
  (SSHClient_run (ip h) cfg LINUX_SHELL (ssh_world w)).1 = Raise e ->
  try_block LINUX_SHELL h w = Some (initial_locals, Some e).
Proof.
  intros Hos Hssh Hrun. unfold try_block.
  rewrite Hos, Hssh. simpl. unfold collect_linux, then_, call.
  rewrite Hrun. reflexivity.
Qed.

(** C2. When the SSH run of a linux host fails (both attempts), the
    poll prints the error, raises nothing and appends one sample row to
    [samples]: its [ts] is the poll's timestamp (a clock reading, which
    fits a 64-bit column), its metric fields are all null, and its
    [latency_ms] is what the TCP probe of port 22 measured (null when the
    probe failed); [hosts], [disks] and [extras] stay as they were. *)
Theorem poll_once_failed_collection (config_hosts : list host_entry) (db : store)
    (h : Host) (cfg : SSHConfig) (w : poll_env) (e : exn) :
  reachable LINUX_SHELL config_hosts db ->
  h ∈ host_of_entry <$> config_hosts ->
  os h = "linux" -> ssh h = Some cfg ->
  (SSHClient_run (ip h) cfg LINUX_SHELL (ssh_world w)).1 = Raise e ->
  int64 (now w) ->
  exists row,
    row ∈ hosts db /\ h_name row = name h
    /\ raised (poll_once LINUX_SHELL db h w) = None
    /\ logged (poll_once LINUX_SHELL db h w) = Some e
    /\ samples (db_after (poll_once LINUX_SHELL db h w))
       = samples db
         ++ [{| s_host_id := h_id row; s_ts := now w; s_cpu := None;
                s_mem_total := None; s_mem_avail := None; s_uptime := None;
                s_latency_ms := probe w (ip h) 22;
                s_net_rx_kbps := None; s_net_tx_kbps := None |}]
    /\ hosts (db_after (poll_once LINUX_SHELL db h w)) = hosts db
    /\ disks (db_after (poll_once LINUX_SHELL db h w)) = disks db
    /\ extras (db_after (poll_once LINUX_SHELL db h w)) = extras db.
Proof.
  intros Hreach Hh Hos Hssh Hrun Hts.
  apply reachable_registered in Hreach as [Hnd Hreg].
  destruct (select_host_id_registered db (name h) Hnd (Hreg h Hh))
    as (row & Hrow & Hn & Hsel).
  exists row. split; [exact Hrow |]. split; [exact Hn |].
  unfold poll_once.
  rewrite (try_block_ssh_fails h cfg w e Hos Hssh Hrun).
  rewrite (commit_initial db h (now w) _ (Some e) (h_id row) Hsel Hts).
  rewrite Hos. simpl. auto 10.
Qed.



End Polling.

(** ** Parsing the payload *)

Section Parsing.
Context {F : PyFloat} {L : PyLib}.

Ltac run_block :=
  unfold parse_payload, then_, call, assign, py_json_loads, py_get; simpl.

(** What a successful parse leaves in [extras_payload]. *)
Lemma parse_payload_extras (raw : string) (l0 l : locals) (u : unit) :
  parse_payload raw l0 = (l, Ok u) ->
  exists m ex, json_loads raw = Some (JObj m)
    /\ default (JObj ∅) (m !! "extras") = JObj ex
    /\ extras_payload l = Some (json_dumps (JObj ex)).
Proof.
  run_block. destruct (json_loads raw) as [data |]; simpl; [| discriminate].
  destruct data as [| b | z | f | s | a | m]; simpl; try discriminate.
  destruct (py_float _) as [c |]; simpl; [| discriminate].
  destruct (py_int (default (JInt 0) (m !! "mem_total_bytes"))); simpl; [| discriminate].
  destruct (py_int (default (JInt 0) (m !! "mem_available_bytes"))); simpl; [| discriminate].
  destruct (py_int (default (JInt 0) (m !! "uptime_seconds"))); simpl; [| discriminate].
  destruct (default (JObj ∅) (m !! "extras")) as [| b | z | f | s | a' | ex] eqn:Hex;
    simpl; try discriminate.
  destruct (net_rate _ "total_rx_kbps"); simpl; [| discriminate].
  destruct (net_rate _ "total_tx_kbps"); simpl; [| discriminate].
  intros [= <-]. exists m, ex. simpl. auto.
Qed.

End Parsing.

(** ** The reference library reads back what it prints *)

Lemma string_app_nil_l (b : string) : "" +:+ b = b.
Proof. reflexivity. Qed.

Lemma string_app_cons (x : ascii) (a b : string) : String x a +:+ b = String x (a +:+ b).
Proof. reflexivity. Qed.

Lemma string_app_assoc (a b c : string) : (a +:+ b) +:+ c = a +:+ (b +:+ c).
Proof.
  induction a as [| x a IH]; [reflexivity |].
  rewrite !string_app_cons, IH. reflexivity.
Qed.

Lemma string_length_app (a b : string) :
  String.length (a +:+ b) = (String.length a + String.length b)%nat.
Proof.
  induction a as [| x a IH]; [reflexivity |].
  rewrite string_app_cons. simpl. rewrite IH. reflexivity.
Qed.

Lemma substring_all (s : string) : substring 0 (String.length s) s = s.
Proof. induction s as [| c s IH]; simpl; [reflexivity | rewrite IH; reflexivity]. Qed.

(** *** Digits *)

Lemma digit_of_pretty_N_char (d : N) :
  (d < 10)%N -> digit_of (pretty_N_char d) = Some (Z.of_N d).
Proof.
  intros H.
  assert (d = 0 \/ d = 1 \/ d = 2 \/ d = 3 \/ d = 4 \/ d = 5 \/ d = 6 \/ d = 7
          \/ d = 8 \/ d = 9)%N as Hd by lia.
  repeat (destruct Hd as [-> | Hd]; [reflexivity |]). subst d. reflexivity.
Qed.

Lemma pretty_N_go_app (x : N) (s t : string) :
  pretty_N_go x s +:+ t = pretty_N_go x (s +:+ t).
Proof.
  revert s. induction (N.lt_wf_0 x) as [x _ IH]; intros s.
  destruct (N.eq_dec x 0%N) as [-> | Hx]; [reflexivity |].
  rewrite (pretty_N_go_step x s), (pretty_N_go_step x (s +:+ t)) by lia.
  rewrite IH by (apply N.div_lt; lia). reflexivity.
Qed.

(** Reading the digits of [x]: the number, and at least one digit when
    [x] is positive. *)
Lemma read_digits_pretty_N_go (x : N) (s : string) (cnt : nat) :
  exists k, read_digits 0 cnt (pretty_N_go x s) = read_digits (Z.of_N x) (cnt + k) s
            /\ ((0 < x)%N -> (0 < k)%nat).
Proof.
  revert s cnt. induction (N.lt_wf_0 x) as [x _ IH]; intros s cnt.
  destruct (N.eq_dec x 0%N) as [-> | Hx].
  - exists O. rewrite Nat.add_0_r. split; [reflexivity | lia].
  - rewrite pretty_N_go_step by lia.
    destruct (IH (x `div` 10)%N ltac:(apply N.div_lt; lia)
                (String (pretty_N_char (x `mod` 10)) s) cnt) as (k & Hk & _).
    exists (S k). rewrite Hk. simpl.
    rewrite digit_of_pretty_N_char by (apply N.mod_lt; lia).
    split; [| lia]. f_equal; [| lia].
    rewrite (N.div_mod x 10) at 3 by lia. lia.
Qed.

Lemma stops_no_digit (rest : string) : stops rest -> no_digit rest.
Proof.
  destruct rest as [| c r]; [trivial |]. simpl.
  intros [-> | [-> | ->]]; reflexivity.
Qed.

Lemma read_digits_no_digit (v : Z) (n : nat) (rest : string) :
  no_digit rest -> read_digits v n rest = (v, n, rest).
Proof. destruct rest as [| c r]; simpl; [reflexivity | intros ->; reflexivity]. Qed.

Lemma read_digits_pretty_N (n : N) (rest : string) :
  no_digit rest ->
  exists k, (0 < k)%nat /\ read_digits 0 0 (pretty n +:+ rest) = (Z.of_N n, k, rest).
Proof.
  intros Hrest. unfold pretty, pretty_N. destruct (decide (n = 0%N)) as [-> | Hn].
  - exists 1%nat. split; [lia |]. rewrite string_app_cons, string_app_nil_l. simpl.
    apply read_digits_no_digit, Hrest.
  - rewrite pretty_N_go_app, string_app_nil_l.
    destruct (read_digits_pretty_N_go n rest 0) as (k & Hk & Hpos).
    exists k. split; [apply Hpos; lia |]. rewrite Hk. simpl.
    apply read_digits_no_digit, Hrest.
Qed.

(** The text of a natural number starts with a digit. *)
Lemma pretty_N_head (n : N) (rest : string) :
  no_digit rest ->
  exists c r d, pretty n +:+ rest = String c r /\ digit_of c = Some d.
Proof.
  intros Hrest. destruct (read_digits_pretty_N n rest Hrest) as (k & Hk & Hr).
  destruct (pretty n +:+ rest) as [| c r] eqn:E.
  - simpl in Hr. injection Hr as _ <- _. lia.
  - simpl in Hr. destruct (digit_of c) as [d |] eqn:Hd; [eauto |].
    injection Hr as _ <- _. lia.
Qed.

Lemma pretty_Z_sign (z : Z) :
  (0 <= z /\ pretty z = pretty (Z.to_N z))
  \/ (z < 0 /\ pretty z = "-" +:+ pretty (Z.to_N (- z))).
Proof.
  destruct z as [| p | p]; [left | left | right]; (split; [lia | reflexivity]).
Qed.

Lemma read_sign_other (c : ascii) (r : string) :
  c <> "-"%char -> read_sign (String c r) = (false, String c r).
Proof.
  intros Hc. destruct c as [[] [] [] [] [] [] [] []]; try reflexivity.
  destruct Hc. reflexivity.
Qed.

Lemma read_exp_sign_other (c : ascii) (r : string) :
  c <> "-"%char -> c <> "+"%char -> read_exp_sign (String c r) = (false, String c r).
Proof.
  intros Hc Hp. destruct c as [[] [] [] [] [] [] [] []]; try reflexivity.
  - destruct Hp. reflexivity.
  - destruct Hc. reflexivity.
Qed.

Lemma digit_not_sign (c : ascii) (d : Z) :
  digit_of c = Some d -> c <> "-"%char /\ c <> "+"%char.
Proof. intros H. split; intros ->; discriminate. Qed.

(** The sign and the digits of a printed integer. *)
Lemma read_signed (z : Z) (rest : string) :
  no_digit rest ->
  exists neg s1 a k,
    read_sign (pretty z +:+ rest) = (neg, s1)
    /\ read_exp_sign (pretty z +:+ rest) = (neg, s1)
    /\ read_digits 0 0 s1 = (a, k, rest) /\ (0 < k)%nat /\ signed neg a = z.
Proof.
  intros Hrest. destruct (pretty_Z_sign z) as [[Hz ->] | [Hz ->]].
  - destruct (pretty_N_head (Z.to_N z) rest Hrest) as (c & r & d & E & Hd).
    destruct (read_digits_pretty_N (Z.to_N z) rest Hrest) as (k & Hk & Hr).
    destruct (digit_not_sign c d Hd) as [Hm Hp].
    exists false, (pretty (Z.to_N z) +:+ rest), (Z.of_N (Z.to_N z)), k.
    rewrite E, read_sign_other, read_exp_sign_other by assumption.
    rewrite <- E. repeat split; try assumption. simpl. lia.
  - destruct (read_digits_pretty_N (Z.to_N (- z)) rest Hrest) as (k & Hk & Hr).
    exists true, (pretty (Z.to_N (- z)) +:+ rest), (Z.of_N (Z.to_N (- z))), k.
    rewrite string_app_assoc. repeat split; try assumption. simpl. lia.
Qed.

(** *** Numbers *)

Lemma read_number_int (z : Z) (rest : string) :
  stops rest -> read_number (pretty z +:+ rest) = Some (inl z, rest).
Proof.
  intros Hrest.
  destruct (read_signed z rest (stops_no_digit rest Hrest))
    as (neg & s1 & a & k & Hs & _ & Hd & Hk & Hz).
  unfold read_number. rewrite Hs, Hd.
  destruct k as [| k]; [lia |]. simpl.
  destruct rest as [| c r]; simpl; [rewrite Hz; reflexivity |].
  destruct Hrest as [-> | [-> | ->]]; simpl; rewrite Hz; reflexivity.
Qed.

Lemma read_number_float (m e : Z) (rest : string) :
  stops rest ->
  read_number (pretty m +:+ "e" +:+ pretty e +:+ rest) = Some (inr (m, e), rest).
Proof.
  intros Hrest.
  destruct (read_signed m ("e" +:+ pretty e +:+ rest) ltac:(reflexivity))
    as (neg & s1 & a & k & Hs & _ & Hd & Hk & Hz).
  destruct (read_signed e rest (stops_no_digit rest Hrest))
    as (eneg & s4 & ea & ek & _ & Hes & Hed & Hek & Hez).
  unfold read_number. rewrite Hs, Hd.
  destruct k as [| k]; [lia |]. simpl. rewrite string_app_nil_l.
  rewrite Hes, Hed. destruct ek as [| ek]; [lia |]. simpl.
  rewrite Hz, Hez, Z.sub_0_r. reflexivity.
Qed.

(** *** Strings *)

Lemma read_string_escape (s rest : string) :
  read_string (escape s +:+ String dquote rest) = Some (s, rest).
Proof.
  induction s as [| c s IH].
  - reflexivity.
  - cbn [escape]. destruct (Ascii.eqb_spec c dquote) as [-> | Hq].
    + cbn [orb]. rewrite !string_app_cons. cbn [read_string].
      change (Ascii.eqb backslash dquote) with false.
      change (Ascii.eqb backslash backslash) with true.
      change (Ascii.eqb dquote dquote) with true. cbv iota. rewrite IH. reflexivity.
    + destruct (Ascii.eqb_spec c backslash) as [-> | Hb].
      * cbn [orb]. rewrite !string_app_cons. cbn [read_string].
        change (Ascii.eqb backslash dquote) with false.
        change (Ascii.eqb backslash backslash) with true. cbv iota.
        rewrite IH. reflexivity.
      * cbn [orb]. rewrite string_app_cons. cbn [read_string].
        rewrite (proj2 (Ascii.eqb_neq c dquote) Hq).
        rewrite (proj2 (Ascii.eqb_neq c backslash) Hb). rewrite IH. reflexivity.
Qed.

Lemma quoted_app (s rest : string) :
  quoted s +:+ rest = String dquote (escape s +:+ String dquote rest).
Proof.
  unfold quoted. rewrite string_app_cons, string_app_assoc, string_app_cons,
    string_app_nil_l. reflexivity.
Qed.

Lemma expect_app (p r : string) : expect p (p +:+ r) = Some r.
Proof.
  unfold expect.
  assert (Hp : String.prefix p (p +:+ r) = true).
  { induction p as [| c p IH]; [destruct r; reflexivity |].
    rewrite string_app_cons. simpl. destruct (ascii_dec c c); [exact IH | congruence]. }
  rewrite Hp. f_equal. rewrite string_length_app.
  replace (String.length p + String.length r - String.length p)%nat
    with (String.length r) by lia.
  induction p as [| c p IH]; [apply substring_all |].
  rewrite string_app_cons. simpl. apply IH.
  clear -Hp. rewrite string_app_cons in Hp. simpl in Hp.
  destruct (ascii_dec c c); [exact Hp | congruence].
Qed.

(** *** Joined texts *)

Lemma join_fold (sep a b : string) (l : list string) :
  foldl (fun acc y => acc +:+ sep +:+ y) (a +:+ b) l
  = a +:+ foldl (fun acc y => acc +:+ sep +:+ y) b l.
Proof.
  revert b. induction l as [| y l IH]; intros b; [reflexivity |].
  simpl. rewrite string_app_assoc. apply IH.
Qed.

Lemma join_cons (sep x y : string) (l : list string) :
  join sep (x :: y :: l) = x +:+ sep +:+ join sep (y :: l).
Proof.
  unfold join. simpl. rewrite join_fold. f_equal. apply join_fold.
Qed.

Lemma join_length_elem (sep x : string) (l : list string) :
  x ∈ l -> (String.length x <= String.length (join sep l))%nat.
Proof.
  induction l as [| y l IH]; intros Hin.
  - apply elem_of_nil in Hin. contradiction.
  - destruct l as [| y' l'].
    + apply list_elem_of_singleton in Hin. subst. simpl. lia.
    + rewrite join_cons, !string_length_app.
      apply elem_of_cons in Hin as [-> | Hin]; [lia |].
      specialize (IH Hin). lia.
Qed.

(** *** White space and the first character of a value *)

Lemma read_value_space (fuel : nat) (t : string) :
  read_value fuel (String " " t) = read_value fuel t.
Proof. destruct fuel; reflexivity. Qed.

Lemma read_elements_space (fuel : nat) (t : string) :
  read_elements fuel (String " " t) = read_elements fuel t.
Proof. destruct fuel as [| n]; [reflexivity |]. simpl. rewrite read_value_space. reflexivity. Qed.

Lemma read_members_space (fuel : nat) (t : string) (acc : gmap string json) :
  read_members fuel (String " " t) acc = read_members fuel t acc.
Proof. destruct fuel; reflexivity. Qed.

(** A number starts with a digit or a minus sign, and [read_value] hands
    such a text to [read_number]. *)
Lemma read_value_number (fuel : nat) (c : ascii) (t : string)
    (v : Z + Z * Z) (r : string) :
  (c = "-"%char \/ exists d, digit_of c = Some d) ->
  read_number (String c t) = Some (v, r) ->
  read_value (S fuel) (String c t)
  = Some (match v with inl z => JInt z | inr f => JFloat f end, r).
Proof.
  intros Hc Hn.
  assert (Hsk : skip_ws (String c t) = String c t
                /\ Ascii.eqb c "n" = false /\ Ascii.eqb c "t" = false
                /\ Ascii.eqb c "f" = false /\ Ascii.eqb c dquote = false
                /\ Ascii.eqb c "[" = false /\ Ascii.eqb c "{" = false).
  { destruct Hc as [-> | [d Hd]]; [repeat split |].
    destruct c as [[] [] [] [] [] [] [] []]; try discriminate Hd; repeat split. }
  destruct Hsk as (Hs & H1 & H2 & H3 & H4 & H5 & H6).
  cbn [read_value]. rewrite Hs, H1, H2, H3, H4, H5, H6, Hn. reflexivity.
Qed.

Lemma pretty_Z_head (z : Z) (rest : string) :
  no_digit rest ->
  exists c t, pretty z +:+ rest = String c t
              /\ (c = "-"%char \/ exists d, digit_of c = Some d).
Proof.
  intros Hrest. destruct (pretty_Z_sign z) as [[_ ->] | [_ ->]].
  - destruct (pretty_N_head (Z.to_N z) rest Hrest) as (c & r & d & E & Hd).
    exists c, r. split; [exact E | right; eauto].
  - rewrite string_app_assoc. eexists. eexists. split; [reflexivity | left; reflexivity].
Qed.

(** *** Values *)

Lemma dumps_arr (l : list json) :
  dumps (JArr l) = "[" +:+ join ", " (dumps <$> l) +:+ "]".
Proof. reflexivity. Qed.

Lemma dumps_obj (m : gmap string json) :
  dumps (JObj m)
  = "{" +:+ join ", " ((fun kv => quoted kv.1 +:+ ": " +:+ dumps kv.2) <$> map_to_list m)
    +:+ "}".
Proof.
  change (dumps (JObj m))
    with ("{" +:+ join ", " ((fun kv : string * string => quoted kv.1 +:+ ": " +:+ kv.2)
                               <$> map_to_list (dumps <$> m)) +:+ "}").
  rewrite map_to_list_fmap, <- list_fmap_compose. reflexivity.
Qed.

(** The first character of a printed value is not white space and is
    not a closing bracket. *)
Lemma dumps_head (j : json) (rest : string) :
  stops rest ->
  exists c t, dumps j +:+ rest = String c t
    /\ skip_ws (String c t) = String c t /\ c <> "]"%char.
Proof.
  intros Hrest. destruct j as [| b | z | f | s | l | m].
  - eexists. eexists. split; [reflexivity |]. split; [reflexivity | discriminate].
  - destruct b; eexists; eexists; (split; [reflexivity |]);
      (split; [reflexivity | discriminate]).
  - destruct (pretty_Z_head z rest (stops_no_digit rest Hrest)) as (c & t & E & Hc).
    exists c, t. split; [exact E |].
    destruct Hc as [-> | [d Hd]]; [split; [reflexivity | discriminate] |].
    destruct c as [[] [] [] [] [] [] [] []]; try discriminate Hd;
      (split; [reflexivity | discriminate]).
  - cbn [dumps]. rewrite string_app_assoc.
    destruct (pretty_Z_head f.1 ("e" +:+ pretty f.2 +:+ rest) ltac:(reflexivity))
      as (c & t & E & Hc).
    exists c, t. split; [rewrite <- E, string_app_assoc; reflexivity |].
    destruct Hc as [-> | [d Hd]]; [split; [reflexivity | discriminate] |].
    destruct c as [[] [] [] [] [] [] [] []]; try discriminate Hd;
      (split; [reflexivity | discriminate]).
  - eexists. eexists. split; [reflexivity |]. split; [reflexivity | discriminate].
  - rewrite dumps_arr. eexists. eexists. split; [reflexivity |].
    split; [reflexivity | discriminate].
  - rewrite dumps_obj. eexists. eexists. split; [reflexivity |].
    split; [reflexivity | discriminate].
Qed.

Lemma read_elements_S (n : nat) (s : string) :
  read_elements (S n) s
  = match read_value n s with
    | Some (v, r) =>
      match skip_ws r with
      | String "," r' =>
        match read_elements n r' with
        | Some (l, r'') => Some (v :: l, r'')
        | None => None
        end
      | String "]" r' => Some ([v], r')
      | _ => None
      end
    | None => None
    end.
Proof.
  cbn [read_elements]. destruct (read_value n s) as [[v r] |]; [| reflexivity].
  cbn [mbind option_bind]. destruct (skip_ws r) as [| c r']; [reflexivity |].
  destruct c as [[] [] [] [] [] [] [] []]; try reflexivity.
  all: cbn [mbind option_bind]; destruct (read_elements n r') as [[l r''] |]; reflexivity.
Qed.

Lemma read_members_S (n : nat) (t : string) (acc : gmap string json) :
  read_members (S n) (String dquote t) acc
  = match read_string t with
    | Some (k, r1) =>
      match skip_ws r1 with
      | String ":" r2 =>
        match read_value n r2 with
        | Some (v, r3) =>
          match skip_ws r3 with
          | String "," r4 => read_members n r4 (<[k := v]> acc)
          | String "}" r4 => Some (<[k := v]> acc, r4)
          | _ => None
          end
        | None => None
        end
      | _ => None
      end
    | None => None
    end.
Proof.
  cbn [read_members]. change (skip_ws (String dquote t)) with (String dquote t).
  change (Ascii.eqb dquote dquote) with true. cbv iota.
  destruct (read_string t) as [[k' r1] |]; [| reflexivity].
  cbn [mbind option_bind]. destruct (skip_ws r1) as [| c r2]; [reflexivity |].
  destruct c as [[] [] [] [] [] [] [] []]; reflexivity.
Qed.

Lemma read_elements_dumps (l : list json) :
  Forall (fun v => forall rest fuel, stops rest ->
                   (String.length (dumps v) < fuel)%nat ->
                   read_value fuel (dumps v +:+ rest) = Some (v, rest)) l ->
  l <> [] ->
  forall rest fuel,
    (String.length (join ", " (dumps <$> l)) + 2 <= fuel)%nat ->
    read_elements fuel (join ", " (dumps <$> l) +:+ "]" +:+ rest) = Some (l, rest).
Proof.
  induction 1 as [| v l Hv Hl IH]; [congruence |]. intros _ rest fuel Hfuel.
  destruct fuel as [| fuel]; [lia |]. destruct l as [| v' l'].
  - change (join ", " (dumps <$> [v])) with (dumps v) in *.
    rewrite read_elements_S, Hv by (simpl; auto; lia). reflexivity.
  - rewrite fmap_cons, fmap_cons, join_cons in *. rewrite <- fmap_cons in *.
    rewrite !string_length_app in Hfuel.
    change (String.length ", ") with 2%nat in Hfuel.
    rewrite !string_app_assoc, read_elements_S.
    rewrite Hv by (simpl; auto; lia).
    change (", " +:+ ?t) with (String "," (String " " t)).
    change (skip_ws (String "," ?t)) with (String "," t). cbv iota.
    rewrite read_elements_space.
    rewrite IH by (congruence || lia). reflexivity.
Qed.

Lemma read_members_dumps (kvs : list (string * json)) :
  Forall (fun kv => forall rest fuel, stops rest ->
                    (String.length (dumps kv.2) < fuel)%nat ->
                    read_value fuel (dumps kv.2 +:+ rest) = Some (kv.2, rest)) kvs ->
  kvs <> [] ->
  forall rest fuel acc,
    (String.length (join ", " ((fun kv => quoted kv.1 +:+ ": " +:+ dumps kv.2) <$> kvs))
     + 2 <= fuel)%nat ->
    read_members fuel
      (join ", " ((fun kv => quoted kv.1 +:+ ": " +:+ dumps kv.2) <$> kvs)
       +:+ "}" +:+ rest) acc
    = Some (foldl (fun a kv => <[kv.1 := kv.2]> a) acc kvs, rest).
Proof.
  induction 1 as [| [k v] kvs Hv Hl IH]; [congruence |]. intros _ rest fuel acc Hfuel.
  destruct fuel as [| fuel]; [lia |]. simpl in Hv. destruct kvs as [| kv' kvs'].
  - change (join ", " ((fun kv => quoted kv.1 +:+ ": " +:+ dumps kv.2) <$> [(k, v)]))
      with (quoted k +:+ ": " +:+ dumps v) in *.
    rewrite !string_length_app in Hfuel.
    change (String.length ", ") with 2%nat in Hfuel.
    change (String.length ": ") with 2%nat in Hfuel.
    rewrite !string_app_assoc, quoted_app, read_members_S. rewrite read_string_escape.
    change (": " +:+ ?t) with (String ":" (String " " t)).
    change (skip_ws (String ":" ?t)) with (String ":" t). cbv iota.
    rewrite read_value_space, Hv by (simpl; auto; lia). reflexivity.
  - set (mem := fun kv : string * json => quoted kv.1 +:+ ": " +:+ dumps kv.2) in *.
    rewrite fmap_cons, fmap_cons, join_cons in *. rewrite <- fmap_cons in *.
    change (mem (k, v)) with (quoted k +:+ ": " +:+ dumps v) in *.
    rewrite !string_length_app in Hfuel.
    change (String.length ", ") with 2%nat in Hfuel.
    change (String.length ": ") with 2%nat in Hfuel.
    rewrite !string_app_assoc, quoted_app, read_members_S. rewrite read_string_escape.
    change (": " +:+ ?t) with (String ":" (String " " t)).
    change (skip_ws (String ":" ?t)) with (String ":" t). cbv iota.
    rewrite read_value_space, Hv by (simpl; auto; lia).
    change (", " +:+ ?t) with (String "," (String " " t)).
    change (skip_ws (String "," ?t)) with (String "," t). cbv iota.
    rewrite read_members_space.
    rewrite IH by (congruence || lia). reflexivity.
Qed.

Lemma foldl_insert_list_to_map (kvs : list (string * json)) (acc : gmap string json) :
  NoDup kvs.*1 ->
  foldl (fun a kv => <[kv.1 := kv.2]> a) acc kvs = list_to_map kvs ∪ acc.
Proof.
  revert acc. induction kvs as [| [k v] kvs IH]; intros acc Hnd.
  - simpl. rewrite (left_id_L ∅ (∪)). reflexivity.
  - rewrite fmap_cons in Hnd. apply NoDup_cons in Hnd as [Hk Hnd].
    simpl. rewrite IH by exact Hnd.
    rewrite <- insert_union_l. symmetry. apply insert_union_r.
    apply not_elem_of_list_to_map_1. exact Hk.
Qed.

(** The dispatch of [read_value] on the first character. *)
Ltac first_char :=
  cbn [read_value];
  match goal with
  | |- context [skip_ws (String ?c ?t)] =>
    change (skip_ws (String c t)) with (String c t)
  end;
  cbv beta iota;
  repeat match goal with
         | |- context [Ascii.eqb ?a ?b] =>
           let v := eval vm_compute in (Ascii.eqb a b) in
           change (Ascii.eqb a b) with v; cbv iota
         end.

Lemma read_value_null (n : nat) (rest : string) :
  read_value (S n) ("null" +:+ rest) = Some (JNull, rest).
Proof.
  change ("null" +:+ rest) with (String "n" ("ull" +:+ rest)).
  first_char. rewrite expect_app. reflexivity.
Qed.

Lemma read_value_true (n : nat) (rest : string) :
  read_value (S n) ("true" +:+ rest) = Some (JBool true, rest).
Proof.
  change ("true" +:+ rest) with (String "t" ("rue" +:+ rest)).
  first_char. rewrite expect_app. reflexivity.
Qed.

Lemma read_value_false (n : nat) (rest : string) :
  read_value (S n) ("false" +:+ rest) = Some (JBool false, rest).
Proof.
  change ("false" +:+ rest) with (String "f" ("alse" +:+ rest)).
  first_char. rewrite expect_app. reflexivity.
Qed.

Lemma read_value_string (n : nat) (s rest : string) :
  read_value (S n) (quoted s +:+ rest) = Some (JStr s, rest).
Proof.
  rewrite quoted_app. first_char. rewrite read_string_escape. reflexivity.
Qed.

Lemma read_value_arr (n : nat) (c : ascii) (t : string) :
  skip_ws (String c t) = String c t -> c <> "]"%char ->
  read_value (S n) (String "[" (String c t))
  = match read_elements n (String c t) with
    | Some (l, r') => Some (JArr l, r')
    | None => None
    end.
Proof.
  intros Hs Hc. first_char. rewrite Hs.
  destruct c as [[] [] [] [] [] [] [] []]; try (destruct Hc; reflexivity);
    cbv beta iota;
    match goal with
    | |- context [read_elements n ?x] =>
      destruct (read_elements n x) as [[l r'] |]; reflexivity
    end.
Qed.

Lemma read_value_arr_empty (n : nat) (rest : string) :
  read_value (S n) ("[]" +:+ rest) = Some (JArr [], rest).
Proof.
  change ("[]" +:+ rest) with (String "[" (String "]" rest)).
  first_char. reflexivity.
Qed.

Lemma read_value_obj (n : nat) (t : string) :
  read_value (S n) (String "{" (String dquote t))
  = match read_members n (String dquote t) ∅ with
    | Some (m, r') => Some (JObj m, r')
    | None => None
    end.
Proof.
  first_char. change (skip_ws (String dquote t)) with (String dquote t).
  destruct (read_members n (String dquote t) ∅) as [[m r'] |]; reflexivity.
Qed.

Lemma read_value_obj_empty (n : nat) (rest : string) :
  read_value (S n) ("{}" +:+ rest) = Some (JObj ∅, rest).
Proof.
  change ("{}" +:+ rest) with (String "{" (String "}" rest)).
  first_char. reflexivity.
Qed.

Lemma length_bracketed (a b : ascii) (t : string) :
  String.length (String a "" +:+ t +:+ String b "") = (String.length t + 2)%nat.
Proof.
  rewrite string_app_cons, string_app_nil_l. cbn [String.length].
  rewrite string_length_app. cbn [String.length]. lia.
Qed.

(** [read_value] reads a printed value back, whatever follows it, as
    long as the fuel exceeds the length of its text. *)
Lemma read_value_dumps (j : json) (rest : string) (fuel : nat) :
  stops rest -> (String.length (dumps j) < fuel)%nat ->
  read_value fuel (dumps j +:+ rest) = Some (j, rest).
Proof.
  remember (String.length (dumps j)) as N eqn:HN. revert j HN rest fuel.
  induction (lt_wf N) as [N _ IH]. intros j HN rest fuel Hrest Hfuel.
  destruct fuel as [| fuel]; [lia |].
  destruct j as [| b | z | f | s | l | m].
  - apply read_value_null.
  - destruct b; [apply read_value_true | apply read_value_false].
  - destruct (pretty_Z_head z rest (stops_no_digit rest Hrest)) as (c & t & E & Hc).
    change (dumps (JInt z)) with (pretty z). rewrite E.
    rewrite (read_value_number fuel c t (inl z) rest Hc); [reflexivity |].
    rewrite <- E. apply read_number_int, Hrest.
  - change (dumps (JFloat f)) with (pretty f.1 +:+ "e" +:+ pretty f.2).
    rewrite !string_app_assoc.
    destruct (pretty_Z_head f.1 ("e" +:+ pretty f.2 +:+ rest) ltac:(reflexivity))
      as (c & t & E & Hc).
    rewrite E. rewrite (read_value_number fuel c t (inr f) rest Hc).
    + destruct f; reflexivity.
    + rewrite <- E. destruct f as [m e]. apply read_number_float, Hrest.
  - apply read_value_string.
  - rewrite dumps_arr in *. destruct l as [| v l'].
    + apply read_value_arr_empty.
    + assert (Hall : Forall (fun v => forall rest fuel, stops rest ->
                        (String.length (dumps v) < fuel)%nat ->
                        read_value fuel (dumps v +:+ rest) = Some (v, rest)) (v :: l')).
      { apply Forall_forall. intros x Hx rest' fuel' Hs Hf.
        apply (IH (String.length (dumps x))); [| reflexivity | exact Hs | exact Hf].
        subst N. rewrite length_bracketed.
        assert (String.length (dumps x)
                <= String.length (join ", " (dumps <$> v :: l')))%nat; [| lia].
        apply join_length_elem. apply list_elem_of_fmap. eauto. }
      assert (Hlen : (String.length (join ", " (dumps <$> v :: l')) + 2 <= fuel)%nat).
      { subst N. rewrite length_bracketed in Hfuel. lia. }
      pose proof (read_elements_dumps (v :: l') Hall ltac:(discriminate) rest fuel Hlen)
        as Hre.
      assert (Hhead : exists c t,
                 join ", " (dumps <$> v :: l') +:+ "]" +:+ rest = String c t
                 /\ skip_ws (String c t) = String c t /\ c <> "]"%char).
      { destruct l' as [| v' l''].
        - change (join ", " (dumps <$> [v])) with (dumps v).
          apply dumps_head. simpl. auto.
        - rewrite fmap_cons, fmap_cons, join_cons, !string_app_assoc.
          apply dumps_head. simpl. auto. }
      destruct Hhead as (c & t & E & Hs & Hc).
      rewrite string_app_cons, string_app_nil_l, string_app_cons, string_app_assoc.
      rewrite E in *. rewrite (read_value_arr fuel c t Hs Hc), Hre. reflexivity.
  - rewrite dumps_obj in *. destruct (map_to_list m) as [| [k v] kvs] eqn:Em.
    + apply map_to_list_empty_iff in Em. subst m. apply read_value_obj_empty.
    + assert (Hall : Forall (fun kv : string * json => forall rest fuel, stops rest ->
                        (String.length (dumps kv.2) < fuel)%nat ->
                        read_value fuel (dumps kv.2 +:+ rest) = Some (kv.2, rest))
                       ((k, v) :: kvs)).
      { apply Forall_forall. intros [k' x] Hx rest' fuel' Hs Hf.
        apply (IH (String.length (dumps x))); [| reflexivity | exact Hs | exact Hf].
        subst N. rewrite length_bracketed.
        assert (String.length (quoted k' +:+ ": " +:+ dumps x)
                <= String.length
                     (join ", " ((fun kv : string * json =>
                                    quoted kv.1 +:+ ": " +:+ dumps kv.2)
                                 <$> (k, v) :: kvs)))%nat.
        { apply join_length_elem. apply list_elem_of_fmap. exists (k', x). auto. }
        rewrite !string_length_app in H. lia. }
      assert (Hlen : (String.length
                        (join ", " ((fun kv : string * json =>
                                       quoted kv.1 +:+ ": " +:+ dumps kv.2)
                                    <$> (k, v) :: kvs)) + 2 <= fuel)%nat).
      { subst N. rewrite length_bracketed in Hfuel. lia. }
      pose proof (read_members_dumps ((k, v) :: kvs) Hall ltac:(discriminate)
                    rest fuel ∅ Hlen) as Hre.
      assert (Hhead : exists t,
                 join ", " ((fun kv : string * json =>
                               quoted kv.1 +:+ ": " +:+ dumps kv.2)
                            <$> (k, v) :: kvs) +:+ "}" +:+ rest
                 = String dquote t).
      { destruct kvs as [| kv' kvs'].
        - change (join ", " ((fun kv : string * json =>
                                quoted kv.1 +:+ ": " +:+ dumps kv.2) <$> [(k, v)]))
            with (quoted k +:+ ": " +:+ dumps v).
          rewrite !string_app_assoc, quoted_app. eauto.
        - rewrite fmap_cons, fmap_cons, join_cons. cbn [fst snd].
          rewrite !string_app_assoc, quoted_app. eauto. }
      destruct Hhead as (t & E).
      rewrite string_app_cons, string_app_nil_l, string_app_cons, string_app_assoc.
      rewrite E in *. rewrite read_value_obj, Hre. f_equal. f_equal. f_equal.
      rewrite foldl_insert_list_to_map by (rewrite <- Em; apply NoDup_fst_map_to_list).
      rewrite (right_id_L ∅ (∪)), <- Em. apply list_to_map_to_list.
Qed.

Lemma string_app_nil_r (s : string) : s +:+ "" = s.
Proof.
  induction s as [| c s IH]; [reflexivity |]. rewrite string_app_cons, IH. reflexivity.
Qed.

(** The round trip of the reference library: [loads (dumps j) = j],
    and the printed text is never empty. *)
Lemma loads_dumps (j : json) : loads (dumps j) = Some j.
Proof.
  unfold loads.
  pose proof (read_value_dumps j "" (S (String.length (dumps j))) I ltac:(lia)) as H.
  rewrite string_app_nil_r in H. rewrite H. reflexivity.
Qed.

Lemma dumps_not_empty (j : json) : str_truthy (dumps j) = true.
Proof.
  destruct (dumps_head j "" I) as (c & t & E & _).
  rewrite string_app_nil_r in E. rewrite E. reflexivity.
Qed.

(** ** Extras: from the poll to the latest query *)

Section RoundTrip.
Context {F : PyFloat} {L : PyLib}.
Variable LINUX_SHELL : string.

Lemma select_last_extras_appended (db db' : store) (x : extras_row) :
  extras db' = extras db ++ [x] ->
  (forall e, e ∈ extras db -> e_host_id e = e_host_id x -> e_ts e <= e_ts x) ->
  select_last_extras db' (e_host_id x) = Some x.
Proof.
  intros He Hold. unfold select_last_extras. rewrite He, filter_app.
  rewrite (filter_cons_True _ x []) by reflexivity. rewrite filter_nil.
  apply order_by_desc_limit_1_snoc. intros y Hy.
  apply list_elem_of_filter in Hy as [Hh Hy]. apply Hold; assumption.
Qed.

(** The poll of a linux host whose SSH run printed [raw]. *)
Lemma poll_once_linux (db : store) (h : Host) (cfg : SSHConfig) (w : poll_env)
    (raw : string) :
  os h = "linux" -> ssh h = Some cfg ->
  (SSHClient_run (ip h) cfg LINUX_SHELL (ssh_world w)).1 = Ok raw ->
  poll_once LINUX_SHELL db h w
  = match parse_payload raw initial_locals with
    | (l, Ok _) => commit h (now w) (probe w (ip h) 22) l None db
    | (l, Raise e) => commit h (now w) (probe w (ip h) 22) l (Some e) db
    end.
Proof.
  intros Hos Hssh Hrun. unfold poll_once, try_block.
  rewrite Hos, Hssh. simpl. unfold collect_linux, then_ at 1, call at 1.
  rewrite Hrun. destruct (parse_payload raw initial_locals) as [l [[] | e]];
    reflexivity.
Qed.

(** A poll of a linux host that printed nothing and raised nothing ran
    the whole [try] block and committed. *)
Lemma poll_once_success (db : store) (h : Host) (cfg : SSHConfig) (w : poll_env)
    (raw : string) :
  os h = "linux" -> ssh h = Some cfg ->
  (SSHClient_run (ip h) cfg LINUX_SHELL (ssh_world w)).1 = Ok raw ->
  logged (poll_once LINUX_SHELL db h w) = None ->
  raised (poll_once LINUX_SHELL db h w) = None ->
  exists l, parse_payload raw initial_locals = (l, Ok ())
    /\ commit_body h (now w) (probe w (ip h) 22) l db
       = Ok (db_after (poll_once LINUX_SHELL db h w)).
Proof.
  intros Hos Hssh Hrun. rewrite (poll_once_linux db h cfg w raw Hos Hssh Hrun).
  destruct (parse_payload raw initial_locals) as [l [[] | e]]; unfold commit;
    destruct (commit_body _ _ _ _ _) as [db' | e'] eqn:Hc; simpl;
    try discriminate.
  intros _ _. exists l. auto.
Qed.

(** The path of the extras through the program, for any library: after
    a poll of a linux host whose collection succeeded and was committed,
    with [ex] the [extras] object of the payload (the empty object when
    the payload has none), when the text [json.dumps] gives for [ex] is
    not empty and [json.loads] reads it back as [ex], and every extras
    row the host already had is older than this poll, [api_latest] for
    that host answers with [extras] equal to [ex]. *)
Lemma extras_round_trip_law (config_hosts : list host_entry) (db : store)
    (h : Host) (cfg : SSHConfig) (w : poll_env) (raw : string)
    (m : gmap string json) (ex : json) :
  reachable LINUX_SHELL config_hosts db ->
  h ∈ host_of_entry <$> config_hosts ->
  os h = "linux" -> ssh h = Some cfg ->
  (SSHClient_run (ip h) cfg LINUX_SHELL (ssh_world w)).1 = Ok raw ->
  json_loads raw = Some (JObj m) ->
  ex = default (JObj ∅) (m !! "extras") ->
  logged (poll_once LINUX_SHELL db h w) = None ->
  raised (poll_once LINUX_SHELL db h w) = None ->
  json_loads (json_dumps ex) = Some ex ->
  str_truthy (json_dumps ex) = true ->
  (forall row e, row ∈ hosts db -> h_name row = name h ->
                 e ∈ extras db -> e_host_id e = h_id row -> e_ts e < now w) ->
  exists row resp,
    row ∈ hosts db /\ h_name row = name h
    /\ api_latest (db_after (poll_once LINUX_SHELL db h w)) (h_id row) = Ok resp
    /\ latest_extras resp = ex.
Proof.
  intros Hreach Hh Hos Hssh Hrun Hloads Hex Hlog Hraised Hrt Hne Hold.
  apply reachable_registered in Hreach as [Hnd Hreg].
  destruct (select_host_id_registered db (name h) Hnd (Hreg h Hh))
    as (row & Hrow & Hn & Hsel).
  destruct (poll_once_success db h cfg w raw Hos Hssh Hrun Hlog Hraised)
    as (l & Hparse & Hcommit).
  apply parse_payload_extras in Hparse as (m' & ex' & Hloads' & Hex' & Hpayload).
  assert (m' = m) by congruence. subst m'.
  assert (Hexeq : JObj ex' = ex) by congruence.
  rewrite Hexeq in Hpayload.
  apply commit_body_tables in Hcommit as (hid & Hsel' & _ & _ & Hextras & _).
  assert (hid = h_id row) by congruence. subst hid.
  unfold extras_of in Hextras. rewrite Hpayload, Hne in Hextras.
  pose (x := {| e_host_id := h_id row; e_ts := now w; e_payload := json_dumps ex |}).
  assert (Hlast : select_last_extras (db_after (poll_once LINUX_SHELL db h w)) (h_id row)
                  = Some x).
  { apply (select_last_extras_appended db _ x Hextras). intros e He Hid. simpl.
    apply Z.lt_le_incl. apply (Hold row e); assumption. }
  exists row. unfold api_latest. rewrite Hlast. simpl. rewrite Hne.
  unfold py_json_loads. rewrite Hrt. simpl.
  eexists. split; [exact Hrow |]. split; [exact Hn |]. split; reflexivity.
Qed.

End RoundTrip.

(** C8. The extras object survives the trip through the store. With the
    reference library, in which [json.loads] reads back every value
    [json.dumps] prints ([loads_dumps]): after a poll of a linux host
    whose collection succeeded and was committed, with [ex] the [extras]
    object of the payload (the empty object when the payload has none),
    and every extras row the host already had older than this poll,
    [api_latest] for that host answers with [extras] equal to [ex]. *)
Theorem extras_round_trip (LINUX_SHELL : string) (config_hosts : list host_entry)
    (db : store) (h : Host) (cfg : SSHConfig) (w : poll_env) (raw : string)
    (m : gmap string json) (ex : json) :
  reachable LINUX_SHELL config_hosts db ->
  h ∈ host_of_entry <$> config_hosts ->
  os h = "linux" -> ssh h = Some cfg ->
  (SSHClient_run (ip h) cfg LINUX_SHELL (ssh_world w)).1 = Ok raw ->
  json_loads raw = Some (JObj m) ->
  ex = default (JObj ∅) (m !! "extras") ->
  logged (poll_once LINUX_SHELL db h w) = None ->
  raised (poll_once LINUX_SHELL db h w) = None ->
  (forall row e, row ∈ hosts db -> h_name row = name h ->
                 e ∈ extras db -> e_host_id e = h_id row -> e_ts e < now w) ->
  exists row resp,
    row ∈ hosts db /\ h_name row = name h
    /\ api_latest (db_after (poll_once LINUX_SHELL db h w)) (h_id row) = Ok resp
    /\ latest_extras resp = ex.
Proof.
  intros Hreach Hh Hos Hssh Hrun Hloads Hex Hlog Hraised Hold.
  apply (extras_round_trip_law LINUX_SHELL config_hosts db h cfg w raw m ex);
    try assumption.
  - apply loads_dumps.
  - apply dumps_not_empty.
Qed.

(** ** The program on the example fleet *)

Lemma db0_reachable : reachable Example.LINUX_SHELL Example.fleet Example.db0.
Proof.
  apply (reachable_init Example.LINUX_SHELL Example.fleet (init_db None)).
  apply NoDup_nil_2.
Qed.

Lemma web_in_fleet : Example.web ∈ host_of_entry <$> Example.fleet.
Proof. apply list_elem_of_here. Qed.


Lemma db1_reachable : reachable Example.LINUX_SHELL Example.fleet Example.db1.
Proof. apply reachable_poll; [apply db0_reachable | apply web_in_fleet]. Qed.

Lemma db2_reachable : reachable Example.LINUX_SHELL Example.fleet Example.db2.
Proof. apply reachable_poll; [apply db1_reachable | apply web_in_fleet]. Qed.

Ltac by_vm :=
  match goal with
  | |- ?l = ?r => exact (@eq_refl _ r <: l = r)
  end.


(** The first poll of the example holds a [disks] value the commit takes. *)
Lemma first_poll_disks_ok :
  try_block Example.LINUX_SHELL Example.web
    (Example.answers 100 (json_dumps Example.payload_1))
  = Some (Example.locals_1, None)
  /\ disks_ok (disks_v Example.locals_1).
Proof.
  split; [by_vm |]. right. eexists. split; [reflexivity |].
  apply List.Forall_cons; [| apply List.Forall_cons; [| apply List.Forall_nil]].
  - eexists. exists 1000, 400. split; [reflexivity |]. split; [vm_compute; exact I |].
    unfold int64. repeat split; try lia; by_vm.
  - eexists. exists 5000, 4500. split; [reflexivity |]. split; [vm_compute; exact I |].
    unfold int64. repeat split; try lia; by_vm.
Qed.


Lemma int64_100 : int64 100.
Proof. unfold int64. lia. Qed.


(** Outside C1: a disk entry that does not convert is met inside the
    transaction, outside the [try]: the poll raises and the sample is
    rolled back with the rest. *)
Lemma poll_once_disk_entry_escapes :
  poll_once Example.LINUX_SHELL Example.db0 Example.web
    (Example.answers 100 (json_dumps Example.payload_bad_disk))
  = {| db_after := Example.db0; logged := None; raised := Some TypeError |}.
Proof. by_vm. Qed.

(** Outside C1 too: an integer metric outside the signed 64-bit range
    parses, and the driver rejects it when the sample is inserted: the
    poll raises [OverflowError] and writes nothing. *)
Lemma poll_once_integer_overflow :
  parse_payload (json_dumps Example.payload_wide) initial_locals
  = ({| cpu := Some (0, 0); mem_total := Some (2 ^ 63); mem_avail := Some 0;
        uptime := Some 0; net_rx := None; net_tx := None; disks_v := JArr [];
        extras_payload := Some "{}" |}, Ok ())
  /\ poll_once Example.LINUX_SHELL Example.db0 Example.web
       (Example.answers 100 (json_dumps Example.payload_wide))
     = {| db_after := Example.db0; logged := None; raised := Some OverflowError |}.
Proof. split; by_vm. Qed.

(** Outside C2: a failure while parsing is caught too, and the row keeps
    the fields assigned before it. *)
Lemma poll_once_parse_failure_keeps_fields :
  poll_once Example.LINUX_SHELL Example.db0 Example.web
    (Example.answers 100 (json_dumps Example.payload_half))
  = {| db_after := insert_sample
         {| s_host_id := 1; s_ts := 100; s_cpu := Some (5, 0); s_mem_total := None;
            s_mem_avail := None; s_uptime := None; s_latency_ms := Some (8, -1);
            s_net_rx_kbps := None; s_net_tx_kbps := None |} Example.db0;
       logged := Some ValueError; raised := None |}.
Proof. by_vm. Qed.

Lemma int64_200 : int64 200.
Proof. unfold int64. lia. Qed.

Lemma poll_once_failed_collection_witness :
  (reachable Example.LINUX_SHELL Example.fleet Example.db1
   /\ Example.web ∈ host_of_entry <$> Example.fleet
   /\ os Example.web = "linux"
   /\ ssh Example.web = Some Example.monitor
   /\ (SSHClient_run (ip Example.web) Example.monitor Example.LINUX_SHELL
         (ssh_world (Example.unreachable 200))).1
      = Raise (RetryError (TransportError "refused"))
   /\ int64 (now (Example.unreachable 200)))
  /\ exists row,
       row ∈ hosts Example.db1 /\ h_name row = name Example.web
       /\ raised (poll_once Example.LINUX_SHELL Example.db1 Example.web
                    (Example.unreachable 200)) = None
       /\ logged (poll_once Example.LINUX_SHELL Example.db1 Example.web
                    (Example.unreachable 200))
          = Some (RetryError (TransportError "refused"))
       /\ samples (db_after (poll_once Example.LINUX_SHELL Example.db1 Example.web
                               (Example.unreachable 200)))
          = samples Example.db1
            ++ [{| s_host_id := h_id row; s_ts := now (Example.unreachable 200);
                   s_cpu := None; s_mem_total := None; s_mem_avail := None;
                   s_uptime := None;
                   s_latency_ms := probe (Example.unreachable 200) (ip Example.web) 22;
                   s_net_rx_kbps := None; s_net_tx_kbps := None |}]
       /\ hosts (db_after (poll_once Example.LINUX_SHELL Example.db1 Example.web
                             (Example.unreachable 200))) = hosts Example.db1
       /\ disks (db_after (poll_once Example.LINUX_SHELL Example.db1 Example.web
                             (Example.unreachable 200))) = disks Example.db1
       /\ extras (db_after (poll_once Example.LINUX_SHELL Example.db1 Example.web
                              (Example.unreachable 200))) = extras Example.db1.
Proof.
  assert (Hos : os Example.web = "linux") by reflexivity.
  assert (Hssh : ssh Example.web = Some Example.monitor) by reflexivity.
  assert (Hrun : (SSHClient_run (ip Example.web) Example.monitor Example.LINUX_SHELL
                    (ssh_world (Example.unreachable 200))).1
                 = Raise (RetryError (TransportError "refused"))) by reflexivity.
  split.
  - split; [apply db1_reachable |]. split; [apply web_in_fleet |].
    split; [exact Hos |]. split; [exact Hssh |]. split; [exact Hrun | exact int64_200].
  - pose proof (poll_once_failed_collection (F := decimal_float) (L := json_library)
                  Example.LINUX_SHELL Example.fleet Example.db1 Example.web Example.monitor
                  (Example.unreachable 200) (RetryError (TransportError "refused"))
                  db1_reachable web_in_fleet Hos Hssh Hrun int64_200) as H.
    exact H.
Defined.

(** C3 as stated fails in its last part: when both attempts fail, what
    reaches the caller is not the last error (here: the refused
    connection) but tenacity's [RetryError] around it, for both
    connectors; it is also what the poll prints. *)
Lemma retry_surfaces_retry_error :
  (SSHClient_run_body "10.0.0.5" Example.monitor "uptime" (Example.refused_twice 2%nat)).1
  = Raise (TransportError "refused")
  /\ (SSHClient_run "10.0.0.5" Example.monitor "uptime" Example.refused_twice).1
     = Raise (RetryError (TransportError "refused"))
  /\ (SSHClient_run "10.0.0.5" Example.monitor "uptime" Example.refused_twice).1
     <> Raise (TransportError "refused")
  /\ (WinRMClient_run_ps_body "Get-Date" (Example.winrm_down 2%nat)).1
     = Raise (TransportError "refused")
  /\ (WinRMClient_run_ps "Get-Date" Example.winrm_down).1
     = Raise (RetryError (TransportError "refused"))
  /\ (WinRMClient_run_ps "Get-Date" Example.winrm_down).1
     <> Raise (TransportError "refused")
  /\ logged (poll_once Example.LINUX_SHELL Example.db1 Example.web
               (Example.unreachable 200))
     = Some (RetryError (TransportError "refused")).
Proof.
  split; [reflexivity |]. split; [reflexivity |]. split; [discriminate |].
  split; [reflexivity |]. split; [reflexivity |]. split; [discriminate | by_vm].
Qed.

Lemma retry_policy_witness :
  ((SSHClient_run_body "10.0.0.5" Example.monitor "uptime" (Example.refused_twice 1%nat)).1
   = Raise (TransportError "refused")
   /\ (WinRMClient_run_ps_body "Get-Date" (Example.winrm_down 1%nat)).1
      = Raise (TransportError "refused"))
  /\ (SSHClient_run "10.0.0.5" Example.monitor "uptime" Example.refused_twice).1
     = Raise (RetryError (TransportError "refused"))
  /\ sleeps (SSHClient_run "10.0.0.5" Example.monitor "uptime" Example.refused_twice).2 = [1]
  /\ closes (SSHClient_run "10.0.0.5" Example.monitor "uptime" Example.refused_twice).2
     = 2%nat
  /\ (WinRMClient_run_ps "Get-Date" Example.winrm_down).1
     = Raise (RetryError (TransportError "refused"))
  /\ ps_calls (WinRMClient_run_ps "Get-Date" Example.winrm_down).2 = 2%nat.
Proof.
  assert (H1 : (SSHClient_run_body "10.0.0.5" Example.monitor "uptime"
                  (Example.refused_twice 1%nat)).1
               = Raise (TransportError "refused")) by reflexivity.
  assert (H3 : (WinRMClient_run_ps_body "Get-Date" (Example.winrm_down 1%nat)).1
               = Raise (TransportError "refused")) by reflexivity.
  split; [auto |].
  destruct (retry_policy "10.0.0.5" Example.monitor "uptime" Example.refused_twice
              "Get-Date" Example.winrm_down _ _ H1 H3)
    as (_ & Hs & Hc & _ & _ & Hr & _ & _ & Hwc & _ & _ & Hw).
  split; [apply Hr; reflexivity |]. split; [exact Hs |]. split; [exact Hc |].
  split; [apply Hw; reflexivity | exact Hwc].
Defined.



Lemma api_latest_maximum_witness :
  (Example.sample_2 ∈ samples Example.db2
   /\ s_host_id Example.sample_2 = 1
   /\ forall e, select_last_extras Example.db2 1 = Some e ->
                is_Some (json_loads (e_payload e)))
  /\ exists resp,
       api_latest Example.db2 1 = Ok resp
       /\ (exists s, latest_last resp = Some (view_sample s)
             /\ s ∈ samples Example.db2 /\ s_host_id s = 1
             /\ forall s', s' ∈ samples Example.db2 -> s_host_id s' = 1 ->
                           s_ts s' <= s_ts s)
       /\ ((latest_extras resp = JObj ∅
            /\ forall e, e ∈ extras Example.db2 -> e_host_id e <> 1)
           \/ exists e, e ∈ extras Example.db2 /\ e_host_id e = 1
                /\ (forall e', e' ∈ extras Example.db2 -> e_host_id e' = 1 ->
                               e_ts e' <= e_ts e)
                /\ (e_payload e <> EmptyString ->
                    json_loads (e_payload e) = Some (latest_extras resp))
                /\ (e_payload e = EmptyString -> latest_extras resp = JObj ∅))
       /\ latest_disks resp = view_disk_latest <$> select_last_disks Example.db2 1
       /\ forall d, d ∈ select_last_disks Example.db2 1 <->
            d ∈ disks Example.db2 /\ d_host_id d = 1
            /\ forall d', d' ∈ disks Example.db2 -> d_host_id d' = 1 -> d_ts d' <= d_ts d.
Proof.
  assert (Hs : samples Example.db2 = [Example.sample_1; Example.sample_2]) by by_vm.
  assert (H1 : Example.sample_2 ∈ samples Example.db2).
  { rewrite Hs. apply list_elem_of_further, list_elem_of_here. }
  assert (H2 : s_host_id Example.sample_2 = 1) by reflexivity.
  assert (He : select_last_extras Example.db2 1 = Some Example.extras_row_1) by by_vm.
  assert (H3 : forall e, select_last_extras Example.db2 1 = Some e ->
                         is_Some (json_loads (e_payload e))).
  { intros e H. rewrite He in H. injection H as <-. exists Example.extras_1.
    apply loads_dumps. }
  split; [auto |].
  pose proof (api_latest_maximum (F := decimal_float) (L := json_library)
                Example.db2 1 Example.sample_2 H1 H2 H3) as H.
  exact H.
Defined.



Lemma extras_round_trip_witness :
  (reachable Example.LINUX_SHELL Example.fleet Example.db0
   /\ Example.web ∈ host_of_entry <$> Example.fleet
   /\ os Example.web = "linux" /\ ssh Example.web = Some Example.monitor
   /\ (SSHClient_run (ip Example.web) Example.monitor Example.LINUX_SHELL
         (ssh_world (Example.answers 100 (json_dumps Example.payload_1)))).1
      = Ok (json_dumps Example.payload_1)
   /\ json_loads (json_dumps Example.payload_1) = Some (JObj Example.fields_1)
   /\ Example.extras_1 = default (JObj ∅) (Example.fields_1 !! "extras")
   /\ logged (poll_once Example.LINUX_SHELL Example.db0 Example.web
                (Example.answers 100 (json_dumps Example.payload_1))) = None
   /\ raised (poll_once Example.LINUX_SHELL Example.db0 Example.web
                (Example.answers 100 (json_dumps Example.payload_1))) = None
   /\ (forall row e, row ∈ hosts Example.db0 -> h_name row = name Example.web ->
          e ∈ extras Example.db0 -> e_host_id e = h_id row ->
          e_ts e < now (Example.answers 100 (json_dumps Example.payload_1))))
  /\ exists row resp,
       row ∈ hosts Example.db0 /\ h_name row = name Example.web
       /\ api_latest Example.db1 (h_id row) = Ok resp
       /\ latest_extras resp = Example.extras_1.
Proof.
  assert (H1 : os Example.web = "linux") by reflexivity.
  assert (H2 : ssh Example.web = Some Example.monitor) by reflexivity.
  assert (H3 : (SSHClient_run (ip Example.web) Example.monitor Example.LINUX_SHELL
                  (ssh_world (Example.answers 100 (json_dumps Example.payload_1)))).1
               = Ok (json_dumps Example.payload_1)) by by_vm.
  assert (H4 : json_loads (json_dumps Example.payload_1) = Some (JObj Example.fields_1))
    by by_vm.
  assert (H5 : Example.extras_1 = default (JObj ∅) (Example.fields_1 !! "extras"))
    by by_vm.
  assert (H6 : logged (poll_once Example.LINUX_SHELL Example.db0 Example.web
                         (Example.answers 100 (json_dumps Example.payload_1))) = None)
    by by_vm.
  assert (H7 : raised (poll_once Example.LINUX_SHELL Example.db0 Example.web
                         (Example.answers 100 (json_dumps Example.payload_1))) = None)
    by by_vm.
  assert (H10 : forall row e, row ∈ hosts Example.db0 -> h_name row = name Example.web ->
                  e ∈ extras Example.db0 -> e_host_id e = h_id row ->
                  e_ts e < now (Example.answers 100 (json_dumps Example.payload_1))).
  { intros row e _ _ He. apply elem_of_nil in He. contradiction. }
  split.
  - split; [apply db0_reachable |]. split; [apply web_in_fleet |].
    repeat split; assumption.
  - pose proof (extras_round_trip
                  Example.LINUX_SHELL Example.fleet Example.db0 Example.web
                  Example.monitor (Example.answers 100 (json_dumps Example.payload_1))
                  (json_dumps Example.payload_1) Example.fields_1 Example.extras_1
                  db0_reachable web_in_fleet H1 H2 H3 H4 H5 H6 H7 H10) as H.
    exact H.
Defined.

(** C10. A reachable database in which the three parts of the latest
    answer come from different polls: after a good poll at [ts = 100] and
    a failed one at [ts = 200] of the same host, the sample returned is
    the one of the second poll while the extras payload (and the disks)
    are those of the first, whose [ts] is strictly smaller. *)
Theorem latest_mixes_cycles :
  reachable Example.LINUX_SHELL Example.fleet Example.db2
  /\ select_last_sample Example.db2 1 = Some Example.sample_2
  /\ select_last_extras Example.db2 1 = Some Example.extras_row_1
  /\ e_ts Example.extras_row_1 < s_ts Example.sample_2
  /\ Forall (fun d => d_ts d < s_ts Example.sample_2) (select_last_disks Example.db2 1)
  /\ api_latest Example.db2 1 = Ok Example.latest_2
  /\ latest_last Example.latest_2 = Some (view_sample Example.sample_2)
  /\ decode_extras (Some (e_payload Example.extras_row_1))
     = Ok (latest_extras Example.latest_2).
Proof.
  split; [apply db2_reachable |].
  split; [by_vm |]. split; [by_vm |]. split; [reflexivity |].
  split; [apply (bool_decide_unpack _); vm_compute; exact I |].
  split; [by_vm |]. split; [reflexivity | by_vm].
Qed.

(** * Further properties *)

(** ** Connectors: what a run returns, how often it tries *)

(** One attempt over SSH succeeds exactly when the key (if one is used)
    loads, the connection and the command raise nothing, and the command
    printed something or printed no error. *)
Lemma SSHClient_run_body_Ok (ip : string) (cfg : SSHConfig) (cmd : string)
    (w : ssh_attempt) (out : string) :
  (SSHClient_run_body ip cfg cmd w).1 = Ok out <->
  (uses_private_key cfg = None \/ key_load_error w = None)
  /\ connect_error w = None /\ exec_error w = None /\ out = stdout w
  /\ (str_truthy (stdout w) = true \/ str_truthy (stderr w) = false).
Proof.
  unfold SSHClient_run_body.
  destruct (uses_private_key cfg) as [p |], (key_load_error w) as [ek |],
    (connect_error w) as [ec |], (exec_error w) as [ee |]; cbn;
    try (split; [discriminate | intros (H & ? & ? & _); (destruct H; discriminate) || discriminate]).
  all: destruct (str_truthy (stderr w)), (str_truthy (stdout w)); cbn.
  all: split;
    [ intros H; try discriminate; injection H as <-; auto 10
    | intros (_ & _ & _ & -> & [H | H]); try discriminate; reflexivity ].
Qed.

Lemma retry_2_Ok {A : Type} (body : nat -> result A * list event) (wait : Z) (a : A) :
  (retry 2 wait body).1 = Ok a ->
  (body 1%nat).1 = Ok a
  \/ (exists e, (body 1%nat).1 = Raise e) /\ (body 2%nat).1 = Ok a.
Proof.
  destruct (body 1%nat).1 as [a1 | e1] eqn:H1.
  - rewrite (retry_first_success body wait 1 a1 H1). simpl. intros [= <-]. left. reflexivity.
  - rewrite (retry_first_failure body wait e1 H1). simpl.
    destruct (body 2%nat).1 as [a2 | e2]; simpl; [| discriminate].
    intros [= <-]. right. eauto.
Qed.

(** X1. [SSHClient.run] returns [out] exactly when the first attempt
    succeeds with [out], or the first attempt fails and the second
    succeeds with [out]; an attempt succeeds with [out] when its key (if
    one is used) loads, its connection and its command raise nothing,
    its standard output is [out], and [out] is not empty or there is no
    error output. So error output beside some standard output does not
    fail the run, and the second attempt counts only after a failed
    first one. *)
Theorem SSHClient_run_output (ip : string) (cfg : SSHConfig) (cmd : string)
    (world : nat -> ssh_attempt) (out : string) :
  (SSHClient_run ip cfg cmd world).1 = Ok out <->
  attempt_succeeds cfg (world 1%nat) out
  \/ ((forall o, ¬ attempt_succeeds cfg (world 1%nat) o)
      /\ attempt_succeeds cfg (world 2%nat) out).
Proof.
  assert (Hbody : forall w o, (SSHClient_run_body ip cfg cmd w).1 = Ok o
                              <-> attempt_succeeds cfg w o).
  { intros w o. rewrite SSHClient_run_body_Ok. unfold attempt_succeeds.
    rewrite str_truthy_spec.
    assert (Hf : str_truthy (stderr w) = false <-> stderr w = EmptyString)
      by (destruct (stderr w); simpl; split; congruence).
    rewrite Hf. split.
    - intros (H1 & H2 & H3 & -> & H5). auto 10.
    - intros (H1 & H2 & H3 & <- & H5). auto 10. }
  unfold SSHClient_run.
  destruct (SSHClient_run_body ip cfg cmd (world 1%nat)).1 as [a1 | e1] eqn:E1.
  - rewrite (retry_first_success _ 1 1 a1 E1). cbn [fst]. split.
    + intros [= <-]. left. apply Hbody, E1.
    + intros [H | [Hno _]].
      * apply Hbody in H. congruence.
      * destruct (Hno a1). apply Hbody, E1.
  - rewrite (retry_first_failure _ 1 e1 E1). cbn [fst]. split.
    + intros H. right. split.
      * intros o Ho. apply Hbody in Ho. congruence.
      * apply Hbody. destruct (SSHClient_run_body ip cfg cmd (world 2%nat)).1;
          simpl in H; [exact H | discriminate].
    + intros [H | [_ H]].
      * apply Hbody in H. congruence.
      * apply Hbody in H. rewrite H. reflexivity.
Qed.

(** Error output beside some standard output: the run succeeds at the
    first attempt. *)
Lemma SSHClient_run_output_witness :
  (SSHClient_run "10.0.0.5" Example.monitor "uptime" (fun _ => Example.warns)).1
  = Ok "up 3 days".
Proof.
  apply (proj2 (SSHClient_run_output "10.0.0.5" Example.monitor "uptime"
                  (fun _ => Example.warns) "up 3 days")).
  left. unfold attempt_succeeds. simpl.
  split; [left; reflexivity |]. split; [reflexivity |]. split; [reflexivity |].
  split; [reflexivity | left; discriminate].
Defined.

(** X2. [SSHClient.run] makes one attempt when the first succeeds and two
    otherwise, never more: its result and its trace depend on nothing but
    what the first attempt meets and, when that one fails, what the second
    meets. Every attempt ends by closing its client, whatever happened in
    it, so the trace holds one or two closes and ends with one. *)
Theorem SSHClient_run_attempts (ip : string) (cfg : SSHConfig) (cmd : string)
    (world world' : nat -> ssh_attempt) :
  world 1%nat = world' 1%nat ->
  (is_Ok (SSHClient_run_body ip cfg cmd (world 1%nat)).1 \/ world 2%nat = world' 2%nat) ->
  SSHClient_run ip cfg cmd world = SSHClient_run ip cfg cmd world'
  /\ (1 <= closes (SSHClient_run ip cfg cmd world).2 <= 2)%nat
  /\ (closes (SSHClient_run ip cfg cmd world).2 = 1%nat <->
      is_Ok (SSHClient_run_body ip cfg cmd (world 1%nat)).1)
  /\ last (SSHClient_run ip cfg cmd world).2 = Some EvClose.
Proof.
  intros H1 H2. unfold SSHClient_run.
  destruct (SSHClient_run_body_trace ip cfg cmd (world 1%nat)) as (_ & _ & Hc1 & Hl1 & _).
  destruct (SSHClient_run_body_trace ip cfg cmd (world 2%nat)) as (_ & _ & Hc2 & Hl2 & _).
  destruct (SSHClient_run_body ip cfg cmd (world 1%nat)).1 as [a | e] eqn:E.
  - assert (E' : (SSHClient_run_body ip cfg cmd (world' 1%nat)).1 = Ok a)
      by (rewrite <- H1; exact E).
    rewrite (retry_first_success (fun n => SSHClient_run_body ip cfg cmd (world n)) 1 1 a E).
    rewrite (retry_first_success (fun n => SSHClient_run_body ip cfg cmd (world' n)) 1 1 a E').
    cbn [fst snd]. rewrite <- H1. repeat split; try lia; try exact I; auto.
  - destruct H2 as [[] | H2].
    assert (E' : (SSHClient_run_body ip cfg cmd (world' 1%nat)).1 = Raise e)
      by (rewrite <- H1; exact E).
    rewrite (retry_first_failure (fun n => SSHClient_run_body ip cfg cmd (world n)) 1 e E).
    rewrite (retry_first_failure (fun n => SSHClient_run_body ip cfg cmd (world' n)) 1 e E').
    cbn [fst snd]. rewrite <- H1, <- H2.
    change (EvSleep 1 :: ?t) with ([EvSleep 1] ++ t).
    rewrite !closes_app, Hc1, Hc2, !last_app, Hl2.
    repeat split; try (cbn; lia); try reflexivity.
Qed.

Lemma SSHClient_run_attempts_witness :
  (Example.refused_twice 1%nat = (fun _ : nat => Example.refused) 1%nat
   /\ (is_Ok (SSHClient_run_body "10.0.0.5" Example.monitor "uptime"
                (Example.refused_twice 1%nat)).1
       \/ Example.refused_twice 2%nat = (fun _ : nat => Example.refused) 2%nat))
  /\ SSHClient_run "10.0.0.5" Example.monitor "uptime" Example.refused_twice
     = SSHClient_run "10.0.0.5" Example.monitor "uptime" (fun _ => Example.refused)
  /\ (1 <= closes (SSHClient_run "10.0.0.5" Example.monitor "uptime"
                     Example.refused_twice).2 <= 2)%nat
  /\ (closes (SSHClient_run "10.0.0.5" Example.monitor "uptime"
                Example.refused_twice).2 = 1%nat <->
      is_Ok (SSHClient_run_body "10.0.0.5" Example.monitor "uptime"
               (Example.refused_twice 1%nat)).1)
  /\ last (SSHClient_run "10.0.0.5" Example.monitor "uptime" Example.refused_twice).2
     = Some EvClose.
Proof.
  assert (H1 : Example.refused_twice 1%nat = (fun _ : nat => Example.refused) 1%nat)
    by reflexivity.
  assert (H2 : is_Ok (SSHClient_run_body "10.0.0.5" Example.monitor "uptime"
                       (Example.refused_twice 1%nat)).1
               \/ Example.refused_twice 2%nat = (fun _ : nat => Example.refused) 2%nat)
    by (right; reflexivity).
  split; [auto |].
  exact (SSHClient_run_attempts "10.0.0.5" Example.monitor "uptime"
           Example.refused_twice (fun _ => Example.refused) H1 H2).
Defined.

Lemma WinRMClient_run_ps_body_Ok (script : string) (w : winrm_attempt) (out : string) :
  (WinRMClient_run_ps_body script w).1 = Ok out <->
  exists err, w = WinRMResponse 0 out err.
Proof.
  destruct w as [e | status o err]; simpl.
  - split; [discriminate | intros [? ?]; discriminate].
  - destruct (Z.eqb_spec status 0) as [-> | Hne]; simpl.
    + split; [intros [= <-]; eauto | intros [? [= <- _]]; reflexivity].
    + split; [discriminate | intros [? [= ? _]]; contradiction].
Qed.

(** X3. [WinRMClient.run_ps] returns output only from a response whose
    status code is 0, that of the first attempt or, after a failed first
    one, of the second; a response with another status raises, whatever
    it printed. *)
Theorem WinRMClient_run_ps_output (script : string) (world : nat -> winrm_attempt)
    (out : string) :
  (WinRMClient_run_ps script world).1 = Ok out ->
  exists n err, (n = 1%nat \/ n = 2%nat) /\ world n = WinRMResponse 0 out err.
Proof.
  intros H. apply retry_2_Ok in H as [H | [_ H]];
    apply WinRMClient_run_ps_body_Ok in H as [err H];
    [exists 1%nat, err | exists 2%nat, err]; auto.
Qed.

Lemma WinRMClient_run_ps_output_witness :
  (WinRMClient_run_ps "Get-Date"
     (fun n => if Nat.eqb n 1 then WinRMResponse 1 "partial" "denied"
               else WinRMResponse 0 "Monday" "")).1 = Ok "Monday"
  /\ exists n err, (n = 1%nat \/ n = 2%nat)
       /\ (fun n => if Nat.eqb n 1 then WinRMResponse 1 "partial" "denied"
                    else WinRMResponse 0 "Monday" "") n
          = WinRMResponse 0 "Monday" err.
Proof.
  assert (H : (WinRMClient_run_ps "Get-Date"
                 (fun n => if Nat.eqb n 1 then WinRMResponse 1 "partial" "denied"
                           else WinRMResponse 0 "Monday" "")).1 = Ok "Monday")
    by reflexivity.
  split; [exact H |].
  exact (WinRMClient_run_ps_output "Get-Date" _ "Monday" H).
Defined.

(** ** Registration only appends *)

Section Appends.
Context {F : PyFloat}.

Lemma next_host_id_fresh (hs : list host_row) (r : host_row) :
  r ∈ hs -> h_id r < next_host_id hs.
Proof.
  unfold next_host_id. induction hs as [| x hs IH]; intros Hin.
  - apply elem_of_nil in Hin. contradiction.
  - simpl. apply elem_of_cons in Hin as [-> | Hin]; [lia |].
    specialize (IH Hin). lia.
Qed.

(** One [INSERT OR IGNORE]: nothing, or one row at the end with an id
    above all the others. *)
Lemma insert_or_ignore_host_step (n i o : string) (db : store) :
  ((n ∈ host_names db) /\ insert_or_ignore_host n i o db = db)
  \/ ((n ∉ host_names db)
      /\ hosts (insert_or_ignore_host n i o db)
         = hosts db ++ [{| h_id := next_host_id (hosts db); h_name := n;
                           h_ip := i; h_os := o |}]).
Proof.
  destruct (decide (n ∈ host_names db)) as [Hin | Hout].
  - left. split; [exact Hin | apply insert_or_ignore_host_present, Hin].
  - right. split; [exact Hout |]. unfold insert_or_ignore_host.
    rewrite bool_decide_eq_false_2 by exact Hout. reflexivity.
Qed.

Lemma insert_or_ignore_host_keys (n i o : string) (db : store) :
  hosts_keys db -> hosts_keys (insert_or_ignore_host n i o db).
Proof.
  intros [Hid Hnm]. split; [| apply insert_or_ignore_host_unique, Hnm].
  destruct (insert_or_ignore_host_step n i o db) as [[_ ->] | [_ ->]]; [exact Hid |].
  rewrite fmap_app. apply NoDup_app. split; [exact Hid |]. split; [| apply NoDup_singleton].
  intros x Hx Hx'. apply list_elem_of_singleton in Hx'. simpl in Hx'. subst x.
  apply list_elem_of_fmap in Hx as (r & Hr & Hin).
  apply next_host_id_fresh in Hin. lia.
Qed.

Lemma register_hosts_new_rows (hs : list Host) (db : store) :
  exists new, hosts (register_hosts hs db) = hosts db ++ new
    /\ Forall (registered_from db hs) new.
Proof.
  revert db. induction hs as [| h hs IH]; intros db.
  - exists []. rewrite app_nil_r. split; [reflexivity | constructor].
  - rewrite register_hosts_cons.
    destruct (IH (insert_or_ignore_host (name h) (ip h) (os h) db)) as (new & Hnew & Hall).
    destruct (insert_or_ignore_host_step (name h) (ip h) (os h) db)
      as [[Hin Heq] | [Hout Heq]].
    + rewrite Heq in *. exists new. split; [exact Hnew |].
      eapply Forall_impl; [exact Hall |].
      intros r (Hlt & Hn & h' & Hh' & Hrest). split; [exact Hlt |]. split; [exact Hn |].
      exists h'. split; [right; exact Hh' | exact Hrest].
    + exists ({| h_id := next_host_id (hosts db); h_name := name h;
                 h_ip := ip h; h_os := os h |} :: new).
      split; [rewrite Hnew, Heq, <- app_assoc; reflexivity |].
      constructor.
      * split; [intros r0 Hr0; apply next_host_id_fresh, Hr0 |].
        split; [exact Hout |]. exists h. split; [left | auto].
      * eapply Forall_impl; [exact Hall |].
        intros r (Hlt & Hn & h' & Hh' & Hrest). split.
        { intros r0 Hr0. apply Hlt. rewrite Heq. apply elem_of_app. left. exact Hr0. }
        split.
        { intros Hin. apply Hn. unfold host_names. rewrite Heq, fmap_app.
          apply elem_of_app. left. exact Hin. }
        exists h'. split; [right; exact Hh' | exact Hrest].
Qed.

(** X4. Registering hosts only appends to [hosts]: the rows that were
    there keep their place, id, address and system (the address and
    system of a host registered again under a name already present are
    not taken over); each new row gets a name that was absent, the address
    and system of a registered host of that name, and an id above every
    earlier one; ids and names stay unique, and the series tables are not
    touched. *)
Theorem register_hosts_appends (db : store) (hs : list Host) :
  hosts_keys db ->
  hosts_keys (register_hosts hs db)
  /\ samples (register_hosts hs db) = samples db
  /\ disks (register_hosts hs db) = disks db
  /\ extras (register_hosts hs db) = extras db
  /\ exists new, hosts (register_hosts hs db) = hosts db ++ new
       /\ Forall (registered_from db hs) new.
Proof.
  intros Hk. split.
  - revert db Hk. induction hs as [| h hs IH]; intros db Hk; [exact Hk |].
    rewrite register_hosts_cons. apply IH, insert_or_ignore_host_keys, Hk.
  - destruct (register_hosts_tables hs db) as (-> & -> & ->).
    repeat split. apply register_hosts_new_rows.
Qed.

End Appends.

Lemma db0_hosts_keys : hosts_keys Example.db0.
Proof. split; apply (bool_decide_unpack _); vm_compute; exact I. Qed.

Lemma register_hosts_appends_witness :
  hosts_keys Example.db0
  /\ hosts_keys (register_hosts [Example.web; Example.bare] Example.db0)
  /\ samples (register_hosts [Example.web; Example.bare] Example.db0) = samples Example.db0
  /\ disks (register_hosts [Example.web; Example.bare] Example.db0) = disks Example.db0
  /\ extras (register_hosts [Example.web; Example.bare] Example.db0) = extras Example.db0
  /\ exists new,
       hosts (register_hosts [Example.web; Example.bare] Example.db0)
       = hosts Example.db0 ++ new
       /\ Forall (registered_from Example.db0 [Example.web; Example.bare]) new.
Proof.
  split; [exact db0_hosts_keys |].
  exact (register_hosts_appends Example.db0 [Example.web; Example.bare] db0_hosts_keys).
Defined.

(** ** What a poll does to the tables *)

Section Frame.
Context {F : PyFloat} {L : PyLib}.
Variable LINUX_SHELL : string.

Lemma select_host_id_Ok (db : store) (n : string) (hid : Z) :
  select_host_id n db = Ok hid ->
  exists r, r ∈ hosts db /\ h_name r = n /\ h_id r = hid.
Proof.
  unfold select_host_id.
  destruct (filter (fun r => h_name r = n) (hosts db)) as [| r [| r' l]] eqn:E;
    try discriminate.
  intros [= <-]. exists r.
  assert (Hr : r ∈ filter (fun r => h_name r = n) (hosts db)) by (rewrite E; left).
  apply list_elem_of_filter in Hr as [Hn Hin]. auto.
Qed.

(** A poll leaves the database as it was, or commits: one sample, the
    disk rows and at most one extras row, all with the id of the host's
    row and the poll's timestamp. *)
Lemma poll_once_tables (db : store) (h : Host) (w : poll_env) :
  db_after (poll_once LINUX_SHELL db h w) = db
  \/ exists hid l log rs,
       try_block LINUX_SHELL h w = Some (l, log)
       /\ raised (poll_once LINUX_SHELL db h w) = None
       /\ select_host_id (name h) db = Ok hid
       /\ hosts (db_after (poll_once LINUX_SHELL db h w)) = hosts db
       /\ samples (db_after (poll_once LINUX_SHELL db h w))
          = samples db
            ++ [sample_of hid (now w)
                  (tcp_ping w (ip h) (if String.eqb (os h) "linux" then 22 else 3389)) l]
       /\ extras (db_after (poll_once LINUX_SHELL db h w))
          = extras db ++ extras_of hid (now w) l
       /\ disks (db_after (poll_once LINUX_SHELL db h w)) = disks db ++ rs
       /\ Forall (fun r => d_host_id r = hid /\ d_ts r = now w) rs.
Proof.
  unfold poll_once. destruct (try_block LINUX_SHELL h w) as [[l log] |]; [| left; reflexivity].
  unfold commit. destruct (commit_body _ _ _ _ _) as [db' | e] eqn:Hc; [| left; reflexivity].
  right. apply commit_body_tables in Hc as (hid & Hsel & Hh & Hs & He & rs & Hd & Hrs).
  exists hid, l, log, rs. simpl. auto 10.
Qed.

Lemma poll_once_raised (db : store) (h : Host) (w : poll_env) :
  raised (poll_once LINUX_SHELL db h w) <> None ->
  db_after (poll_once LINUX_SHELL db h w) = db.
Proof.
  unfold poll_once. destruct (try_block LINUX_SHELL h w) as [[l log] |]; [| reflexivity].
  unfold commit. destruct (commit_body _ _ _ _ _); simpl; [| reflexivity].
  intros H. contradiction.
Qed.

Lemma extras_of_length (hid ts : Z) (l : locals) : (length (extras_of hid ts l) <= 1)%nat.
Proof.
  unfold extras_of. destruct (extras_payload l) as [p |]; [destruct (str_truthy p) |];
    simpl; lia.
Qed.

Lemma extras_of_rows (hid ts : Z) (l : locals) :
  Forall (fun e => e_host_id e = hid /\ e_ts e = ts) (extras_of hid ts l).
Proof.
  unfold extras_of. destruct (extras_payload l) as [p |]; [destruct (str_truthy p) |];
    repeat constructor.
Qed.

(** X5. Whatever the host and whatever happens, a poll only appends: the
    [hosts] table and every existing row stay as they are. It adds at most
    one sample and at most one extras row; disk rows and an extras row
    never come without the sample; all the rows it adds carry one host id
    and the timestamp read at the start of the poll; and when it raises it
    has added nothing. *)
Theorem poll_once_appends (db : store) (h : Host) (w : poll_env) :
  hosts (db_after (poll_once LINUX_SHELL db h w)) = hosts db
  /\ exists hid ss ds es,
       samples (db_after (poll_once LINUX_SHELL db h w)) = samples db ++ ss
       /\ disks (db_after (poll_once LINUX_SHELL db h w)) = disks db ++ ds
       /\ extras (db_after (poll_once LINUX_SHELL db h w)) = extras db ++ es
       /\ (length ss <= 1)%nat /\ (length es <= length ss)%nat
       /\ (ss = [] -> ds = [])
       /\ (raised (poll_once LINUX_SHELL db h w) <> None -> ss = [])
       /\ Forall (fun r => s_host_id r = hid /\ s_ts r = now w) ss
       /\ Forall (fun r => d_host_id r = hid /\ d_ts r = now w) ds
       /\ Forall (fun r => e_host_id r = hid /\ e_ts r = now w) es.
Proof.
  split; [apply poll_once_hosts |].
  destruct (poll_once_tables db h w)
    as [Heq | (hid & l & log & rs & _ & Hr & _ & _ & Hs & He & Hd & Hrs)].
  - exists 0, [], [], []. rewrite Heq, !app_nil_r. simpl.
    repeat split; auto; constructor.
  - exists hid, [sample_of hid (now w)
                   (tcp_ping w (ip h) (if String.eqb (os h) "linux" then 22 else 3389)) l],
      rs, (extras_of hid (now w) l).
    split; [exact Hs |]. split; [exact Hd |]. split; [exact He |].
    split; [simpl; lia |]. split; [apply extras_of_length |].
    split; [discriminate |]. split; [intros Hne; rewrite Hr in Hne; contradiction |].
    split; [repeat constructor |]. split; [exact Hrs | apply extras_of_rows].
Qed.

Lemma register_hosts_keeps_integrity (hs : list Host) (db : store) :
  references_hosts db -> beside_a_sample db ->
  references_hosts (register_hosts hs db) /\ beside_a_sample (register_hosts hs db).
Proof.
  intros (Rs & Rd & Re) (Bd & Be).
  destruct (register_hosts_tables hs db) as (Hs & Hd & He).
  destruct (register_hosts_new_rows hs db) as (new & Hnew & _).
  unfold references_hosts, beside_a_sample. rewrite Hs, Hd, He, Hnew, fmap_app.
  split; [split; [| split] | split; assumption].
  - eapply Forall_impl; [exact Rs |]. intros r Hr. apply elem_of_app. left. exact Hr.
  - eapply Forall_impl; [exact Rd |]. intros r Hr. apply elem_of_app. left. exact Hr.
  - eapply Forall_impl; [exact Re |]. intros r Hr. apply elem_of_app. left. exact Hr.
Qed.

(** X6. Start-up and polls keep the references and the grouping of the
    tables: when every sample, disk row and extras row refers to a row of
    [hosts], and every disk row and extras row sits beside a sample of
    the same host and [ts], the same holds after [__init__] and after a
    poll of any host. *)
Theorem poll_once_keeps_integrity (db : store) (config_hosts : list host_entry)
    (h : Host) (w : poll_env) :
  references_hosts db -> beside_a_sample db ->
  (references_hosts (AgentlessPoller_init config_hosts db).2
   /\ beside_a_sample (AgentlessPoller_init config_hosts db).2)
  /\ references_hosts (db_after (poll_once LINUX_SHELL db h w))
  /\ beside_a_sample (db_after (poll_once LINUX_SHELL db h w)).
Proof.
  intros HR HB. split; [apply register_hosts_keeps_integrity; assumption |].
  destruct HR as (Rs & Rd & Re). destruct HB as (Bd & Be).
  destruct (poll_once_tables db h w)
    as [-> | (hid & l & log & rs & _ & _ & Hsel & Hh & Hs & He & Hd & Hrs)].
  { split; [split; [| split] | split]; assumption. }
  apply select_host_id_Ok in Hsel as (row & Hrow & _ & Hid).
  assert (Hin : hid ∈ h_id <$> hosts db).
  { rewrite <- Hid. apply list_elem_of_fmap. eauto. }
  unfold references_hosts, beside_a_sample. rewrite Hh, Hs, He, Hd.
  split; [split; [| split] | split].
  - apply Forall_app. split; [exact Rs |]. repeat constructor. exact Hin.
  - apply Forall_app. split; [exact Rd |].
    eapply Forall_impl; [exact Hrs |]. intros r [-> _]. exact Hin.
  - apply Forall_app. split; [exact Re |].
    eapply Forall_impl; [apply extras_of_rows |]. intros r [-> _]. exact Hin.
  - apply Forall_app. split.
    + eapply Forall_impl; [exact Bd |]. intros r (s & Hs' & Hrest).
      exists s. split; [apply elem_of_app; left; exact Hs' | exact Hrest].
    + eapply Forall_impl; [exact Hrs |]. intros r [Hr1 Hr2].
      eexists. split; [apply elem_of_app; right; left |]. simpl. auto.
  - apply Forall_app. split.
    + eapply Forall_impl; [exact Be |]. intros r (s & Hs' & Hrest).
      exists s. split; [apply elem_of_app; left; exact Hs' | exact Hrest].
    + eapply Forall_impl; [apply extras_of_rows |]. intros r [Hr1 Hr2].
      eexists. split; [apply elem_of_app; right; left |]. simpl. auto.
Qed.

End Frame.

Lemma db1_integrity : references_hosts Example.db1 /\ beside_a_sample Example.db1.
Proof.
  assert (Hs : samples Example.db1 = [Example.sample_1]) by by_vm.
  assert (Hi : h_id <$> hosts Example.db1 = [1; 2]) by by_vm.
  unfold references_hosts, beside_a_sample. rewrite Hs, Hi.
  split; [split; [| split] | split].
  - repeat constructor.
  - apply (bool_decide_unpack _). vm_compute. exact I.
  - apply (bool_decide_unpack _). vm_compute. exact I.
  - apply Forall_forall. intros r Hr. exists Example.sample_1. split; [left |].
    revert r Hr. apply Forall_forall. apply (bool_decide_unpack _). vm_compute. exact I.
  - apply Forall_forall. intros r Hr. exists Example.sample_1. split; [left |].
    revert r Hr. apply Forall_forall. apply (bool_decide_unpack _). vm_compute. exact I.
Qed.

Lemma poll_once_keeps_integrity_witness :
  (references_hosts Example.db1 /\ beside_a_sample Example.db1)
  /\ (references_hosts (AgentlessPoller_init Example.fleet3 Example.db1).2
      /\ beside_a_sample (AgentlessPoller_init Example.fleet3 Example.db1).2)
  /\ references_hosts Example.db2 /\ beside_a_sample Example.db2.
Proof.
  split; [exact db1_integrity |].
  pose proof (poll_once_keeps_integrity (F := decimal_float) (L := json_library)
                Example.LINUX_SHELL Example.db1 Example.fleet3 Example.web
                (Example.unreachable 200)
                (proj1 db1_integrity) (proj2 db1_integrity)) as H.
  exact H.
Defined.

(** ** Unusable output, and the order of the assignments *)

Section Payload.
Context {F : PyFloat} {L : PyLib}.
Variable LINUX_SHELL : string.

Ltac run_parse :=
  unfold parse_payload, then_, call, assign, py_json_loads, py_get; simpl.

(** Output that is not a JSON object stops the parse before the first
    assignment. *)
Lemma parse_payload_unusable (raw : string) (l : locals) :
  (json_loads raw = None -> parse_payload raw l = (l, Raise JSONDecodeError))
  /\ (forall j, json_loads raw = Some j -> (forall m, j <> JObj m) ->
        parse_payload raw l = (l, Raise AttributeError)).
Proof.
  split.
  - intros H. run_parse. rewrite H. reflexivity.
  - intros j H Hj. run_parse. rewrite H. simpl.
    destruct j; try reflexivity. destruct (Hj m eq_refl).
Qed.

(** X7. When the script's output is not JSON (empty output, a message),
    or is JSON but not an object (a list, a number), the poll of a linux
    host prints [JSONDecodeError], respectively [AttributeError], raises
    nothing and commits what it commits for a failed collection: it
    appends to [samples] one row with the poll's timestamp (a clock
    reading, which fits a 64-bit column), the latency of the port-22
    probe and every metric null; [hosts], [disks] and [extras] stay as
    they were. *)
Theorem poll_once_unusable_output (config_hosts : list host_entry) (db : store)
    (h : Host) (cfg : SSHConfig) (w : poll_env) (raw : string) (e : exn) :
  reachable LINUX_SHELL config_hosts db ->
  h ∈ host_of_entry <$> config_hosts ->
  os h = "linux" -> ssh h = Some cfg ->
  (SSHClient_run (ip h) cfg LINUX_SHELL (ssh_world w)).1 = Ok raw ->
  (json_loads raw = None /\ e = JSONDecodeError
   \/ (exists j, json_loads raw = Some j /\ forall m, j <> JObj m) /\ e = AttributeError) ->
  int64 (now w) ->
  exists row,
    row ∈ hosts db /\ h_name row = name h
    /\ raised (poll_once LINUX_SHELL db h w) = None
    /\ logged (poll_once LINUX_SHELL db h w) = Some e
    /\ samples (db_after (poll_once LINUX_SHELL db h w))
       = samples db
         ++ [{| s_host_id := h_id row; s_ts := now w; s_cpu := None;
                s_mem_total := None; s_mem_avail := None; s_uptime := None;
                s_latency_ms := probe w (ip h) 22;
                s_net_rx_kbps := None; s_net_tx_kbps := None |}]
    /\ hosts (db_after (poll_once LINUX_SHELL db h w)) = hosts db
    /\ disks (db_after (poll_once LINUX_SHELL db h w)) = disks db
    /\ extras (db_after (poll_once LINUX_SHELL db h w)) = extras db.
Proof.
  intros Hreach Hh Hos Hssh Hrun Hraw Hts.
  apply reachable_registered in Hreach as [Hnd Hreg].
  destruct (select_host_id_registered db (name h) Hnd (Hreg h Hh))
    as (row & Hrow & Hn & Hsel).
  exists row. split; [exact Hrow |]. split; [exact Hn |].
  rewrite (poll_once_linux LINUX_SHELL db h cfg w raw Hos Hssh Hrun).
  destruct (parse_payload_unusable raw initial_locals) as [H1 H2].
  assert (Hp : parse_payload raw initial_locals = (initial_locals, Raise e)).
  { destruct Hraw as [[Hl ->] | [(j & Hl & Hj) ->]]; [exact (H1 Hl) | exact (H2 j Hl Hj)]. }
  rewrite Hp, (commit_initial db h (now w) _ (Some e) (h_id row) Hsel Hts).
  simpl. auto 10.
Qed.




End Payload.

(** ** The parse, stage by stage *)

Section ParseStages.
Context {F : PyFloat} {L : PyLib}.
Variable LINUX_SHELL : string.



End ParseStages.


Lemma poll_once_unusable_output_witness :
  (reachable Example.LINUX_SHELL Example.fleet Example.db0
   /\ Example.web ∈ host_of_entry <$> Example.fleet
   /\ os Example.web = "linux" /\ ssh Example.web = Some Example.monitor
   /\ (SSHClient_run (ip Example.web) Example.monitor Example.LINUX_SHELL
         (ssh_world (Example.answers 100 "not json"))).1 = Ok "not json"
   /\ (json_loads "not json" = None /\ JSONDecodeError = JSONDecodeError
       \/ (exists j, json_loads "not json" = Some j /\ forall m, j <> JObj m)
          /\ JSONDecodeError = AttributeError)
   /\ int64 (now (Example.answers 100 "not json")))
  /\ exists row,
       row ∈ hosts Example.db0 /\ h_name row = name Example.web
       /\ raised (poll_once Example.LINUX_SHELL Example.db0 Example.web
                    (Example.answers 100 "not json")) = None
       /\ logged (poll_once Example.LINUX_SHELL Example.db0 Example.web
                    (Example.answers 100 "not json")) = Some JSONDecodeError
       /\ samples (db_after (poll_once Example.LINUX_SHELL Example.db0 Example.web
                               (Example.answers 100 "not json")))
          = samples Example.db0
            ++ [{| s_host_id := h_id row; s_ts := now (Example.answers 100 "not json");
                   s_cpu := None; s_mem_total := None; s_mem_avail := None;
                   s_uptime := None;
                   s_latency_ms := probe (Example.answers 100 "not json")
                                     (ip Example.web) 22;
                   s_net_rx_kbps := None; s_net_tx_kbps := None |}]
       /\ hosts (db_after (poll_once Example.LINUX_SHELL Example.db0 Example.web
                             (Example.answers 100 "not json"))) = hosts Example.db0
       /\ disks (db_after (poll_once Example.LINUX_SHELL Example.db0 Example.web
                             (Example.answers 100 "not json"))) = disks Example.db0
       /\ extras (db_after (poll_once Example.LINUX_SHELL Example.db0 Example.web
                              (Example.answers 100 "not json"))) = extras Example.db0.
Proof.
  assert (H1 : os Example.web = "linux") by reflexivity.
  assert (H2 : ssh Example.web = Some Example.monitor) by reflexivity.
  assert (H3 : (SSHClient_run (ip Example.web) Example.monitor Example.LINUX_SHELL
                  (ssh_world (Example.answers 100 "not json"))).1 = Ok "not json")
    by reflexivity.
  assert (H4 : json_loads "not json" = None /\ JSONDecodeError = JSONDecodeError
               \/ (exists j, json_loads "not json" = Some j /\ forall m, j <> JObj m)
                  /\ JSONDecodeError = AttributeError).
  { left. split; [by_vm | reflexivity]. }
  split.
  - split; [apply db0_reachable |]. split; [apply web_in_fleet |].
    split; [exact H1 |]. split; [exact H2 |]. split; [exact H3 |].
    split; [exact H4 | exact int64_100].
  - pose proof (poll_once_unusable_output (F := decimal_float) (L := json_library)
                  Example.LINUX_SHELL Example.fleet Example.db0 Example.web
                  Example.monitor (Example.answers 100 "not json") "not json"
                  JSONDecodeError db0_reachable web_in_fleet H1 H2 H3 H4 int64_100) as H.
    exact H.
Defined.


(** ** Network rates: null, zero, or an error *)

Section NetRates.
Context {F : PyFloat} {L : PyLib}.

Ltac run_parse :=
  unfold parse_payload, then_, call, assign, py_json_loads, py_get; simpl.

(** X9. For a payload whose core fields convert and whose [extras] is an
    object: when [extras] has no [net], or a false one (empty object,
    null, 0), both rates are stored as null, not as zero; when [net] is a
    non-empty object without the two rate keys, both rates are
    [float(0)]; when [net] is true but not an object (a list, a number,
    a string) the parse raises [AttributeError] with the core metrics and
    [disks] already assigned and no payload text, so that the sample keeps
    the metrics while no extras row is written. *)
Theorem parse_payload_net_rates (raw : string) (l : locals)
    (m ex : gmap string json) (c : pyfloat) (mt ma up : Z) :
  json_loads raw = Some (JObj m) ->
  py_float (default (JInt 0) (m !! "cpu_percent")) = Ok c ->
  py_int (default (JInt 0) (m !! "mem_total_bytes")) = Ok mt ->
  py_int (default (JInt 0) (m !! "mem_available_bytes")) = Ok ma ->
  py_int (default (JInt 0) (m !! "uptime_seconds")) = Ok up ->
  default (JObj ∅) (m !! "extras") = JObj ex ->
  (truthy (default (JObj ∅) (ex !! "net")) = false ->
   parse_payload raw l
   = ({| cpu := Some c; mem_total := Some mt; mem_avail := Some ma; uptime := Some up;
         net_rx := None; net_tx := None;
         disks_v := default (JArr []) (m !! "disks");
         extras_payload := Some (json_dumps (JObj ex)) |}, Ok ()))
  /\ (ex !! "net" = None -> truthy (default (JObj ∅) (ex !! "net")) = false)
  /\ (forall net zero,
        ex !! "net" = Some (JObj net) -> truthy (JObj net) = true ->
        net !! "total_rx_kbps" = None -> net !! "total_tx_kbps" = None ->
        float_of_int 0 = Some zero ->
        parse_payload raw l
        = ({| cpu := Some c; mem_total := Some mt; mem_avail := Some ma;
              uptime := Some up; net_rx := Some zero; net_tx := Some zero;
              disks_v := default (JArr []) (m !! "disks");
              extras_payload := Some (json_dumps (JObj ex)) |}, Ok ()))
  /\ (forall v,
        ex !! "net" = Some v -> truthy v = true -> (forall n, v <> JObj n) ->
        parse_payload raw l
        = ({| cpu := Some c; mem_total := Some mt; mem_avail := Some ma;
              uptime := Some up; net_rx := net_rx l; net_tx := net_tx l;
              disks_v := default (JArr []) (m !! "disks");
              extras_payload := extras_payload l |}, Raise AttributeError)).
Proof.
  intros Hl Hc Hmt Hma Hup Hex.
  assert (Hrun : forall net, default (JObj ∅) (ex !! "net") = net ->
            parse_payload raw l
            = match net_rate net "total_rx_kbps" with
              | Raise e =>
                  ({| cpu := Some c; mem_total := Some mt; mem_avail := Some ma;
                      uptime := Some up; net_rx := net_rx l; net_tx := net_tx l;
                      disks_v := default (JArr []) (m !! "disks");
                      extras_payload := extras_payload l |}, Raise e)
              | Ok rx =>
                  match net_rate net "total_tx_kbps" with
                  | Raise e =>
                      ({| cpu := Some c; mem_total := Some mt; mem_avail := Some ma;
                          uptime := Some up; net_rx := rx; net_tx := net_tx l;
                          disks_v := default (JArr []) (m !! "disks");
                          extras_payload := extras_payload l |}, Raise e)
                  | Ok tx =>
                      ({| cpu := Some c; mem_total := Some mt; mem_avail := Some ma;
                          uptime := Some up; net_rx := rx; net_tx := tx;
                          disks_v := default (JArr []) (m !! "disks");
                          extras_payload := Some (json_dumps (JObj ex)) |}, Ok ())
                  end
              end).
  { intros net Hnet. run_parse. rewrite Hl. simpl. rewrite Hc, Hmt, Hma, Hup, Hex. simpl.
    rewrite Hnet. destruct (net_rate net "total_rx_kbps"); simpl; [| reflexivity].
    destruct (net_rate net "total_tx_kbps"); reflexivity. }
  split; [| split; [| split]].
  - intros Hf. rewrite (Hrun _ eq_refl). unfold net_rate. rewrite Hf. reflexivity.
  - intros ->. reflexivity.
  - intros net zero Hnet Ht Hrx Htx Hz. rewrite (Hrun (JObj net)) by (rewrite Hnet; reflexivity).
    unfold net_rate. rewrite Ht. simpl. rewrite Hrx, Htx. simpl. rewrite Hz. reflexivity.
  - intros v Hnet Ht Hv. rewrite (Hrun v) by (rewrite Hnet; reflexivity).
    unfold net_rate. rewrite Ht. destruct v; try reflexivity. destruct (Hv m0 eq_refl).
Qed.

End NetRates.

Lemma parse_payload_net_rates_witness :
  (json_loads (json_dumps (JObj Example.fields_net_bare))
   = Some (JObj Example.fields_net_bare)
   /\ py_float (default (JInt 0) (Example.fields_net_bare !! "cpu_percent")) = Ok (7, 0)
   /\ py_int (default (JInt 0) (Example.fields_net_bare !! "mem_total_bytes")) = Ok 0
   /\ py_int (default (JInt 0) (Example.fields_net_bare !! "mem_available_bytes")) = Ok 0
   /\ py_int (default (JInt 0) (Example.fields_net_bare !! "uptime_seconds")) = Ok 0
   /\ default (JObj ∅) (Example.fields_net_bare !! "extras")
      = JObj Example.extras_net_bare
   /\ Example.extras_net_bare !! "net" = Some (JObj Example.net_bare)
   /\ truthy (JObj Example.net_bare) = true
   /\ Example.net_bare !! "total_rx_kbps" = None
   /\ Example.net_bare !! "total_tx_kbps" = None
   /\ float_of_int 0 = Some (0, 0))
  /\ parse_payload (json_dumps (JObj Example.fields_net_bare)) initial_locals
     = ({| cpu := Some (7, 0); mem_total := Some 0; mem_avail := Some 0;
           uptime := Some 0; net_rx := Some (0, 0); net_tx := Some (0, 0);
           disks_v := default (JArr []) (Example.fields_net_bare !! "disks");
           extras_payload := Some (json_dumps (JObj Example.extras_net_bare)) |}, Ok ()).
Proof.
  assert (H1 : json_loads (json_dumps (JObj Example.fields_net_bare))
               = Some (JObj Example.fields_net_bare)) by by_vm.
  assert (H2 : py_float (default (JInt 0) (Example.fields_net_bare !! "cpu_percent"))
               = Ok (7, 0)) by by_vm.
  assert (H3 : py_int (default (JInt 0) (Example.fields_net_bare !! "mem_total_bytes"))
               = Ok 0) by by_vm.
  assert (H4 : py_int (default (JInt 0) (Example.fields_net_bare !! "mem_available_bytes"))
               = Ok 0) by by_vm.
  assert (H5 : py_int (default (JInt 0) (Example.fields_net_bare !! "uptime_seconds"))
               = Ok 0) by by_vm.
  assert (H6 : default (JObj ∅) (Example.fields_net_bare !! "extras")
               = JObj Example.extras_net_bare) by by_vm.
  assert (H7 : Example.extras_net_bare !! "net" = Some (JObj Example.net_bare)) by by_vm.
  assert (H8 : truthy (JObj Example.net_bare) = true) by by_vm.
  assert (H9 : Example.net_bare !! "total_rx_kbps" = None) by by_vm.
  assert (H10 : Example.net_bare !! "total_tx_kbps" = None) by by_vm.
  assert (H11 : float_of_int 0 = Some (0, 0)) by reflexivity.
  split; [repeat split; assumption |].
  pose proof (parse_payload_net_rates (F := decimal_float) (L := json_library)
                (json_dumps (JObj Example.fields_net_bare)) initial_locals
                Example.fields_net_bare Example.extras_net_bare (7, 0) 0 0 0
                H1 H2 H3 H4 H5 H6) as (_ & _ & P & _).
  exact (P Example.net_bare (0, 0) H7 H8 H9 H10 H11).
Defined.

(** ** The loop over [disks] *)

Section DiskRows.
Context {F : PyFloat} {L : PyLib}.
Variable LINUX_SHELL : string.







(** X12. A host that is not a linux host with an SSH profile, and is not
    skipped (a linux host without a profile, a windows host without one,
    any other system), is polled without any remote execution: the poll
    prints nothing, raises nothing and appends to [samples] one row with
    the poll's timestamp (a clock reading, which fits a 64-bit column),
    every metric null and the latency of the probe, on port 22 when the
    system is linux and on port 3389 for every other system; [hosts],
    [disks] and [extras] stay as they were. *)
Theorem poll_once_without_profile (config_hosts : list host_entry) (db : store)
    (h : Host) (w : poll_env) :
  reachable LINUX_SHELL config_hosts db ->
  h ∈ host_of_entry <$> config_hosts ->
  ¬ (os h = "linux" /\ is_Some (ssh h)) ->
  ¬ skipped h ->
  int64 (now w) ->
  exists row,
    row ∈ hosts db /\ h_name row = name h
    /\ raised (poll_once LINUX_SHELL db h w) = None
    /\ logged (poll_once LINUX_SHELL db h w) = None
    /\ samples (db_after (poll_once LINUX_SHELL db h w))
       = samples db
         ++ [{| s_host_id := h_id row; s_ts := now w; s_cpu := None;
                s_mem_total := None; s_mem_avail := None; s_uptime := None;
                s_latency_ms := probe w (ip h)
                                  (if String.eqb (os h) "linux" then 22 else 3389);
                s_net_rx_kbps := None; s_net_tx_kbps := None |}]
    /\ hosts (db_after (poll_once LINUX_SHELL db h w)) = hosts db
    /\ disks (db_after (poll_once LINUX_SHELL db h w)) = disks db
    /\ extras (db_after (poll_once LINUX_SHELL db h w)) = extras db.
Proof.
  intros Hreach Hh Hlin Hskip Hts.
  apply reachable_registered in Hreach as [Hnd Hreg].
  destruct (select_host_id_registered db (name h) Hnd (Hreg h Hh))
    as (row & Hrow & Hn & Hsel).
  exists row. split; [exact Hrow |]. split; [exact Hn |].
  assert (Ht : try_block LINUX_SHELL h w = Some (initial_locals, None)).
  { unfold try_block, skipped in *.
    destruct (String.eqb (os h) "linux") eqn:El.
    - apply String.eqb_eq in El. destruct (ssh h) as [c |].
      + destruct Hlin. split; [exact El | eauto].
      + rewrite El. reflexivity.
    - destruct (String.eqb (os h) "windows") eqn:Ew.
      + apply String.eqb_eq in Ew. destruct (winrm h) as [c |].
        * destruct Hskip. split; [exact Ew | eauto].
        * destruct (ssh h); reflexivity.
      + destruct (ssh h), (winrm h); reflexivity. }
  unfold poll_once. rewrite Ht.
  rewrite (commit_initial db h (now w) _ None (h_id row) Hsel Hts).
  unfold tcp_ping. simpl. auto 10.
Qed.

End DiskRows.

Lemma db3_reachable : reachable Example.LINUX_SHELL Example.fleet3 Example.db3.
Proof.
  apply (reachable_init Example.LINUX_SHELL Example.fleet3 (init_db None)).
  apply NoDup_nil_2.
Qed.

Lemma bare_in_fleet3 : Example.bare ∈ host_of_entry <$> Example.fleet3.
Proof. apply list_elem_of_further, list_elem_of_further, list_elem_of_here. Qed.





Lemma poll_once_without_profile_witness :
  (reachable Example.LINUX_SHELL Example.fleet3 Example.db3
   /\ Example.bare ∈ host_of_entry <$> Example.fleet3
   /\ ¬ (os Example.bare = "linux" /\ is_Some (ssh Example.bare))
   /\ ¬ skipped Example.bare
   /\ int64 (now (Example.unreachable 100)))
  /\ exists row,
       row ∈ hosts Example.db3 /\ h_name row = name Example.bare
       /\ raised (poll_once Example.LINUX_SHELL Example.db3 Example.bare
                    (Example.unreachable 100)) = None
       /\ logged (poll_once Example.LINUX_SHELL Example.db3 Example.bare
                    (Example.unreachable 100)) = None
       /\ samples (db_after (poll_once Example.LINUX_SHELL Example.db3 Example.bare
                               (Example.unreachable 100)))
          = samples Example.db3
            ++ [{| s_host_id := h_id row; s_ts := now (Example.unreachable 100);
                   s_cpu := None; s_mem_total := None; s_mem_avail := None;
                   s_uptime := None;
                   s_latency_ms := probe (Example.unreachable 100) (ip Example.bare)
                                     (if String.eqb (os Example.bare) "linux"
                                      then 22 else 3389);
                   s_net_rx_kbps := None; s_net_tx_kbps := None |}]
       /\ hosts (db_after (poll_once Example.LINUX_SHELL Example.db3 Example.bare
                             (Example.unreachable 100))) = hosts Example.db3
       /\ disks (db_after (poll_once Example.LINUX_SHELL Example.db3 Example.bare
                             (Example.unreachable 100))) = disks Example.db3
       /\ extras (db_after (poll_once Example.LINUX_SHELL Example.db3 Example.bare
                              (Example.unreachable 100))) = extras Example.db3.
Proof.
  assert (H1 : ¬ (os Example.bare = "linux" /\ is_Some (ssh Example.bare))).
  { intros [_ [c Hc]]. discriminate. }
  assert (H2 : ¬ skipped Example.bare).
  { intros [Hw _]. discriminate. }
  split.
  - split; [apply db3_reachable |]. split; [apply bare_in_fleet3 |].
    split; [exact H1 |]. split; [exact H2 | exact int64_100].
  - pose proof (poll_once_without_profile (F := decimal_float) (L := json_library)
                  Example.LINUX_SHELL Example.fleet3 Example.db3 Example.bare
                  (Example.unreachable 100) db3_reachable bare_in_fleet3 H1 H2
                  int64_100) as H.
    exact H.
Defined.

(** ** From a poll to the queries *)

Section PollThenQuery.
Context {F : PyFloat} {L : PyLib}.
Variable LINUX_SHELL : string.



Lemma select_last_sample_appended (db db' : store) (x : sample_row) :
  samples db' = samples db ++ [x] ->
  (forall s, s ∈ samples db -> s_host_id s = s_host_id x -> s_ts s <= s_ts x) ->
  select_last_sample db' (s_host_id x) = Some x.
Proof.
  intros He Hold. unfold select_last_sample. rewrite He, filter_app.
  rewrite (filter_cons_True _ x []) by reflexivity. rewrite filter_nil.
  apply order_by_desc_limit_1_snoc. intros y Hy.
  apply list_elem_of_filter in Hy as [Hh Hy]. apply Hold; assumption.
Qed.





End PollThenQuery.


Lemma first_poll_committed :
  raised (poll_once Example.LINUX_SHELL Example.db0 Example.web
            (Example.answers 100 (json_dumps Example.payload_1))) = None.
Proof. by_vm. Qed.






(** ** Cycles and the loop *)

Section Loop.
Context {F : PyFloat} {L : PyLib}.
Variable LINUX_SHELL : string.

Lemma NoDup_fmap_elem {A B : Type} (f : A -> B) (l : list A) (x y : A) :
  NoDup (f <$> l) -> x ∈ l -> y ∈ l -> f x = f y -> x = y.
Proof.
  intros Hnd Hx Hy Hf.
  apply list_elem_of_lookup in Hx as [i Hi]. apply list_elem_of_lookup in Hy as [j Hj].
  assert (i = j).
  { apply (NoDup_lookup (f <$> l) i j (f x)); [exact Hnd | |];
      rewrite list_lookup_fmap; [rewrite Hi | rewrite Hj, Hf]; reflexivity. }
  subst j. congruence.
Qed.







Lemma run_forever_S (n : nat) (interval : Z) (hs : list Host) (db : store)
    (envs : nat -> nat -> poll_env) :
  run_forever LINUX_SHELL (S n) interval hs db envs
  = match (gather LINUX_SHELL db hs (envs O)).2 with
    | Some ex => ((gather LINUX_SHELL db hs (envs O)).1, Some ex, [])
    | None =>
      let r := run_forever LINUX_SHELL n interval hs (gather LINUX_SHELL db hs (envs O)).1
                 (fun c => envs (S c)) in
      (r.1.1, r.1.2, EvSleep interval :: r.2)
    end.
Proof.
  simpl. destruct (gather LINUX_SHELL db hs (envs O)) as [db' [ex |]]; [reflexivity |].
  simpl. destruct (run_forever LINUX_SHELL n interval hs db' _) as [[db'' e'] tr].
  reflexivity.
Qed.

(** X18. An exception that escapes a poll ends the loop for good: once
    the gather of some iteration has raised, [run_forever] has ended with
    that exception, and however long one waits no later cycle runs: the
    database, the exception and the sleeps made are those of the moment
    it raised, and the iteration that raised was not followed by a
    sleep, so there are fewer sleeps than iterations. *)
Theorem run_forever_stops (n m : nat) (interval : Z) (hs : list Host) (db : store)
    (envs : nat -> nat -> poll_env) (e : exn) :
  (run_forever LINUX_SHELL n interval hs db envs).1.2 = Some e ->
  run_forever LINUX_SHELL (n + m) interval hs db envs
  = run_forever LINUX_SHELL n interval hs db envs
  /\ (length (run_forever LINUX_SHELL n interval hs db envs).2 < n)%nat.
Proof.
  revert db envs. induction n as [| n IH]; intros db envs He; [discriminate |].
  change (S n + m)%nat with (S (n + m)). rewrite !run_forever_S in *.
  destruct (gather LINUX_SHELL db hs (envs O)).2 as [ex |]; [simpl; split; [reflexivity | lia] |].
  cbn zeta in *. cbn [fst snd] in He.
  destruct (IH _ _ He) as [-> Hlen]. split; [reflexivity |]. simpl. lia.
Qed.


End Loop.





Lemma bad_disk_run :
  (run_forever Example.LINUX_SHELL 1 60 [Example.web; Example.win] Example.db0
     (Example.every_minute (json_dumps Example.payload_bad_disk))).1.2
  = Some TypeError.
Proof. by_vm. Qed.

Lemma run_forever_stops_witness :
  (run_forever Example.LINUX_SHELL 1 60 [Example.web; Example.win] Example.db0
     (Example.every_minute (json_dumps Example.payload_bad_disk))).1.2
  = Some TypeError
  /\ run_forever Example.LINUX_SHELL (1 + 1000) 60 [Example.web; Example.win] Example.db0
       (Example.every_minute (json_dumps Example.payload_bad_disk))
     = run_forever Example.LINUX_SHELL 1 60 [Example.web; Example.win] Example.db0
         (Example.every_minute (json_dumps Example.payload_bad_disk))
  /\ (length (run_forever Example.LINUX_SHELL 1 60 [Example.web; Example.win] Example.db0
                (Example.every_minute (json_dumps Example.payload_bad_disk))).2 < 1)%nat.
Proof.
  split; [apply bad_disk_run |].
  pose proof (run_forever_stops (F := decimal_float) (L := json_library)
                Example.LINUX_SHELL 1 1000 60 [Example.web; Example.win] Example.db0
                (Example.every_minute (json_dumps Example.payload_bad_disk))
                TypeError bad_disk_run) as H.
  exact H.
Defined.



(** ** Restart *)

Section Restart.
Context {F : PyFloat} {L : PyLib}.
Variable LINUX_SHELL : string.

Lemma register_hosts_present (hs : list Host) (db : store) :
  (forall h, h ∈ hs -> name h ∈ host_names db) -> register_hosts hs db = db.
Proof.
  induction hs as [| h hs IH]; intros Hall; [reflexivity |].
  rewrite register_hosts_cons, insert_or_ignore_host_present by (apply Hall; left).
  apply IH. intros h' Hh'. apply Hall. right. exact Hh'.
Qed.

(** X20. Starting the process again on the database of an earlier run
    changes no table, whatever the configuration now says about the
    hosts it already named: a host whose address or system was edited in
    the file keeps its old row in [hosts] ([INSERT OR IGNORE] looks at
    the name only), while the poller's own host list carries the new
    values, and the rows of hosts dropped from the file stay. *)
Theorem restart_keeps_database (config_hosts config_hosts' : list host_entry)
    (db : store) :
  reachable LINUX_SHELL config_hosts db ->
  (forall e, e ∈ config_hosts' -> entry_name e ∈ entry_name <$> config_hosts) ->
  AgentlessPoller_init config_hosts' (init_db (Some db))
  = (host_of_entry <$> config_hosts', db).
Proof.
  intros Hreach Hsub. unfold AgentlessPoller_init, init_db. cbn zeta. f_equal.
  apply reachable_registered in Hreach as [_ Hreg].
  apply register_hosts_present. intros h Hh.
  apply list_elem_of_fmap in Hh as (e & -> & He).
  apply Hsub in He. apply list_elem_of_fmap in He as (e0 & Hn & He0).
  change (name (host_of_entry e)) with (entry_name e). rewrite Hn.
  change (entry_name e0) with (name (host_of_entry e0)).
  apply Hreg. apply list_elem_of_fmap. eauto.
Qed.

End Restart.

Lemma fleet_moved_names (e : host_entry) :
  e ∈ Example.fleet_moved -> entry_name e ∈ entry_name <$> Example.fleet.
Proof.
  intros H. apply list_elem_of_singleton in H. subst e. left.
Qed.

Lemma restart_keeps_database_witness :
  (reachable Example.LINUX_SHELL Example.fleet Example.db1
   /\ forall e, e ∈ Example.fleet_moved -> entry_name e ∈ entry_name <$> Example.fleet)
  /\ AgentlessPoller_init Example.fleet_moved (init_db (Some Example.db1))
     = (host_of_entry <$> Example.fleet_moved, Example.db1).
Proof.
  split; [split; [apply db1_reachable | apply fleet_moved_names] |].
  pose proof (restart_keeps_database (F := decimal_float) (L := json_library)
                Example.LINUX_SHELL Example.fleet Example.fleet_moved Example.db1
                db1_reachable fleet_moved_names) as H.
  exact H.
Defined.

(** ** The host list *)

Section HostList.
Context {F : PyFloat}.

Lemma ascii_compare_trans (a b c : ascii) :
  Ascii.compare a b <> Gt -> Ascii.compare b c <> Gt -> Ascii.compare a c <> Gt.
Proof.
  unfold Ascii.compare. rewrite !N.compare_le_iff. lia.
Qed.

Lemma string_compare_trans (s1 s2 s3 : string) :
  String.compare s1 s2 <> Gt -> String.compare s2 s3 <> Gt -> String.compare s1 s3 <> Gt.
Proof.
  revert s2 s3. induction s1 as [| a s1 IH]; intros [| b s2] [| c s3]; simpl;
    try congruence.
  unfold Ascii.compare.
  destruct (N.compare_spec (N_of_ascii a) (N_of_ascii b)) as [Hab | Hab | Hab];
    destruct (N.compare_spec (N_of_ascii b) (N_of_ascii c)) as [Hbc | Hbc | Hbc];
    destruct (N.compare_spec (N_of_ascii a) (N_of_ascii c)) as [Hac | Hac | Hac];
    try congruence; try lia.
  apply IH.
Qed.

Lemma string_leb_trans (s1 s2 s3 : string) :
  String.leb s1 s2 = true -> String.leb s2 s3 = true -> String.leb s1 s3 = true.
Proof.
  unfold String.leb. intros H1 H2.
  pose proof (string_compare_trans s1 s2 s3) as H.
  destruct (String.compare s1 s2), (String.compare s2 s3), (String.compare s1 s3);
    try reflexivity; try discriminate; exfalso; apply H; congruence.
Qed.

Lemma insert_by_name_perm (x : host_row) (l : list host_row) :
  insert_by_name x l ≡ₚ x :: l.
Proof.
  induction l as [| y l IH]; simpl; [reflexivity |].
  destruct (String.leb (h_name x) (h_name y)); [reflexivity |].
  rewrite IH. apply Permutation_swap.
Qed.

Lemma order_by_name_perm (l : list host_row) : order_by_name l ≡ₚ l.
Proof.
  induction l as [| x l IH]; [reflexivity |].
  unfold order_by_name in *. simpl. rewrite insert_by_name_perm, IH. reflexivity.
Qed.

Lemma insert_by_name_sorted (x : host_row) (l : list host_row) :
  StronglySorted (fun a b => String.leb (h_name a) (h_name b) = true) l ->
  StronglySorted (fun a b => String.leb (h_name a) (h_name b) = true)
    (insert_by_name x l).
Proof.
  induction 1 as [| y l Hs IH Hall]; simpl.
  - constructor; constructor.
  - destruct (String.leb (h_name x) (h_name y)) eqn:E.
    + constructor; [constructor; assumption |].
      apply List.Forall_cons; [exact E |].
      eapply Forall_impl; [exact Hall |]. simpl. intros z Hz.
      exact (string_leb_trans _ _ _ E Hz).
    + constructor; [exact IH |].
      rewrite insert_by_name_perm. apply List.Forall_cons; [| exact Hall].
      destruct (String.leb_total (h_name x) (h_name y)) as [H | H]; congruence.
Qed.

Lemma order_by_name_sorted (l : list host_row) :
  StronglySorted (fun a b => String.leb (h_name a) (h_name b) = true) (order_by_name l).
Proof.
  induction l as [| x l IH]; [constructor |].
  unfold order_by_name in *. simpl. apply insert_by_name_sorted, IH.
Qed.

(** X21. The host list shows every row of [hosts] once, polled or not,
    in ascending byte order of the names; [last_ts] is null exactly for a
    host without samples, and otherwise it is the timestamp of one of
    the host's samples, and none of them is newer. *)
Theorem api_hosts_listing (db : store) :
  api_hosts db ≡ₚ view_host db <$> hosts db
  /\ StronglySorted (fun a b => String.leb a b = true) (hv_name <$> api_hosts db)
  /\ forall v, v ∈ api_hosts db ->
       (hv_last_ts v = None <-> forall s, s ∈ samples db -> s_host_id s <> hv_id v)
       /\ forall t, hv_last_ts v = Some t ->
            (exists s, s ∈ samples db /\ s_host_id s = hv_id v /\ s_ts s = t)
            /\ forall s, s ∈ samples db -> s_host_id s = hv_id v -> s_ts s <= t.
Proof.
  unfold api_hosts. split; [rewrite order_by_name_perm; reflexivity |]. split.
  - pose proof (order_by_name_sorted (hosts db)) as Hs.
    induction Hs as [| a l Hs IH Hall]; simpl; constructor; [exact IH |].
    rewrite <- list_fmap_compose. apply Forall_fmap. exact Hall.
  - intros v Hv. apply list_elem_of_fmap in Hv as (r & -> & _). simpl. split.
    + destruct (select_last_sample db (h_id r)) as [x |] eqn:E; simpl.
      * split; [discriminate |]. intros Hno. exfalso.
        apply select_last_sample_max in E as (Hin & Hh & _). exact (Hno x Hin Hh).
      * split; [| reflexivity]. intros _ s Hin Hh.
        unfold select_last_sample in E. apply order_by_desc_limit_1_none in E.
        assert (Hs : s ∈ filter (fun r0 => s_host_id r0 = h_id r) (samples db))
          by (apply list_elem_of_filter; split; assumption).
        rewrite E in Hs. apply elem_of_nil in Hs. exact Hs.
    + intros t Ht. destruct (select_last_sample db (h_id r)) as [x |] eqn:E;
        simpl in Ht; [| discriminate].
      injection Ht as <-. apply select_last_sample_max in E as (Hin & Hh & Hmax).
      split; [exists x; auto |]. intros s Hs Hhs. apply Hmax; assumption.
Qed.

End HostList.

Section PollThenHosts.
Context {F : PyFloat} {L : PyLib}.
Variable LINUX_SHELL : string.

(** X22. After a poll that committed at a timestamp not below those of
    the host's earlier samples, the host list shows that timestamp as
    the [last_ts] of the polled host, and its entries for all other
    hosts are the ones it had before the poll. *)
Theorem poll_once_then_hosts (config_hosts : list host_entry) (db : store)
    (h : Host) (w : poll_env) (l : locals) (log : option exn) :
  reachable LINUX_SHELL config_hosts db ->
  hosts_keys db ->
  h ∈ host_of_entry <$> config_hosts ->
  try_block LINUX_SHELL h w = Some (l, log) ->
  raised (poll_once LINUX_SHELL db h w) = None ->
  (forall hid s, select_host_id (name h) db = Ok hid ->
     s ∈ samples db -> s_host_id s = hid -> s_ts s <= now w) ->
  (exists v, v ∈ api_hosts (db_after (poll_once LINUX_SHELL db h w))
             /\ hv_name v = name h)
  /\ forall v, v ∈ api_hosts (db_after (poll_once LINUX_SHELL db h w)) ->
       (hv_name v = name h -> hv_last_ts v = Some (now w))
       /\ (hv_name v <> name h -> v ∈ api_hosts db).
Proof.
  intros Hreach [Hid Hnm] Hh Ht Hr Hold.
  apply reachable_registered in Hreach as [Hnd Hreg].
  destruct (select_host_id_registered db (name h) Hnd (Hreg h Hh))
    as (row & Hrow & Hn & Hsel).
  revert Hr. unfold poll_once. rewrite Ht. unfold commit.
  destruct (commit_body _ _ _ _ _) as [db' | e] eqn:Hc; simpl; [| discriminate].
  intros _. apply commit_body_tables in Hc as (hid & Hsel' & Hhosts & Hs' & _).
  assert (hid = h_id row) by congruence. subst hid.
  pose (x := sample_of (h_id row) (now w)
               (tcp_ping w (ip h) (if String.eqb (os h) "linux" then 22 else 3389)) l).
  assert (Hlast : select_last_sample db' (h_id row) = Some x).
  { apply (select_last_sample_appended db db' x Hs'). intros s Hin Hs.
    apply (Hold (h_id row) s Hsel Hin Hs). }
  unfold api_hosts. rewrite Hhosts. split.
  - exists (view_host db' row). split; [| exact Hn].
    apply list_elem_of_fmap. exists row. split; [reflexivity |].
    rewrite order_by_name_perm. exact Hrow.
  - intros v Hv. apply list_elem_of_fmap in Hv as (r & -> & Hr).
    rewrite order_by_name_perm in Hr. simpl. split.
    + intros Hname. assert (r = row).
      { apply (NoDup_fmap_elem h_name (hosts db)); [exact Hnm | | | congruence];
          assumption. }
      subst r. rewrite Hlast. reflexivity.
    + intros Hname. apply list_elem_of_fmap. exists r.
      split; [| rewrite order_by_name_perm; exact Hr].
      unfold view_host. f_equal. f_equal. unfold select_last_sample.
      rewrite Hs', filter_app. rewrite (filter_cons_False _ x []), filter_nil, app_nil_r.
      * reflexivity.
      * simpl. intros Heq. apply Hname. rewrite <- Hn. f_equal.
        apply (NoDup_fmap_elem h_id (hosts db)); [exact Hid | | |]; auto.
Qed.

End PollThenHosts.

Lemma db0_no_samples (hid : Z) (s : sample_row) :
  select_host_id (name Example.web) Example.db0 = Ok hid ->
  s ∈ samples Example.db0 -> s_host_id s = hid ->
  s_ts s <= now (Example.answers 100 (json_dumps Example.payload_1)).
Proof. intros _ Hs. apply elem_of_nil in Hs. contradiction. Qed.

Lemma poll_once_then_hosts_witness :
  (reachable Example.LINUX_SHELL Example.fleet Example.db0
   /\ hosts_keys Example.db0
   /\ Example.web ∈ host_of_entry <$> Example.fleet
   /\ try_block Example.LINUX_SHELL Example.web
        (Example.answers 100 (json_dumps Example.payload_1))
      = Some (Example.locals_1, None)
   /\ raised (poll_once Example.LINUX_SHELL Example.db0 Example.web
                (Example.answers 100 (json_dumps Example.payload_1))) = None)
  /\ (exists v, v ∈ api_hosts Example.db1 /\ hv_name v = name Example.web)
  /\ forall v, v ∈ api_hosts Example.db1 ->
       (hv_name v = name Example.web ->
        hv_last_ts v = Some (now (Example.answers 100 (json_dumps Example.payload_1))))
       /\ (hv_name v <> name Example.web -> v ∈ api_hosts Example.db0).
Proof.
  split.
  - split; [apply db0_reachable |]. split; [apply db0_hosts_keys |].
    split; [apply web_in_fleet |].
    split; [apply first_poll_disks_ok | apply first_poll_committed].
  - pose proof (poll_once_then_hosts (F := decimal_float) (L := json_library)
                  Example.LINUX_SHELL Example.fleet Example.db0 Example.web
                  (Example.answers 100 (json_dumps Example.payload_1))
                  Example.locals_1 None db0_reachable db0_hosts_keys web_in_fleet
                  (proj1 first_poll_disks_ok) first_poll_committed db0_no_samples) as H.
    exact H.
Defined.

(** ** The polling interval *)

Section Interval.
Context {F : PyFloat}.

(** X23. Where the polling interval comes from. A non-empty
    [POLL_INTERVAL_SECONDS] decides alone: the configuration is not
    consulted, and a value that is not the text of an integer raises
    [ValueError] instead of falling back. An unset or empty variable
    leaves the choice to the configuration: 30 when the key is absent,
    the configured integer as it is, zero and negative values included,
    and [TypeError] when the key is present with a null value, which the
    default does not replace. *)
Theorem poll_interval_sources (getenv : option string) (config : gmap string json) :
  (forall s, getenv = Some s -> s <> EmptyString ->
     (forall config', poll_interval getenv config' = poll_interval getenv config)
     /\ (forall z, int_of_str s = Some z -> poll_interval getenv config = Ok z)
     /\ (int_of_str s = None -> poll_interval getenv config = Raise ValueError))
  /\ (getenv = None \/ getenv = Some EmptyString ->
      (config !! "poll_interval_seconds" = None -> poll_interval getenv config = Ok 30)
      /\ (forall z, config !! "poll_interval_seconds" = Some (JInt z) ->
            poll_interval getenv config = Ok z)
      /\ (config !! "poll_interval_seconds" = Some JNull ->
          poll_interval getenv config = Raise TypeError)).
Proof.
  split.
  - intros s -> Hs. destruct s as [| a s]; [congruence |]. simpl.
    split; [reflexivity |]. split.
    + intros z ->. reflexivity.
    + intros ->. reflexivity.
  - intros [-> | ->]; simpl;
      (split; [intros -> | split; [intros z -> | intros ->]]); reflexivity.
Qed.

End Interval.
